(** * git-doc: the commit-processing engine, embedded in Rocq

    A shallow embedding of the orchestrator ([internal/orchestrator/updater.go]),
    the state store ([internal/state]), the generation clients ([internal/llm])
    and the document helpers ([internal/doc]) of git-doc, followed by the
    properties of the specification that were checked against them.

    Conventions.
    - A Go [string] is a sequence of bytes: Rocq's [string] (a list of [ascii]).
      [len] is [String.length].
    - A Go [error] is [option string]: [None] is [nil], [Some msg] carries the
      text of [err.Error()].  A Go result pair [(T, error)] stays a pair.
    - A Go [int], [int64] or [time.Duration] is a [Z] kept in the signed 64-bit
      range by [wrap64].
    - Code with effects is written in a state monad over an explicit [World]
      that also records every collaborator call with its outcome. *)

From Stdlib Require Import ZArith List String Ascii Bool Lia.
From Stdlib Require Import DecimalString.
From Stdlib Require Import Sorting.Sorted Sorting.Permutation.
Import ListNotations.

Open Scope string_scope.
Open Scope Z_scope.

Definition error := option string.

(** ** Go built-ins and the parts of package [strings] the program uses *)

Module Go.

Definition max_int : Z := 2 ^ 63 - 1.
Definition min_int : Z := - 2 ^ 63.

(** Two's complement wrap-around of 64-bit signed arithmetic. *)
Definition wrap64 (z : Z) : Z := (z + 2 ^ 63) mod 2 ^ 64 - 2 ^ 63.

(** [x++] on an [int]. *)
Definition incr (x : Z) : Z := wrap64 (x + 1).

(** [len(s)] for a slice, as a Go [int]. *)
Definition len {A} (l : list A) : Z := Z.of_nat (List.length l).

(** [len(s)] for a string: its number of bytes. *)
Definition strlen (s : string) : Z := Z.of_nat (String.length s).

(** [fmt.Sprintf("%d", n)]. *)
Definition itoa (n : Z) : string := NilZero.string_of_int (Z.to_int n).

Definition byte (n : nat) : ascii := ascii_of_nat n.

Definition is_byte (c : ascii) (n : nat) : bool := Nat.eqb (nat_of_ascii c) n.

(** The [asciiSpace] table of package [strings]: tab, LF, VT, FF, CR, space. *)
Definition asciiSpace (c : ascii) : bool :=
  let n := nat_of_ascii c in
  (Nat.leb 9 n && Nat.leb n 13) || Nat.eqb n 32.

(** [unicode.IsSpace] on the two-byte UTF-8 encodings: U+0085 and U+00A0. *)
Definition space2 (c1 c2 : ascii) : bool :=
  is_byte c1 194 && (is_byte c2 133 || is_byte c2 160).

(** [unicode.IsSpace] on the three-byte UTF-8 encodings: U+1680,
    U+2000..U+200A, U+2028, U+2029, U+202F, U+205F and U+3000. *)
Definition space3 (c1 c2 c3 : ascii) : bool :=
  let n3 := nat_of_ascii c3 in
  (is_byte c1 225 && is_byte c2 154 && is_byte c3 128)
  || (is_byte c1 226 && is_byte c2 128
      && ((Nat.leb 128 n3 && Nat.leb n3 138)
          || Nat.eqb n3 168 || Nat.eqb n3 169 || Nat.eqb n3 175))
  || (is_byte c1 226 && is_byte c2 129 && is_byte c3 159)
  || (is_byte c1 227 && is_byte c2 128 && is_byte c3 128).

(** [strings.TrimLeftFunc(s, unicode.IsSpace)] on the bytes of [s]: runes are
    decoded from the front; a byte sequence that is not the UTF-8 encoding of
    a white space rune stops the trimming. *)
Fixpoint TrimLeftSpace (s : string) : string :=
  match s with
  | EmptyString => EmptyString
  | String c1 r1 =>
      if asciiSpace c1 then TrimLeftSpace r1
      else match r1 with
           | EmptyString => s
           | String c2 r2 =>
               if space2 c1 c2 then TrimLeftSpace r2
               else match r2 with
                    | EmptyString => s
                    | String c3 r3 =>
                        if space3 c1 c2 c3 then TrimLeftSpace r3 else s
                    end
           end
  end.

(** The same scan on the reversed byte sequence, for trimming at the end:
    [utf8.DecodeLastRuneInString] walks back to the nearest rune start, which
    for the white space encodings is their first byte. *)
Fixpoint trimLeftSpaceRev (l : list ascii) : list ascii :=
  match l with
  | [] => []
  | c1 :: r1 =>
      if asciiSpace c1 then trimLeftSpaceRev r1
      else match r1 with
           | [] => l
           | c2 :: r2 =>
               if space2 c2 c1 then trimLeftSpaceRev r2
               else match r2 with
                    | [] => l
                    | c3 :: r3 =>
                        if space3 c3 c2 c1 then trimLeftSpaceRev r3 else l
                    end
           end
  end.

Definition TrimRightSpace (s : string) : string :=
  string_of_list_ascii
    (List.rev' (trimLeftSpaceRev (List.rev' (list_ascii_of_string s)))).

(** [strings.TrimSpace]. *)
Definition TrimSpace (s : string) : string := TrimRightSpace (TrimLeftSpace s).

(** [strings.Trim(s, cutset)] for a cutset of one ASCII byte [c]. *)
Fixpoint trimLeftByte (c : ascii) (s : string) : string :=
  match s with
  | String a r => if Ascii.eqb a c then trimLeftByte c r else s
  | EmptyString => EmptyString
  end.

Fixpoint dropWhileByte (c : ascii) (l : list ascii) : list ascii :=
  match l with
  | a :: r => if Ascii.eqb a c then dropWhileByte c r else l
  | [] => []
  end.

Definition trimRightByte (c : ascii) (s : string) : string :=
  string_of_list_ascii
    (List.rev' (dropWhileByte c (List.rev' (list_ascii_of_string s)))).

Definition TrimByte (s : string) (c : ascii) : string :=
  trimLeftByte c (trimRightByte c s).

(** [strings.HasPrefix(s, p)]. *)
Definition HasPrefix (s p : string) : bool := String.prefix p s.

(** [strings.Contains(s, substr)]. *)
Fixpoint Contains (s substr : string) : bool :=
  if String.prefix substr s then true
  else match s with
       | EmptyString => false
       | String _ r => Contains r substr
       end.

Fixpoint dropBytes (n : nat) (s : string) : string :=
  match n, s with
  | O, _ => s
  | S n', String _ r => dropBytes n' r
  | S _, EmptyString => EmptyString
  end.

Fixpoint replaceAll (fuel : nat) (s old new : string) : string :=
  match fuel with
  | O => s
  | S fuel' =>
      match s with
      | EmptyString => EmptyString
      | String c r =>
          if String.prefix old s
          then new ++ replaceAll fuel' (dropBytes (String.length old) s) old new
          else String c (replaceAll fuel' r old new)
      end
  end.

(** [strings.ReplaceAll(s, old, new)] for a non-empty [old], which is how the
    program calls it; every step consumes at least one byte of [s], so
    [length s] steps always suffice. *)
Definition ReplaceAll (s old new : string) : string :=
  replaceAll (String.length s) s old new.

(** [s[:n]] when [n <= len(s)]. *)
Fixpoint takeBytes (n : nat) (s : string) : string :=
  match n, s with
  | S n', String c r => String c (takeBytes n' r)
  | _, _ => EmptyString
  end.

(** [strings.Repeat(s, n)], used to build test inputs. *)
Fixpoint Repeat (s : string) (n : nat) : string :=
  match n with
  | O => EmptyString
  | S n' => s ++ Repeat s n'
  end.

End Go.

(** ** Library functions that are kept abstract

    [crypto/sha256], [path/filepath] and the unified-diff parser are used by
    the engine only as pure functions; the properties below hold for every
    implementation of them. *)

Class Platform := {
  (** [fmt.Sprintf("%x", sha256.Sum256([]byte(s)))] *)
  sha256_hex : string -> string;
  (** [filepath.Join(root, rel)] *)
  filepath_Join : string -> string -> string;
  (** [diffanalyzer.Diff] with [ParseUnifiedDiff], [len(d.Files)] and
      [BuildSummary] *)
  Diff : Type;
  ParseUnifiedDiff : string -> Diff * error;
  numFiles : Diff -> Z;
  BuildSummary : Diff -> string
}.

(** ** Package [state]: the SQLite store

    Each table is the list of its rows in insertion order ([id] and
    [created_at] of [llm_cache] and [run_events], which no statement reads,
    are left out).  An operation gets the outcome of its one SQL statement
    ([fault]: [None] when SQLite executes it, [Some e] when [db.Exec] or the
    query fails with [e]) and, where the statement uses [CURRENT_TIMESTAMP],
    the clock reading [now] in seconds. *)

Module state.

Record ProcessedCommit := {
  commit_hash : string;
  processed_at : Z;
  status : string;
  error_text : option string;
  doc_commit_hash : option string;
  doc_files_changed : list string
}.

Record Mapping := {
  code_commit_hash : string;
  map_doc_file : string;
  map_section : string
}.

Record PlannedUpdate := {
  pu_commit_hash : string;
  pu_doc_file : string;
  pu_section_id : string;
  pu_strategy : string;
  pu_status : string;
  pu_reason : option string;
  pu_created_at : Z;
  pu_updated_at : Z
}.

Record LLMCacheEntry := {
  CommitHash : string;
  DocFile : string;
  SectionID : string;
  Provider : string;
  Model : string;
  PromptHash : string;
  Response : string
}.

Record RunEvent := {
  run_id : string;
  ev_commit_hash : option string;
  level : string;
  component : string;
  message : string;
  metadata : option (list (string * string))
}.

(** The database behind [Store.db]. *)
Record DB := {
  processed_commits : list ProcessedCommit;
  mappings : list Mapping;
  planned_updates : list PlannedUpdate;
  llm_cache : list LLMCacheEntry;
  run_events : list RunEvent
}.

(** The database right after [New]: every table created, none populated. *)
Definition empty : DB :=
  {| processed_commits := []; mappings := []; planned_updates := [];
     llm_cache := []; run_events := [] |}.

Definition nullIfEmpty (s : string) : option string :=
  if String.eqb s "" then None else Some s.

Definition hashPrompt `{Platform} (prompt : string) : string :=
  sha256_hex prompt.

(** [CHECK(status IN ('pending', 'in_progress', 'success', 'failed', 'skipped'))] *)
Definition status_check (s : string) : bool :=
  String.eqb s "pending" || String.eqb s "in_progress" || String.eqb s "success"
  || String.eqb s "failed" || String.eqb s "skipped".

Fixpoint upsert_commit (row : ProcessedCommit) (rows : list ProcessedCommit)
  : list ProcessedCommit :=
  match rows with
  | [] => [row]
  | r :: rest =>
      if String.eqb (commit_hash r) (commit_hash row)
      then row :: rest
      else r :: upsert_commit row rest
  end.

Definition MarkCommitProcessed (d : DB) (fault : error) (now : Z)
    (commitHash status_ errText docCommit : string)
    (filesChanged : option (list string)) : error * DB :=
  let filesJSON := match filesChanged with
                   | None => []
                   | Some files => files
                   end in
  match fault with
  | Some e => (Some ("mark commit processed: " ++ e), d)
  | None =>
      if status_check status_ then
        (None,
         {| processed_commits :=
              upsert_commit
                {| commit_hash := commitHash; processed_at := now;
                   status := status_; error_text := nullIfEmpty errText;
                   doc_commit_hash := nullIfEmpty docCommit;
                   doc_files_changed := filesJSON |}
                (processed_commits d);
            mappings := mappings d; planned_updates := planned_updates d;
            llm_cache := llm_cache d; run_events := run_events d |})
      else
        (Some ("mark commit processed: CHECK constraint failed: status"), d)
  end.

(** [ORDER BY processed_at ASC]: a stable insertion sort on the rows. *)
Fixpoint insert_by_time (r : ProcessedCommit) (sorted : list ProcessedCommit)
  : list ProcessedCommit :=
  match sorted with
  | [] => [r]
  | x :: rest =>
      if processed_at r <? processed_at x then r :: sorted
      else x :: insert_by_time r rest
  end.

Definition order_by_time (rows : list ProcessedCommit) : list ProcessedCommit :=
  fold_left (fun acc r => insert_by_time r acc) rows [].

(** [ORDER BY processed_at DESC LIMIT 1]: the first row holding the latest
    time. *)
Fixpoint latest (rows : list ProcessedCommit) : option ProcessedCommit :=
  match rows with
  | [] => None
  | r :: rest =>
      match latest rest with
      | Some x => if processed_at r <? processed_at x then Some x else Some r
      | None => Some r
      end
  end.

Definition GetLastProcessedCommit (d : DB) (fault : error) : string * error :=
  match fault with
  | Some e => ("", Some e)
  | None =>
      match latest (filter (fun r => String.eqb (status r) "success")
                           (processed_commits d)) with
      | Some r => (commit_hash r, None)
      | None => ("", None)
      end
  end.

Definition GetResumableCommits (d : DB) (fault : error)
  : list string * error :=
  match fault with
  | Some e => ([], Some e)
  | None =>
      (map commit_hash
         (order_by_time
            (filter (fun r => String.eqb (status r) "pending"
                              || String.eqb (status r) "in_progress")
                    (processed_commits d))),
       None)
  end.

Definition StoreMapping (d : DB) (fault : error)
    (commitHash docFile section : string) : error * DB :=
  match fault with
  | Some e => (Some e, d)
  | None =>
      (None,
       {| processed_commits := processed_commits d;
          mappings := mappings d ++
            [{| code_commit_hash := commitHash; map_doc_file := docFile;
                map_section := section |}];
          planned_updates := planned_updates d;
          llm_cache := llm_cache d; run_events := run_events d |})
  end.

Definition same_plan (commitHash docFile sectionID : string)
    (r : PlannedUpdate) : bool :=
  String.eqb (pu_commit_hash r) commitHash
  && String.eqb (pu_doc_file r) docFile
  && String.eqb (pu_section_id r) sectionID.

Fixpoint upsert_plan (now : Z)
    (commitHash docFile sectionID strategy status_ : string)
    (reason : option string) (rows : list PlannedUpdate)
  : list PlannedUpdate :=
  match rows with
  | [] =>
      [{| pu_commit_hash := commitHash; pu_doc_file := docFile;
          pu_section_id := sectionID; pu_strategy := strategy;
          pu_status := status_; pu_reason := reason;
          pu_created_at := now; pu_updated_at := now |}]
  | r :: rest =>
      if same_plan commitHash docFile sectionID r
      then {| pu_commit_hash := commitHash; pu_doc_file := docFile;
              pu_section_id := sectionID; pu_strategy := strategy;
              pu_status := status_; pu_reason := reason;
              pu_created_at := pu_created_at r; pu_updated_at := now |}
           :: rest
      else r :: upsert_plan now commitHash docFile sectionID strategy status_
                            reason rest
  end.

Definition UpsertPlannedUpdate (d : DB) (fault : error) (now : Z)
    (commitHash docFile sectionID strategy status_ reason : string)
  : error * DB :=
  match fault with
  | Some e => (Some e, d)
  | None =>
      (None,
       {| processed_commits := processed_commits d; mappings := mappings d;
          planned_updates :=
            upsert_plan now commitHash docFile sectionID strategy status_
                        (nullIfEmpty reason) (planned_updates d);
          llm_cache := llm_cache d; run_events := run_events d |})
  end.

(** The [WHERE] clause of the cache query and the [UNIQUE] key of the table. *)
Definition same_key (commitHash docFile sectionID provider model promptHash
                     : string) (r : LLMCacheEntry) : bool :=
  String.eqb (CommitHash r) commitHash
  && String.eqb (DocFile r) docFile
  && String.eqb (SectionID r) sectionID
  && String.eqb (Provider r) provider
  && String.eqb (Model r) model
  && String.eqb (PromptHash r) promptHash.

Definition GetCachedLLMResponse `{Platform} (d : DB) (fault : error)
    (commitHash docFile sectionID provider model prompt : string)
  : string * bool * error :=
  let promptHash := hashPrompt prompt in
  match fault with
  | Some e => ("", false, Some e)
  | None =>
      match find (same_key commitHash docFile sectionID provider model
                           promptHash) (llm_cache d) with
      | Some r => (Response r, true, None)
      | None => ("", false, None)
      end
  end.

Fixpoint upsert_cache (entry : LLMCacheEntry) (rows : list LLMCacheEntry)
  : list LLMCacheEntry :=
  match rows with
  | [] => [entry]
  | r :: rest =>
      if same_key (CommitHash entry) (DocFile entry) (SectionID entry)
                  (Provider entry) (Model entry) (PromptHash entry) r
      then {| CommitHash := CommitHash r; DocFile := DocFile r;
              SectionID := SectionID r; Provider := Provider r;
              Model := Model r; PromptHash := PromptHash r;
              Response := Response entry |} :: rest
      else r :: upsert_cache entry rest
  end.

Definition PutCachedLLMResponse (d : DB) (fault : error)
    (entry : LLMCacheEntry) : error * DB :=
  if String.eqb (PromptHash entry) "" then
    (Some "prompt hash is required for llm cache entry", d)
  else
    match fault with
    | Some e => (Some e, d)
    | None =>
        (None,
         {| processed_commits := processed_commits d; mappings := mappings d;
            planned_updates := planned_updates d;
            llm_cache := upsert_cache entry (llm_cache d);
            run_events := run_events d |})
    end.

Definition LogRunEvent (d : DB) (fault : error)
    (runID commitHash level_ component_ message_ : string)
    (metadata_ : option (list (string * string))) : error * DB :=
  match fault with
  | Some e => (Some e, d)
  | None =>
      (None,
       {| processed_commits := processed_commits d; mappings := mappings d;
          planned_updates := planned_updates d; llm_cache := llm_cache d;
          run_events := run_events d ++
            [{| run_id := runID; ev_commit_hash := nullIfEmpty commitHash;
                level := level_; component := component_;
                message := message_; metadata := metadata_ |}] |})
  end.



Definition GetFailedCommits (d : DB) (fault : error) : list string * error :=
  match fault with
  | Some e => ([], Some e)
  | None =>
      (map commit_hash
         (order_by_time
            (filter (fun r => String.eqb (status r) "failed")
                    (processed_commits d))),
       None)
  end.

Definition GetRetryableCommits (d : DB) (fault : error)
  : list string * error :=
  match fault with
  | Some e => ([], Some e)
  | None =>
      (map commit_hash
         (order_by_time
            (filter (fun r => String.eqb (status r) "failed"
                              || String.eqb (status r) "in_progress")
                    (processed_commits d))),
       None)
  end.

(** [SELECT COALESCE(doc_commit_hash, '') ... WHERE commit_hash = ? LIMIT 1];
    [sql.ErrNoRows] gives the empty hash without an error. *)
Definition GetDocCommitHash (d : DB) (fault : error) (codeCommitHash : string)
  : string * error :=
  match fault with
  | Some e => ("", Some e)
  | None =>
      match find (fun r => String.eqb (commit_hash r) codeCommitHash)
                 (processed_commits d) with
      | Some r =>
          (match doc_commit_hash r with Some h => h | None => "" end, None)
      | None => ("", None)
      end
  end.





Record StatusCounts := {
  Pending : Z;
  InProgress : Z;
  Success : Z;
  Failed : Z;
  Skipped : Z;
  Total : Z
}.

(** The row count of the group of one status. *)
Definition countStatus (d : DB) (s : string) : Z :=
  Go.len (filter (fun r => String.eqb (status r) s) (processed_commits d)).

Definition noCounts : StatusCounts :=
  {| Pending := 0; InProgress := 0; Success := 0; Failed := 0; Skipped := 0;
     Total := 0 |}.

(** [GetStatusCounts]: a group that is absent leaves its counter at zero,
    which is its count; a status outside the five is not counted. *)
Definition GetStatusCounts (d : DB) (fault : error) : StatusCounts * error :=
  match fault with
  | Some e => (noCounts, Some e)
  | None =>
      let pending := countStatus d "pending" in
      let inProgress := countStatus d "in_progress" in
      let success := countStatus d "success" in
      let failed := countStatus d "failed" in
      let skipped := countStatus d "skipped" in
      ({| Pending := pending; InProgress := inProgress; Success := success;
          Failed := failed; Skipped := skipped;
          Total :=
            Go.wrap64 (Go.wrap64 (Go.wrap64 (Go.wrap64 (pending + inProgress)
                                             + success) + failed) + skipped) |},
       None)
  end.

End state.

(** ** Package [llm]: generation clients *)

Module llm.

(** [context.Context], as far as the clients look at it: [ctx k] is what
    [ctx.Err()] reports the [k]-th time a call consults the context ([None]
    while the context is live; once cancelled it stays cancelled in Go, which
    the clients do not rely on). *)
Definition Context := nat -> error.

(** [context.Background()]: never cancelled. *)
Definition Background : Context := fun _ => None.

(** [type Client interface { Name() string; Generate(ctx, prompt) (string, error) }].
    A client object is a method set together with its current state [S]. *)
Record Client (S : Type) := {
  Name : S -> string;
  Generate : Context -> string -> S -> (string * error) * S
}.
Arguments Name {S}.
Arguments Generate {S}.

(** *** [MockClient] *)

Definition LF : string := String (Go.byte 10) EmptyString.

Definition MockClient_Generate (prompt : string) : string * error :=
  let line := Go.TrimSpace prompt in
  if String.eqb line "" then ("No changes detected.", None)
  else
    let line := if Go.strlen line >? 180 then Go.takeBytes 180 line else line in
    ("- Auto-generated update" ++ LF ++ LF ++ line, None).

Definition MockClient : Client unit :=
  {| Name := fun _ => "mock";
     Generate := fun _ prompt s => (MockClient_Generate prompt, s) |}.

(** *** The HTTP providers

    What one request of a provider client meets: building or sending the
    request fails ([json.Marshal], [http.NewRequestWithContext], [http.Do]),
    reading the body fails ([io.ReadAll]), or a response with a status code
    and a body arrives. *)
Inductive HttpOutcome :=
| RequestError (e : string)
| BodyError (statusCode : Z) (e : string)
| Response (statusCode : Z) (body : string).

(** [json.Unmarshal] into the anonymous struct each provider declares; the
    decoded fields are the ones the provider reads. *)
Class Json := {
  (** [choices[i].message.content] (OpenAI, Groq) *)
  unmarshal_choices : string -> list string * error;
  (** [response] (Ollama) *)
  unmarshal_response : string -> string * error;
  (** [content[i].type], [content[i].text] (Anthropic) *)
  unmarshal_content : string -> list (string * string) * error;
  (** [candidates[i].content.parts[j].text] (Gemini) *)
  unmarshal_candidates : string -> list (list string) * error
}.

Section Providers.
Context `{Json}.

Definition OpenAIClient_Generate (http : HttpOutcome) : string * error :=
  match http with
  | RequestError e => ("", Some e)
  | BodyError _ e => ("", Some e)
  | Response statusCode body =>
      if statusCode >=? 300 then
        ("", Some ("openai request failed: " ++ Go.TrimSpace body))
      else
        let '(choices, err) := unmarshal_choices body in
        match err with
        | Some e => ("", Some e)
        | None =>
            match choices with
            | [] => ("", Some "openai response has no choices")
            | content :: _ => (Go.TrimSpace content, None)
            end
        end
  end.

Definition GroqClient_Generate (http : HttpOutcome) : string * error :=
  match http with
  | RequestError e => ("", Some e)
  | BodyError _ e => ("", Some e)
  | Response statusCode body =>
      if statusCode >=? 300 then
        ("", Some ("groq request failed: " ++ Go.TrimSpace body))
      else
        let '(choices, err) := unmarshal_choices body in
        match err with
        | Some e => ("", Some e)
        | None =>
            match choices with
            | [] => ("", Some "groq response has no choices")
            | content :: _ =>
                if String.eqb (Go.TrimSpace content) ""
                then ("", Some "groq response has no choices")
                else (Go.TrimSpace content, None)
            end
        end
  end.

Definition OllamaClient_Generate (http : HttpOutcome) : string * error :=
  match http with
  | RequestError e => ("", Some e)
  | BodyError _ e => ("", Some e)
  | Response statusCode body =>
      if statusCode >=? 300 then
        ("", Some ("ollama request failed: " ++ Go.TrimSpace body))
      else
        let '(response, err) := unmarshal_response body in
        match err with
        | Some e => ("", Some e)
        | None =>
            if String.eqb (Go.TrimSpace response) ""
            then ("", Some "ollama response is empty")
            else (Go.TrimSpace response, None)
        end
  end.

Fixpoint firstText (content : list (string * string)) : string * error :=
  match content with
  | [] => ("", Some "anthropic response has no text content")
  | (type, text) :: rest =>
      if String.eqb type "text" && negb (String.eqb (Go.TrimSpace text) "")
      then (Go.TrimSpace text, None)
      else firstText rest
  end.

Definition AnthropicClient_Generate (http : HttpOutcome) : string * error :=
  match http with
  | RequestError e => ("", Some e)
  | BodyError _ e => ("", Some e)
  | Response statusCode body =>
      if statusCode >=? 300 then
        ("", Some ("anthropic request failed: " ++ Go.TrimSpace body))
      else
        let '(content, err) := unmarshal_content body in
        match err with
        | Some e => ("", Some e)
        | None => firstText content
        end
  end.

Fixpoint firstPart (parts : list string) : option string :=
  match parts with
  | [] => None
  | text :: rest =>
      if negb (String.eqb (Go.TrimSpace text) "")
      then Some (Go.TrimSpace text)
      else firstPart rest
  end.

Fixpoint firstCandidate (candidates : list (list string)) : string * error :=
  match candidates with
  | [] => ("", Some "gemini response has no text content")
  | parts :: rest =>
      match firstPart parts with
      | Some text => (text, None)
      | None => firstCandidate rest
      end
  end.

Definition GeminiClient_Generate (http : HttpOutcome) : string * error :=
  match http with
  | RequestError e => ("", Some e)
  | BodyError _ e => ("", Some e)
  | Response statusCode body =>
      if statusCode >=? 300 then
        ("", Some ("gemini request failed: " ++ Go.TrimSpace body))
      else
        let '(candidates, err) := unmarshal_candidates body in
        match err with
        | Some e => ("", Some e)
        | None => firstCandidate candidates
        end
  end.

(** A provider client as an object: its state is the number of requests it
    has made, and [net k] is what its [k]-th request meets. *)
Definition httpClient (name : string) (gen : HttpOutcome -> string * error)
    (net : nat -> HttpOutcome) : Client nat :=
  {| Name := fun _ => name;
     Generate := fun _ _ k => (gen (net k), S k) |}.

Definition OpenAIClient := httpClient "openai" OpenAIClient_Generate.
Definition GroqClient := httpClient "groq" GroqClient_Generate.
Definition OllamaClient := httpClient "ollama" OllamaClient_Generate.
Definition AnthropicClient := httpClient "anthropic" AnthropicClient_Generate.
Definition GeminiClient := httpClient "gemini" GeminiClient_Generate.

End Providers.

(** *** [ResilientClient] *)

Record ResilientClient (S : Type) := {
  clients : list (Client S * S);
  maxRetries : Z
}.
Arguments clients {S}.
Arguments maxRetries {S}.

Definition NewResilientClient {S} (clients_ : list (Client S * S))
    (maxRetries_ : Z) : ResilientClient S :=
  {| clients := clients_;
     maxRetries := if maxRetries_ <? 0 then 0 else maxRetries_ |}.

Fixpoint Join (elems : list string) (sep : string) : string :=
  match elems with
  | [] => ""
  | [x] => x
  | x :: rest => x ++ sep ++ Join rest sep
  end.

Definition ResilientClient_Name {S} (c : ResilientClient S) : string :=
  "resilient("
  ++ Join (map (fun o => Name (fst o) (snd o)) (clients c)) "->" ++ ")".

(** What [Generate] does that its caller cannot see in the result: the calls
    to the providers and the back-off waits, in order.  [provider] is the
    position in [clients]; [delay] is the [time.Duration] handed to
    [time.After], in nanoseconds. *)
Inductive Ev :=
| Attempt (provider : nat) (attempt : Z)
| Wait (provider : nat) (attempt : Z) (delay : Z).

(** [time.Duration(1<<attempt) * 150 * time.Millisecond]: an [int64] shift
    and two [int64] products. *)
Definition backoff (attempt : Z) : Z :=
  Go.wrap64 (Go.wrap64 (Go.wrap64 (Z.shiftl 1 attempt) * 150) * 1000000).

(** How the inner loop over the attempts of one provider ends. *)
Inductive LoopExit :=
| Returned (result : string * error)
| Exhausted.

Section Generate.
Context {S : Type} (ctx : Context) (maxRetries_ : Z) (prompt : string).

(** [for attempt := 0; attempt <= c.maxRetries; attempt++ { ... }] for one
    provider: [n] counts the iterations that remain, [maxRetries + 1] at the
    start ([maxRetries] is below the largest [int], so [attempt] never
    wraps).  [obs] counts the looks at [ctx] so far. *)
Fixpoint attemptLoop (provider : Client S) (idx : nat) (n : nat) (attempt : Z)
    (obs : nat) (lastErr : error) (s : S)
  : LoopExit * S * nat * error * list Ev :=
  match n with
  | O => (Exhausted, s, obs, lastErr, [])
  | Datatypes.S n' =>
      match ctx obs with
      | Some e => (Returned ("", Some e), s, Datatypes.S obs, lastErr, [])
      | None =>
          let '((result, err), s1) := Generate provider ctx prompt s in
          match err with
          | None =>
              (Returned (result, None), s1, Datatypes.S obs, lastErr,
               [Attempt idx attempt])
          | Some e =>
              let lastErr1 :=
                Some ("provider " ++ Name provider s1 ++ " attempt "
                      ++ Go.itoa (attempt + 1) ++ " failed: " ++ e) in
              if attempt <? maxRetries_ then
                let delay := backoff attempt in
                (* select { case <-ctx.Done(): ...; case <-time.After(delay): } *)
                match ctx (Datatypes.S obs) with
                | Some e' =>
                    (Returned ("", Some e'), s1, Datatypes.S (Datatypes.S obs),
                     lastErr1, [Attempt idx attempt; Wait idx attempt delay])
                | None =>
                    let '(exit, s2, obs2, lastErr2, tr) :=
                      attemptLoop provider idx n' (attempt + 1)
                                  (Datatypes.S (Datatypes.S obs)) lastErr1 s1 in
                    (exit, s2, obs2, lastErr2,
                     Attempt idx attempt :: Wait idx attempt delay :: tr)
                end
              else
                let '(exit, s2, obs2, lastErr2, tr) :=
                  attemptLoop provider idx n' (attempt + 1) (Datatypes.S obs)
                              lastErr1 s1 in
                (exit, s2, obs2, lastErr2, Attempt idx attempt :: tr)
          end
      end
  end.

(** [for _, provider := range c.clients { ... }] and the code after it. *)
Fixpoint providerLoop (providers : list (Client S * S)) (idx : nat)
    (obs : nat) (lastErr : error)
  : (string * error) * list (Client S * S) * list Ev :=
  match providers with
  | [] =>
      (("", Some (match lastErr with
                  | Some e => e
                  | None => "all llm providers failed"
                  end)), [], [])
  | (provider, s) :: rest =>
      let '(exit, s1, obs1, lastErr1, tr) :=
        attemptLoop provider idx (Z.to_nat (maxRetries_ + 1)) 0 obs lastErr s in
      match exit with
      | Returned result => (result, (provider, s1) :: rest, tr)
      | Exhausted =>
          let '(result, rest1, tr1) :=
            providerLoop rest (Datatypes.S idx) obs1 lastErr1 in
          (result, (provider, s1) :: rest1, (tr ++ tr1)%list)
      end
  end.

End Generate.

(** [ResilientClient.Generate], with the trace of what it did. *)
Definition ResilientClient_Generate {S} (ctx : Context) (prompt : string)
    (c : ResilientClient S)
  : (string * error) * ResilientClient S * list Ev :=
  match clients c with
  | [] => (("", Some "no llm clients configured"), c, [])
  | _ =>
      let '(result, clients1, tr) :=
        providerLoop ctx (maxRetries c) prompt (clients c) 0 0 None in
      (result, {| clients := clients1; maxRetries := maxRetries c |}, tr)
  end.

(** A [ResilientClient] is a [Client]. *)
Definition ResilientClient_Client {S} : Client (ResilientClient S) :=
  {| Name := ResilientClient_Name;
     Generate := fun ctx prompt c =>
       let '(result, c1, _) := ResilientClient_Generate ctx prompt c in
       (result, c1) |}.

(** The test double of [resilient_test.go]: fails its first [failCount]
    calls, then answers ["ok"].  Its state is [called]. *)
Definition flakyClient (name : string) (failCount : nat) : Client nat :=
  {| Name := fun _ => name;
     Generate := fun _ _ called =>
       let called := Datatypes.S called in
       if Nat.leb called failCount
       then (("", Some "transient failure"), called)
       else (("ok", None), called) |}.

End llm.

(** [strings.ToLower], which follows the Unicode case tables, is kept
    abstract as well. *)
Class Unicode := {
  ToLower : string -> string
}.

(** ** Package [config] *)

Module config.

Record LLMConfig := {
  LLM_Provider : string;
  APIKey : string;
  LLM_Model : string;
  Timeout : Z;
  MaxRetries : Z;
  FailoverEnabled : bool;
  FallbackProviders : list string
}.

Record Mapping := {
  CodePattern : string;
  DocFile : string;
  Section : string
}.

Record GitConfig := {
  CommitDocUpdates : bool;
  AmendOriginal : bool;
  DocCommitMessage : string
}.

Record RuntimeOptions := {
  DefaultSection : string
}.

Record Config := {
  LLM : LLMConfig;
  DocFiles : list string;
  Mappings : list Mapping;
  Git : GitConfig;
  DBPath : string;
  Runtime : RuntimeOptions
}.

(** [Default()]. *)
Definition Default : Config :=
  {| LLM := {| LLM_Provider := "mock"; APIKey := "";
               LLM_Model := "gpt-4o-mini"; Timeout := 60; MaxRetries := 3;
               FailoverEnabled := true; FallbackProviders := [] |};
     DocFiles := ["README.md"; "docs/**/*.md"];
     Mappings := [];
     Git := {| CommitDocUpdates := true; AmendOriginal := false;
               DocCommitMessage := "docs: auto-update for {hash}" |};
     DBPath := ".git-doc/state.db";
     Runtime := {| DefaultSection := "Recent Changes" |} |}.

(** [supported[provider]] in [Validate]. *)
Definition supported (provider : string) : bool :=
  String.eqb provider "mock" || String.eqb provider "openai"
  || String.eqb provider "anthropic" || String.eqb provider "google"
  || String.eqb provider "gemini" || String.eqb provider "groq"
  || String.eqb provider "ollama".

Definition needsKey (provider : string) : bool :=
  String.eqb provider "openai" || String.eqb provider "anthropic"
  || String.eqb provider "google" || String.eqb provider "gemini"
  || String.eqb provider "groq".

Section Validate.
Context `{Unicode}.

Fixpoint checkFallbacks (fallbacks : list string) : error :=
  match fallbacks with
  | [] => None
  | fallback :: rest =>
      let fallbackProvider := ToLower (Go.TrimSpace fallback) in
      if String.eqb fallbackProvider "" then checkFallbacks rest
      else if negb (supported fallbackProvider)
           then Some ("unsupported llm.fallback_provider: " ++ fallback)
           else checkFallbacks rest
  end.

(** [(c *Config) Validate()]: the error, and the configuration as the call
    leaves it. *)
Definition Validate (c : Config) : Config * error :=
  if String.eqb (Go.TrimSpace (LLM_Provider (LLM c))) "" then
    (c, Some "llm.provider is required")
  else
    let provider := ToLower (Go.TrimSpace (LLM_Provider (LLM c))) in
    if negb (supported provider) then
      (c, Some ("unsupported llm.provider: " ++ LLM_Provider (LLM c)))
    else
      match checkFallbacks (FallbackProviders (LLM c)) with
      | Some e => (c, Some e)
      | None =>
          if needsKey provider
             && String.eqb (Go.TrimSpace (APIKey (LLM c))) "" then
            (c, Some ("llm.api_key is required for " ++ provider
                      ++ " provider"))
          else if String.eqb (Go.TrimSpace (DBPath c)) "" then
            (c, Some "state.db_path is required")
          else
            ({| LLM :=
                  {| LLM_Provider := LLM_Provider (LLM c);
                     APIKey := APIKey (LLM c);
                     LLM_Model := LLM_Model (LLM c);
                     Timeout := if Timeout (LLM c) <=? 0 then 60
                                else Timeout (LLM c);
                     MaxRetries := if MaxRetries (LLM c) <=? 0 then 3
                                   else MaxRetries (LLM c);
                     FailoverEnabled := FailoverEnabled (LLM c);
                     FallbackProviders := FallbackProviders (LLM c) |};
                DocFiles := DocFiles c;
                Mappings := Mappings c;
                Git := Git c;
                DBPath := DBPath c;
                Runtime :=
                  {| DefaultSection :=
                       if String.eqb
                            (Go.TrimSpace (DefaultSection (Runtime c))) ""
                       then "Recent Changes"
                       else DefaultSection (Runtime c) |} |},
             None)
      end.

End Validate.

End config.

(** ** Package [gitutil]: the commit source *)

Module gitutil.

Record CommitInfo := {
  Hash : string;
  Author : string;
  Email : string;
  Timestamp : Z;
  Subject : string
}.

(** [type Helper interface]; [G] is the state of the object behind it (the
    repository for [CLIHelper], the recorded calls for a test double). *)
Record Helper (G : Type) := {
  GetRepoRoot : G -> (string * error) * G;
  GetCurrentHEAD : G -> (string * error) * G;
  GetLastProcessedRange : string -> string -> G -> (list CommitInfo * error) * G;
  GetCommitDiff : string -> G -> (string * error) * G;
  GetCommitMessage : string -> G -> (string * error) * G;
  GetChangedFiles : string -> G -> (list string * error) * G;
  StageAndCommit : list string -> string -> G -> (string * error) * G;
  StageAndAmend : list string -> G -> (string * error) * G;
  RevertCommit : string -> G -> error * G
}.
Arguments GetRepoRoot {G}.
Arguments GetCurrentHEAD {G}.
Arguments GetLastProcessedRange {G}.
Arguments GetCommitDiff {G}.
Arguments GetCommitMessage {G}.
Arguments GetChangedFiles {G}.
Arguments StageAndCommit {G}.
Arguments StageAndAmend {G}.
Arguments RevertCommit {G}.

End gitutil.

(** ** Package [doc]: line endings and the section updater interface *)

Module doc.

Definition LF : string := String (Go.byte 10) EmptyString.
Definition CR : string := String (Go.byte 13) EmptyString.
Definition CRLF : string := String (Go.byte 13) LF.

Definition DetectLineEnding (content : string) : string :=
  if Go.Contains content CRLF then CRLF else LF.

Definition NormalizeLineEndings (content lineEnding : string) : string :=
  let normalized := Go.ReplaceAll content CRLF LF in
  let normalized := Go.ReplaceAll normalized CR LF in
  if String.eqb lineEnding CRLF
  then Go.ReplaceAll normalized LF CRLF
  else normalized.

(** [type Updater interface]: both methods are pure. *)
Record Updater := {
  ExtractSection : string -> string -> string * error;
  ReplaceSection : string -> string -> string -> string * error
}.

End doc.

(** ** The world the engine runs in

    [db] is the SQLite database, [disk] the files of the working tree
    (path and content), [git] and [llm] the states of the injected
    collaborators.  [script] lists what the successive system calls meet
    (their failure, if any, and the time that passes), and [now] is the
    clock in nanoseconds. *)

Record Step := { fault : error; elapsed : Z }.

Record World (G L : Type) := {
  db : state.DB;
  disk : list (string * string);
  script : list Step;
  now : Z;
  git : G;
  llm : L
}.
Arguments db {G L}.
Arguments disk {G L}.
Arguments script {G L}.
Arguments now {G L}.
Arguments git {G L}.
Arguments llm {G L}.

(** [os.ReadFile]: the content, [os.ErrNotExist], or another failure. *)
Inductive ReadResult :=
| FileContent (raw : string)
| ErrNotExist
| ReadFailed (e : string).

(** Every call the engine makes to a collaborator, with its arguments and
    what came back. *)
Inductive Event :=
| EMarkCommitProcessed (commitHash status errText docCommit : string)
    (filesChanged : option (list string)) (err : error)
| EUpsertPlannedUpdate (commitHash docFile sectionID strategy status
                        reason : string) (err : error)
| EStoreMapping (commitHash docFile section : string) (err : error)
| EGetCachedLLMResponse (commitHash docFile sectionID provider model
                         prompt : string)
    (response : string) (hit : bool) (err : error)
| EPutCachedLLMResponse (entry : state.LLMCacheEntry) (err : error)
| ELogRunEvent (runID commitHash level component message : string)
    (metadata : option (list (string * string))) (err : error)
| EGetResumableCommits (commits : list string) (err : error)
| EGetLastProcessedCommit (commit : string) (err : error)
| EGetRepoRoot (root : string) (err : error)
| EGetCurrentHEAD (head : string) (err : error)
| EGetLastProcessedRange (fromHash toHash : string)
    (commits : list gitutil.CommitInfo) (err : error)
| EGetCommitDiff (commit : string) (diff : string) (err : error)
| EGetCommitMessage (commit : string) (message : string) (err : error)
| EGetChangedFiles (commit : string) (files : list string) (err : error)
| EStageAndCommit (files : list string) (message : string)
    (docCommit : string) (err : error)
| EStageAndAmend (files : list string) (docCommit : string) (err : error)
| EReadFile (path : string) (result : ReadResult)
| EAtomicWriteFile (path content : string) (err : error)
| EGenerate (prompt : string) (result : string) (err : error)
| EReplaceSection (content section newContent : string)
    (updated : string) (err : error).

(** A computation: from a world to a result, the world after it and the
    calls it made, oldest first. *)
Definition M (G L A : Type) : Type := World G L -> A * World G L * list Event.

Definition ret {G L A} (a : A) : M G L A := fun w => (a, w, []).

Definition bind {G L A B} (m : M G L A) (k : A -> M G L B) : M G L B :=
  fun w =>
    let '(a, w1, t1) := m w in
    let '(b, w2, t2) := k a w1 in
    (b, w2, (t1 ++ t2)%list).

Declare Scope go_scope.
Delimit Scope go_scope with go.
Notation "x <- m ;; k" := (bind m (fun x => k))
  (at level 61, m at next level, right associativity) : go_scope.
Notation "' p <- m ;; k" := (bind m (fun p => k))
  (at level 61, p pattern, m at next level, right associativity) : go_scope.
Notation "m ;;; k" := (bind m (fun _ => k))
  (at level 61, right associativity) : go_scope.

(** A call of a collaborator: run it and record it. *)
Definition call {G L A} (op : World G L -> A * World G L) (ev : A -> Event)
  : M G L A :=
  fun w => let '(a, w1) := op w in (a, w1, [ev a]).

Section Sys.
Context {G L : Type}.

Definition with_db (d : state.DB) (w : World G L) : World G L :=
  {| db := d; disk := disk w; script := script w; now := now w;
     git := git w; llm := llm w |}.

Definition with_disk (f : list (string * string)) (w : World G L)
  : World G L :=
  {| db := db w; disk := f; script := script w; now := now w;
     git := git w; llm := llm w |}.

Definition with_git (g : G) (w : World G L) : World G L :=
  {| db := db w; disk := disk w; script := script w; now := now w;
     git := g; llm := llm w |}.

Definition with_llm (l : L) (w : World G L) : World G L :=
  {| db := db w; disk := disk w; script := script w; now := now w;
     git := git w; llm := l |}.

(** One system call: the next entry of the script says whether it fails and
    how far the clock moves; an exhausted script means no more failures. *)
Definition syscall (w : World G L) : error * World G L :=
  match script w with
  | [] => (None, w)
  | st :: rest =>
      (fault st,
       {| db := db w; disk := disk w; script := rest;
          now := now w + elapsed st; git := git w; llm := llm w |})
  end.

(** An operation of the store: one SQL statement, with [CURRENT_TIMESTAMP]
    in seconds. *)
Definition sql {A} (op : state.DB -> error -> Z -> A * state.DB)
    (w : World G L) : A * World G L :=
  let '(f, w1) := syscall w in
  let '(a, d) := op (db w1) f (now w1 / 1000000000) in
  (a, with_db d w1).

Definition query {A} (op : state.DB -> error -> A) (w : World G L)
  : A * World G L :=
  let '(f, w1) := syscall w in (op (db w1) f, w1).

Fixpoint lookup (path : string) (files : list (string * string))
  : option string :=
  match files with
  | [] => None
  | (p, content) :: rest =>
      if String.eqb p path then Some content else lookup path rest
  end.

Fixpoint store (path content : string) (files : list (string * string))
  : list (string * string) :=
  match files with
  | [] => [(path, content)]
  | (p, c) :: rest =>
      if String.eqb p path then (p, content) :: rest
      else (p, c) :: store path content rest
  end.

Definition os_ReadFile (path : string) (w : World G L)
  : ReadResult * World G L :=
  let '(f, w1) := syscall w in
  match f with
  | Some e => (ReadFailed e, w1)
  | None =>
      match lookup path (disk w1) with
      | Some raw => (FileContent raw, w1)
      | None => (ErrNotExist, w1)
      end
  end.

(** A step of [AtomicWriteFile] on the temporary file failed with [e]: the
    file is closed and removed, and the first failure of the two is
    reported. *)
Definition abandon (what e : string) (w : World G L) : error * World G L :=
  let '(closeErr, w1) := syscall w in
  let '(_, w2) := syscall w1 in
  match closeErr with
  | Some ce =>
      (Some ("close temp file after " ++ what ++ " failure: " ++ ce), w2)
  | None => (Some (what ++ " temp file: " ++ e), w2)
  end.

(** [doc.AtomicWriteFile]: create a temporary file next to [path], write,
    chmod, sync, close, rename.  The temporary file and the permission bits
    are not part of [disk]; the target changes only when the rename
    succeeds. *)
Definition doc_AtomicWriteFile (path content : string) (w : World G L)
  : error * World G L :=
  let '(createErr, w1) := syscall w in
  match createErr with
  | Some e => (Some ("create temp file: " ++ e), w1)
  | None =>
  let '(writeErr, w2) := syscall w1 in
  match writeErr with
  | Some e => abandon "write" e w2
  | None =>
  let '(chmodErr, w3) := syscall w2 in
  match chmodErr with
  | Some e => abandon "chmod" e w3
  | None =>
  let '(syncErr, w4) := syscall w3 in
  match syncErr with
  | Some e => abandon "sync" e w4
  | None =>
  let '(closeErr, w5) := syscall w4 in
  match closeErr with
  | Some e =>
      let '(_, w6) := syscall w5 in (Some ("close temp file: " ++ e), w6)
  | None =>
  let '(renameErr, w6) := syscall w5 in
  match renameErr with
  | Some e =>
      let '(_, w7) := syscall w6 in (Some ("atomic rename: " ++ e), w7)
  | None => (None, with_disk (store path content (disk w6)) w6)
  end end end end end end.

Definition on_git {A} (op : G -> A * G) (w : World G L) : A * World G L :=
  let '(a, g) := op (git w) in (a, with_git g w).

Definition on_llm {A} (op : L -> A * L) (w : World G L) : A * World G L :=
  let '(a, l) := op (llm w) in (a, with_llm l w).

End Sys.

(** ** Package [orchestrator] *)

Module orchestrator.

Record Dependencies (G L : Type) := {
  Config : config.Config;
  Git : gitutil.Helper G;
  DocUpdater : doc.Updater;
  LLM : llm.Client L
}.
Arguments Config {G L}.
Arguments Git {G L}.
Arguments DocUpdater {G L}.
Arguments LLM {G L}.

Record Updater (G L : Type) := { deps : Dependencies G L }.
Arguments deps {G L}.

Definition NewUpdater {G L} (d : Dependencies G L) : Updater G L :=
  {| deps := d |}.

Record Summary := {
  Processed : Z;
  Success : Z;
  Failed : Z;
  Skipped : Z
}.

(** [fmt.Errorf("generated section content ...")] or [nil]. *)
Definition validateGeneratedSection (content : string) : error :=
  let trimmed := Go.TrimSpace content in
  if String.eqb trimmed "" then Some "generated section content is empty"
  else if Go.strlen trimmed >? 25000
       then Some "generated section content exceeds max size"
       else None.

Definition hashPrompt `{Platform} (prompt : string) : string :=
  sha256_hex prompt.

(** [diffanalyzer.TruncateText]. *)
Definition TruncateText (content : string) (maxLen : Z) : string :=
  if (maxLen <=? 0) || (Go.strlen content <=? maxLen) then content
  else Go.takeBytes (Z.to_nat maxLen) content.

Definition buildPrompt `{Platform} (commitMessage diff : string) : string :=
  let '(parsed, err) := ParseUnifiedDiff diff in
  let diffContext :=
    match err with
    | None =>
        if numFiles parsed >? 0
        then TruncateText (BuildSummary parsed) 3000
        else TruncateText diff 3000
    | Some _ => TruncateText diff 3000
    end in
  "Update docs for this commit." ++ doc.LF ++ "Commit message: "
  ++ commitMessage ++ doc.LF ++ "Diff:" ++ doc.LF ++ diffContext ++ doc.LF
  ++ "Output updated section content only.".

Definition seen_ (seen : list string) (item : string) : bool :=
  existsb (String.eqb item) seen.

Fixpoint appendUnique (items : list string) (seen out : list string)
  : list string * list string :=
  match items with
  | [] => (seen, out)
  | item :: rest =>
      if String.eqb item "" then appendUnique rest seen out
      else if seen_ seen item then appendUnique rest seen out
      else appendUnique rest (item :: seen) (out ++ [item])
  end.

Definition mergeUnique (first second : list string) : list string :=
  let '(seen, out) := appendUnique first [] [] in
  snd (appendUnique second seen out).

Section Engine.
Context `{Platform} {G L : Type} (u : Updater G L).

Local Open Scope go_scope.

(** *** The collaborators, as calls *)

Definition MarkCommitProcessed (commitHash status errText docCommit : string)
    (filesChanged : option (list string)) : M G L error :=
  call (sql (fun d f t => state.MarkCommitProcessed d f t commitHash status
                            errText docCommit filesChanged))
       (EMarkCommitProcessed commitHash status errText docCommit filesChanged).

Definition UpsertPlannedUpdate (commitHash docFile sectionID strategy status
                                reason : string) : M G L error :=
  call (sql (fun d f t => state.UpsertPlannedUpdate d f t commitHash docFile
                            sectionID strategy status reason))
       (EUpsertPlannedUpdate commitHash docFile sectionID strategy status
                             reason).

Definition StoreMapping (commitHash docFile section : string) : M G L error :=
  call (sql (fun d f _ => state.StoreMapping d f commitHash docFile section))
       (EStoreMapping commitHash docFile section).

Definition GetCachedLLMResponse (commitHash docFile sectionID provider model
                                 prompt : string)
  : M G L (string * bool * error) :=
  call (query (fun d f => state.GetCachedLLMResponse d f commitHash docFile
                            sectionID provider model prompt))
       (fun '(response, hit, err) =>
          EGetCachedLLMResponse commitHash docFile sectionID provider model
                                prompt response hit err).

Definition PutCachedLLMResponse (entry : state.LLMCacheEntry) : M G L error :=
  call (sql (fun d f _ => state.PutCachedLLMResponse d f entry))
       (EPutCachedLLMResponse entry).

Definition LogRunEvent (runID commitHash level component message : string)
    (metadata : option (list (string * string))) : M G L error :=
  call (sql (fun d f _ => state.LogRunEvent d f runID commitHash level
                            component message metadata))
       (ELogRunEvent runID commitHash level component message metadata).

Definition GetResumableCommits : M G L (list string * error) :=
  call (query state.GetResumableCommits)
       (fun '(commits, err) => EGetResumableCommits commits err).

Definition GetLastProcessedCommit : M G L (string * error) :=
  call (query state.GetLastProcessedCommit)
       (fun '(commit, err) => EGetLastProcessedCommit commit err).

Definition GetRepoRoot : M G L (string * error) :=
  call (on_git (gitutil.GetRepoRoot (Git (deps u))))
       (fun '(root, err) => EGetRepoRoot root err).

Definition GetCurrentHEAD : M G L (string * error) :=
  call (on_git (gitutil.GetCurrentHEAD (Git (deps u))))
       (fun '(head, err) => EGetCurrentHEAD head err).

Definition GetLastProcessedRange (fromHash toHash : string)
  : M G L (list gitutil.CommitInfo * error) :=
  call (on_git (gitutil.GetLastProcessedRange (Git (deps u)) fromHash toHash))
       (fun '(commits, err) => EGetLastProcessedRange fromHash toHash commits err).

Definition GetCommitDiff (commit : string) : M G L (string * error) :=
  call (on_git (gitutil.GetCommitDiff (Git (deps u)) commit))
       (fun '(diff, err) => EGetCommitDiff commit diff err).

Definition GetCommitMessage (commit : string) : M G L (string * error) :=
  call (on_git (gitutil.GetCommitMessage (Git (deps u)) commit))
       (fun '(message, err) => EGetCommitMessage commit message err).

Definition GetChangedFiles (commit : string) : M G L (list string * error) :=
  call (on_git (gitutil.GetChangedFiles (Git (deps u)) commit))
       (fun '(files, err) => EGetChangedFiles commit files err).

Definition StageAndCommit (files : list string) (message : string)
  : M G L (string * error) :=
  call (on_git (gitutil.StageAndCommit (Git (deps u)) files message))
       (fun '(docCommit, err) => EStageAndCommit files message docCommit err).

Definition StageAndAmend (files : list string) : M G L (string * error) :=
  call (on_git (gitutil.StageAndAmend (Git (deps u)) files))
       (fun '(docCommit, err) => EStageAndAmend files docCommit err).

Definition ReadFile (path : string) : M G L ReadResult :=
  call (os_ReadFile path) (EReadFile path).

Definition AtomicWriteFile (path content : string) : M G L error :=
  call (doc_AtomicWriteFile path content) (EAtomicWriteFile path content).

Definition Generate (ctx : llm.Context) (prompt : string)
  : M G L (string * error) :=
  call (on_llm (llm.Generate (LLM (deps u)) ctx prompt))
       (fun '(result, err) => EGenerate prompt result err).

Definition ReplaceSection (content section newContent : string)
  : M G L (string * error) :=
  call (fun w => (doc.ReplaceSection (DocUpdater (deps u)) content section
                                     newContent, w))
       (fun '(updated, err) =>
          EReplaceSection content section newContent updated err).

(** [u.deps.LLM.Name()] *)
Definition providerName_ (w : World G L) : string :=
  llm.Name (LLM (deps u)) (llm w).

(** *** [resolveTarget] *)

Definition matches (changed : string) (mapping : config.Mapping) : bool :=
  Go.Contains changed (Go.TrimByte (config.CodePattern mapping) "*"%char).

Fixpoint resolveMapping (changedFiles : list string)
  : option config.Mapping :=
  match changedFiles with
  | [] => None
  | changed :: rest =>
      match find (matches changed) (config.Mappings (Config (deps u))) with
      | Some mapping => Some mapping
      | None => resolveMapping rest
      end
  end.

Definition resolveTarget (changedFiles : list string) : string * string :=
  match resolveMapping changedFiles with
  | Some mapping => (config.DocFile mapping, config.Section mapping)
  | None =>
      match config.DocFiles (Config (deps u)) with
      | first :: _ =>
          (first, config.DefaultSection (config.Runtime (Config (deps u))))
      | [] =>
          ("README.md",
           config.DefaultSection (config.Runtime (Config (deps u))))
      end
  end.

(** *** [processSingleCommit] *)

Definition processSingleCommit (ctx : llm.Context) (runID hash : string)
    (dryRun : bool) : M G L (string * error) :=
  err <- MarkCommitProcessed hash "in_progress" "" "" None ;;
  match err with Some e => ret ("failed", Some e) | None =>
  '(changedFiles, err) <- GetChangedFiles hash ;;
  match err with Some e => ret ("failed", Some e) | None =>
  match changedFiles with
  | [] =>
      err <- MarkCommitProcessed hash "skipped" "" "" None ;;
      match err with
      | Some e => ret ("failed", Some e)
      | None => ret ("skipped", None)
      end
  | _ :: _ =>
  '(commitMessage, err) <- GetCommitMessage hash ;;
  match err with Some e => ret ("failed", Some e) | None =>
  '(diffContent, err) <- GetCommitDiff hash ;;
  match err with Some e => ret ("failed", Some e) | None =>
  let '(targetDocFile, targetSection) := resolveTarget changedFiles in
  '(repoRoot, err) <- GetRepoRoot ;;
  match err with Some e => ret ("failed", Some e) | None =>
  let docPath := filepath_Join repoRoot targetDocFile in
  read <- ReadFile docPath ;;
  match read with
  | ErrNotExist =>
      ret ("failed", Some ("target doc file not found: " ++ targetDocFile))
  | ReadFailed e => ret ("failed", Some e)
  | FileContent docRaw =>
  err <- UpsertPlannedUpdate hash targetDocFile targetSection "inferred"
                             "planned" "" ;;
  match err with
  | Some e =>
      LogRunEvent runID hash "warn" "state" "failed to persist planned update"
                  (Some [("error", e)]) ;;; ret tt
  | None => ret tt
  end ;;;
  let prompt := buildPrompt commitMessage diffContent in
  providerName <- (fun w => (providerName_ w, w, [])) ;;
  let modelName := config.LLM_Model (config.LLM (Config (deps u))) in
  let promptHash := hashPrompt prompt in
  '(newSection, cached, cacheErr) <-
    GetCachedLLMResponse hash targetDocFile targetSection providerName
                         modelName prompt ;;
  match cacheErr with
  | Some e =>
      LogRunEvent runID hash "warn" "state" "failed to read llm cache"
                  (Some [("error", e)]) ;;; ret tt
  | None => ret tt
  end ;;;
  generated <-
    (if negb cached then
       '(newSection, err) <- Generate ctx prompt ;;
       match err with
       | Some e =>
           UpsertPlannedUpdate hash targetDocFile targetSection "inferred"
                               "failed" e ;;;
           ret (newSection, Some e)
       | None =>
           PutCachedLLMResponse
             {| state.CommitHash := hash; state.DocFile := targetDocFile;
                state.SectionID := targetSection;
                state.Provider := providerName; state.Model := modelName;
                state.PromptHash := promptHash;
                state.Response := newSection |} ;;;
           ret (newSection, None)
       end
     else
       LogRunEvent runID hash "info" "llm" "cache hit"
                   (Some [("doc_file", targetDocFile);
                          ("section", targetSection)]) ;;;
       ret (newSection, None)) ;;
  match generated with
  | (_, Some e) => ret ("failed", Some e)
  | (newSection, None) =>
  match validateGeneratedSection newSection with
  | Some e =>
      UpsertPlannedUpdate hash targetDocFile targetSection "inferred"
                          "failed" e ;;;
      ret ("failed", Some e)
  | None =>
  '(updated, err) <- ReplaceSection docRaw targetSection newSection ;;
  match err with
  | Some e =>
      UpsertPlannedUpdate hash targetDocFile targetSection "inferred"
                          "failed" e ;;;
      ret ("failed", Some e)
  | None =>
  let lineEnding := doc.DetectLineEnding docRaw in
  let updated := doc.NormalizeLineEndings updated lineEnding in
  if String.eqb (Go.TrimSpace updated) (Go.TrimSpace docRaw) then
    UpsertPlannedUpdate hash targetDocFile targetSection "inferred"
                        "unchanged" "no document delta" ;;;
    err <- MarkCommitProcessed hash "skipped" "" "" (Some []) ;;
    match err with
    | Some e => ret ("failed", Some e)
    | None => ret ("skipped", None)
    end
  else if dryRun then
    UpsertPlannedUpdate hash targetDocFile targetSection "inferred"
                        "applied" "dry-run" ;;;
    err <- MarkCommitProcessed hash "success" "" "" (Some [targetDocFile]) ;;
    match err with
    | Some e => ret ("failed", Some e)
    | None => ret ("success", None)
    end
  else
    err <- AtomicWriteFile docPath updated ;;
    match err with
    | Some e =>
        UpsertPlannedUpdate hash targetDocFile targetSection "inferred"
                            "failed" e ;;;
        ret ("failed", Some e)
    | None =>
    '(docCommitHash, err) <-
      (if config.CommitDocUpdates (config.Git (Config (deps u))) then
         if config.AmendOriginal (config.Git (Config (deps u))) then
           StageAndAmend [targetDocFile]
         else
           let msg :=
             Go.ReplaceAll
               (config.DocCommitMessage (config.Git (Config (deps u))))
               "{hash}" hash in
           StageAndCommit [targetDocFile] msg
       else ret ("", None)) ;;
    match err with Some e => ret ("failed", Some e) | None =>
    err <- MarkCommitProcessed hash "success" "" docCommitHash
                               (Some [targetDocFile]) ;;
    match err with Some e => ret ("failed", Some e) | None =>
    err <- StoreMapping hash targetDocFile targetSection ;;
    match err with Some e => ret ("failed", Some e) | None =>
    UpsertPlannedUpdate hash targetDocFile targetSection "inferred"
                        "applied" "" ;;;
    ret ("success", None)
    end end end end
  end end end end end end end end end end.

(** *** [UpdateCommitList] *)

(** The body of [for _, hash := range commitHashes]. *)
Definition processOne (ctx : llm.Context) (runID : string) (dryRun : bool)
    (summary : Summary) (hash : string) : M G L Summary :=
  let summary :=
    {| Processed := Go.incr (Processed summary); Success := Success summary;
       Failed := Failed summary; Skipped := Skipped summary |} in
  err <- MarkCommitProcessed hash "pending" "" "" None ;;
  match err with
  | Some e =>
      LogRunEvent runID hash "error" "state" "failed to mark pending"
                  (Some [("error", e)]) ;;;
      ret {| Processed := Processed summary; Success := Success summary;
             Failed := Go.incr (Failed summary);
             Skipped := Skipped summary |}
  | None =>
      '(status, err) <- processSingleCommit ctx runID hash dryRun ;;
      match err with
      | Some e =>
          MarkCommitProcessed hash "failed" e "" None ;;;
          LogRunEvent runID hash "error" "orchestrator"
                      "commit processing failed" (Some [("error", e)]) ;;;
          ret {| Processed := Processed summary; Success := Success summary;
                 Failed := Go.incr (Failed summary);
                 Skipped := Skipped summary |}
      | None =>
          if String.eqb status "success" then
            ret {| Processed := Processed summary;
                   Success := Go.incr (Success summary);
                   Failed := Failed summary; Skipped := Skipped summary |}
          else if String.eqb status "skipped" then
            ret {| Processed := Processed summary;
                   Success := Success summary; Failed := Failed summary;
                   Skipped := Go.incr (Skipped summary) |}
          else
            ret {| Processed := Processed summary;
                   Success := Success summary;
                   Failed := Go.incr (Failed summary);
                   Skipped := Skipped summary |}
      end
  end.

Fixpoint forEachCommit (ctx : llm.Context) (runID : string) (dryRun : bool)
    (commitHashes : list string) (summary : Summary) : M G L Summary :=
  match commitHashes with
  | [] => ret summary
  | hash :: rest =>
      summary <- processOne ctx runID dryRun summary hash ;;
      forEachCommit ctx runID dryRun rest summary
  end.

Definition UpdateCommitList (ctx : llm.Context) (commitHashes : list string)
    (dryRun : bool) : M G L (Summary * error) :=
  let summary := {| Processed := 0; Success := 0; Failed := 0;
                    Skipped := 0 |} in
  runID <- (fun w => ("run-" ++ Go.itoa (now w), w, [])) ;;
  LogRunEvent runID "" "info" "orchestrator" "update loop started"
              (Some [("commits", Go.itoa (Go.len commitHashes))]) ;;;
  summary <- forEachCommit ctx runID dryRun commitHashes summary ;;
  LogRunEvent runID "" "info" "orchestrator" "update loop finished"
              (Some [("processed", Go.itoa (Processed summary));
                     ("success", Go.itoa (Success summary));
                     ("failed", Go.itoa (Failed summary));
                     ("skipped", Go.itoa (Skipped summary))]) ;;;
  ret (summary, None).

Definition noSummary : Summary :=
  {| Processed := 0; Success := 0; Failed := 0; Skipped := 0 |}.

Definition UpdateNewCommits (ctx : llm.Context) (dryRun : bool)
  : M G L (Summary * error) :=
  '(resumableCommits, err) <- GetResumableCommits ;;
  match err with Some e => ret (noSummary, Some e) | None =>
  '(last, err) <- GetLastProcessedCommit ;;
  match err with Some e => ret (noSummary, Some e) | None =>
  '(head, err) <- GetCurrentHEAD ;;
  match err with Some e => ret (noSummary, Some e) | None =>
  '(commits, err) <- GetLastProcessedRange last head ;;
  match err with Some e => ret (noSummary, Some e) | None =>
  let commitHashes := map gitutil.Hash commits in
  let commitHashes := mergeUnique resumableCommits commitHashes in
  UpdateCommitList ctx commitHashes dryRun
  end end end end.

Definition UpdateRangeCommits (ctx : llm.Context) (fromHash toHash : string)
    (dryRun : bool) : M G L (Summary * error) :=
  let toCommit := Go.TrimSpace toHash in
  '(toCommit, err) <-
    (if String.eqb toCommit "" then GetCurrentHEAD else ret (toCommit, None)) ;;
  match err with Some e => ret (noSummary, Some e) | None =>
  '(commits, err) <- GetLastProcessedRange (Go.TrimSpace fromHash) toCommit ;;
  match err with Some e => ret (noSummary, Some e) | None =>
  let commitHashes := map gitutil.Hash commits in
  UpdateCommitList ctx commitHashes dryRun
  end end.

End Engine.

End orchestrator.

(** ** Observations on traces *)

(** The calls that change the working tree or the history. *)
Definition is_write (e : Event) : bool :=
  match e with
  | EAtomicWriteFile _ _ _ => true
  | EStageAndCommit _ _ _ _ => true
  | EStageAndAmend _ _ _ => true
  | _ => false
  end.

Definition is_generate (e : Event) : bool :=
  match e with
  | EGenerate _ _ _ => true
  | _ => false
  end.

Definition no_write (tr : list Event) : Prop :=
  forallb (fun e => negb (is_write e)) tr = true.

Definition no_generate (tr : list Event) : Prop :=
  forallb (fun e => negb (is_generate e)) tr = true.

(** The row of a commit in [processed_commits]. *)
Definition commit_row (d : state.DB) (commitHash : string)
  : option state.ProcessedCommit :=
  find (fun r => String.eqb (state.commit_hash r) commitHash)
       (state.processed_commits d).

(** The row of a target in [planned_updates]. *)
Definition plan_row (d : state.DB) (commitHash docFile sectionID : string)
  : option state.PlannedUpdate :=
  find (state.same_plan commitHash docFile sectionID) (state.planned_updates d).

(** A [Summary] as the specification wants it. *)
Definition summary_ok (s : orchestrator.Summary) : Prop :=
  0 <= orchestrator.Processed s /\ 0 <= orchestrator.Success s
  /\ 0 <= orchestrator.Failed s /\ 0 <= orchestrator.Skipped s
  /\ orchestrator.Processed s
     = orchestrator.Success s + orchestrator.Failed s + orchestrator.Skipped s.

(** ** The specification's reading of two rules, for comparison *)

Module spec.

(** "the pattern stripped of wildcard markers": every [*] removed. *)
Fixpoint stripWildcards (pattern : string) : string :=
  match pattern with
  | EmptyString => EmptyString
  | String c rest =>
      if Ascii.eqb c "*"%char then stripWildcards rest
      else String c (stripWildcards rest)
  end.

Definition matches (changed : string) (mapping : config.Mapping) : bool :=
  Go.Contains changed (stripWildcards (config.CodePattern mapping)).

Fixpoint resolveMapping (mappings : list config.Mapping)
    (changedFiles : list string) : option config.Mapping :=
  match changedFiles with
  | [] => None
  | changed :: rest =>
      match find (matches changed) mappings with
      | Some mapping => Some mapping
      | None => resolveMapping mappings rest
      end
  end.

Definition resolveTarget (c : config.Config) (changedFiles : list string)
  : string * string :=
  match resolveMapping (config.Mappings c) changedFiles with
  | Some mapping => (config.DocFile mapping, config.Section mapping)
  | None =>
      match config.DocFiles c with
      | first :: _ => (first, config.DefaultSection (config.Runtime c))
      | [] => ("README.md", config.DefaultSection (config.Runtime c))
      end
  end.

(** "reject if empty/whitespace-only, or if longer than 25000 characters". *)
Definition rejects (content : string) : bool :=
  String.eqb (Go.TrimSpace content) "" || (Go.strlen content >? 25000).

End spec.

(** ** Test doubles, after the repository's tests *)

Module fixtures.

(** Stand-ins for the library functions: a path join with a slash, a
    fingerprint that keeps the prompt, a diff parser that finds no files. *)
Definition platform : Platform :=
  {| sha256_hex := fun s => "sha256:" ++ s;
     filepath_Join := fun root rel => root ++ "/" ++ rel;
     Diff := unit;
     ParseUnifiedDiff := fun _ => (tt, None);
     numFiles := fun _ => 0;
     BuildSummary := fun _ => "" |}.

(** [fakeGitHelper] of [testutil_test.go]. *)
Record fakeGit := {
  stageCalled : Z;
  amendCalled : Z;
  rangeFrom : string;
  rangeTo : string;
  seenDiffFor : list string
}.

Definition freshGit : fakeGit :=
  {| stageCalled := 0; amendCalled := 0; rangeFrom := ""; rangeTo := "";
     seenDiffFor := [] |}.

Fixpoint assoc {A} (default : A) (key : string) (m : list (string * A)) : A :=
  match m with
  | [] => default
  | (k, v) :: rest => if String.eqb k key then v else assoc default key rest
  end.

Definition fakeGitHelper (repoRoot head : string)
    (commitRange : list gitutil.CommitInfo)
    (changed : list (string * list string))
    (messages diffs : list (string * string)) : gitutil.Helper fakeGit :=
  {| gitutil.GetRepoRoot := fun g => ((repoRoot, None), g);
     gitutil.GetCurrentHEAD := fun g => ((head, None), g);
     gitutil.GetLastProcessedRange := fun fromHash toHash g =>
       ((commitRange, None),
        {| stageCalled := stageCalled g; amendCalled := amendCalled g;
           rangeFrom := fromHash; rangeTo := toHash;
           seenDiffFor := seenDiffFor g |});
     gitutil.GetCommitDiff := fun commit g =>
       ((assoc "" commit diffs, None),
        {| stageCalled := stageCalled g; amendCalled := amendCalled g;
           rangeFrom := rangeFrom g; rangeTo := rangeTo g;
           seenDiffFor := seenDiffFor g ++ [commit] |});
     gitutil.GetCommitMessage := fun commit g =>
       ((assoc "" commit messages, None), g);
     gitutil.GetChangedFiles := fun commit g =>
       ((assoc [] commit changed, None), g);
     gitutil.StageAndCommit := fun _ _ g =>
       (("", None),
        {| stageCalled := Go.incr (stageCalled g);
           amendCalled := amendCalled g; rangeFrom := rangeFrom g;
           rangeTo := rangeTo g; seenDiffFor := seenDiffFor g |});
     gitutil.StageAndAmend := fun _ g =>
       (("amended-hash", None),
        {| stageCalled := stageCalled g;
           amendCalled := Go.incr (amendCalled g); rangeFrom := rangeFrom g;
           rangeTo := rangeTo g; seenDiffFor := seenDiffFor g |});
     gitutil.RevertCommit := fun _ g => (None, g) |}.

(** A section updater that writes the new content under a heading at the end
    of the document, unless the document carries that content already. *)
Definition appendingUpdater : doc.Updater :=
  {| doc.ExtractSection := fun content _ => (content, None);
     doc.ReplaceSection := fun content section newContent =>
       if Go.Contains content (Go.TrimSpace newContent) then (content, None)
       else (content ++ doc.LF ++ "## " ++ section ++ doc.LF ++ doc.LF
             ++ Go.TrimSpace newContent ++ doc.LF, None) |}.

(** A client that answers every prompt with the same text. *)
Definition cannedClient (answer : string) : llm.Client unit :=
  {| llm.Name := fun _ => "canned";
     llm.Generate := fun _ _ s => ((answer, None), s) |}.

Definition readme : string :=
  "# Title" ++ doc.LF ++ doc.LF ++ "## Recent Changes" ++ doc.LF ++ "old"
  ++ doc.LF.

(** The configuration of [newTestUpdaterWithFakeGit]. *)
Definition testConfig : config.Config :=
  {| config.LLM := config.LLM config.Default;
     config.DocFiles := ["README.md"];
     config.Mappings := [];
     config.Git := {| config.CommitDocUpdates := false;
                      config.AmendOriginal := false;
                      config.DocCommitMessage :=
                        "docs: auto-update for {hash}" |};
     config.DBPath := config.DBPath config.Default;
     config.Runtime := config.Runtime config.Default |}.

Definition git1 : gitutil.Helper fakeGit :=
  fakeGitHelper "/repo" "c1" [] [("c1", ["src/a.txt"])]
                [("c1", "feat: add thing")] [("c1", "+new")].

(** An updater over the fake repository with a given client. *)
Definition updaterWith {L} (client : llm.Client L)
  : orchestrator.Updater fakeGit L :=
  orchestrator.NewUpdater
    {| orchestrator.Config := testConfig; orchestrator.Git := git1;
       orchestrator.DocUpdater := appendingUpdater;
       orchestrator.LLM := client |}.

(** A fresh store, the given files, no failing system call. *)
Definition worldWith {L} (files : list (string * string)) (l : L)
  : World fakeGit L :=
  {| db := state.empty; disk := files; script := [];
     now := 1700000000000000000;
     git := freshGit; llm := l |}.

End fixtures.

(** ** Observations on the resilient client *)

Module resilience.

(** The trace of [k] attempts of provider [idx] that start at [attempt]: a
    wait of [backoff attempt] between one attempt and the next, none after
    the last. *)
Fixpoint block (idx : nat) (attempt : Z) (k : nat) : list llm.Ev :=
  match k with
  | O => []
  | S O => [llm.Attempt idx attempt]
  | S k' =>
      llm.Attempt idx attempt :: llm.Wait idx attempt (llm.backoff attempt)
      :: block idx (attempt + 1) k'
  end.

(** The blocks of the providers [idx], [idx + 1], ... with [ks] attempts. *)
Fixpoint blocks (idx : nat) (ks : list nat) : list llm.Ev :=
  match ks with
  | [] => []
  | k :: rest => (block idx 0 k ++ blocks (S idx) rest)%list
  end.

(** How often provider [idx] was invoked. *)
Definition attempts_of (idx : nat) (tr : list llm.Ev) : nat :=
  List.length
    (filter (fun e => match e with
                      | llm.Attempt i _ => Nat.eqb i idx
                      | llm.Wait _ _ _ => false
                      end) tr).

Definition never_cancelled (ctx : llm.Context) : Prop :=
  forall k, ctx k = None.

Definition always_fails {St} (p : llm.Client St) : Prop :=
  forall ctx prompt s, snd (fst (llm.Generate p ctx prompt s)) <> None.



End resilience.

(** ** Observations on runs of the pipeline *)

(** [tr] ends with the calls [suffix]. *)
Definition ends_with (tr suffix : list Event) : Prop :=
  exists pre, tr = (pre ++ suffix)%list.

(** The text that reaches validation in a run: generated without error, or
    found in the cache. *)
Definition reaches_validation (tr : list Event) (text : string) : Prop :=
  (exists prompt, In (EGenerate prompt text None) tr)
  \/ (exists commit docFile section provider model prompt cacheErr,
        In (EGetCachedLLMResponse commit docFile section provider model prompt
                                  text true cacheErr) tr).

(** The store holds the commit with this status and these changed files. *)
Definition commit_marked (d : state.DB) (commitHash status : string)
    (files : list string) : Prop :=
  exists row, commit_row d commitHash = Some row
    /\ state.status row = status /\ state.doc_files_changed row = files.

(** The store holds the planned update with this status and reason. *)
Definition plan_marked (d : state.DB) (commitHash docFile sectionID
                                       status : string)
    (reason : option string) : Prop :=
  exists row, plan_row d commitHash docFile sectionID = Some row
    /\ state.pu_status row = status /\ state.pu_reason row = reason.

(** The counters of a summary after [n] commits. *)
Definition counted (s : orchestrator.Summary) (n : Z) : Prop :=
  orchestrator.Processed s = n /\ summary_ok s.

(** ** More test doubles: the inputs the properties are tried on *)

Module inputs.

Import fixtures.

(** A configuration with one mapping whose pattern has a wildcard inside. *)
Definition mappedConfig : config.Config :=
  {| config.LLM := config.LLM config.Default;
     config.DocFiles := ["README.md"];
     config.Mappings :=
       [{| config.CodePattern := "src/*.go"; config.DocFile := "docs/api.md";
           config.Section := "API" |}];
     config.Git := config.Git config.Default;
     config.DBPath := config.DBPath config.Default;
     config.Runtime := config.Runtime config.Default |}.

Definition mappedUpdater : orchestrator.Updater fakeGit unit :=
  orchestrator.NewUpdater
    {| orchestrator.Config := mappedConfig; orchestrator.Git := git1;
       orchestrator.DocUpdater := appendingUpdater;
       orchestrator.LLM := llm.MockClient |}.

(** A configuration with two mappings that use [*] at an end. *)
Definition globConfig : config.Config :=
  {| config.LLM := config.LLM config.Default;
     config.DocFiles := ["README.md"];
     config.Mappings :=
       [{| config.CodePattern := "internal/*";
           config.DocFile := "docs/internal.md";
           config.Section := "Internals" |};
        {| config.CodePattern := "*.go"; config.DocFile := "docs/api.md";
           config.Section := "API" |}];
     config.Git := config.Git config.Default;
     config.DBPath := config.DBPath config.Default;
     config.Runtime := config.Runtime config.Default |}.

Definition globUpdater : orchestrator.Updater fakeGit unit :=
  orchestrator.NewUpdater
    {| orchestrator.Config := globConfig; orchestrator.Git := git1;
       orchestrator.DocUpdater := appendingUpdater;
       orchestrator.LLM := llm.MockClient |}.

(** The repository of the tests: a README with a "Recent Changes" section. *)
Definition world0 {L} (l : L) : World fakeGit L :=
  worldWith [("/repo/README.md", readme)] l.

(** The same repository without its README. *)
Definition worldNoReadme : World fakeGit unit := worldWith [] tt.

Definition run {L} (client : llm.Client L) (dryRun : bool)
    (w : World fakeGit L) : (string * error) * World fakeGit L * list Event :=
  orchestrator.processSingleCommit (H := platform) (updaterWith client)
    llm.Background "run-1" "c1" dryRun w.

(** The prompt of commit [c1], the mock client's answer to it, and the
    document with that answer written in. *)
Definition prompt1 : string :=
  orchestrator.buildPrompt (H := platform) "feat: add thing" "+new".

Definition mockAnswer : string := fst (llm.MockClient_Generate prompt1).

Definition mockUpdated : string :=
  fst (doc.ReplaceSection appendingUpdater readme "Recent Changes" mockAnswer).

(** The world after a first run in which the client answered with blanks:
    the blank answer is in the cache. *)
Definition worldBlankCached : World fakeGit unit :=
  snd (fst (run (cannedClient "   ") false (world0 tt))).

Definition quote : string := String (Go.byte 34) EmptyString.

(** A well-formed chat completion whose content is blank. *)
Definition blankCompletion : string :=
  "{" ++ quote ++ "choices" ++ quote ++ ":[{" ++ quote ++ "message" ++ quote
  ++ ":{" ++ quote ++ "content" ++ quote ++ ":" ++ quote ++ "  " ++ quote
  ++ "}}]}".

(** A decoder that knows this one body. *)
Definition json : llm.Json :=
  {| llm.unmarshal_choices := fun body =>
       if String.eqb body blankCompletion then (["  "], None)
       else ([], Some "unexpected end of JSON input");
     llm.unmarshal_response := fun _ =>
       ("", Some "unexpected end of JSON input");
     llm.unmarshal_content := fun _ =>
       ([], Some "unexpected end of JSON input");
     llm.unmarshal_candidates := fun _ =>
       ([], Some "unexpected end of JSON input") |}.


(** A primary that fails twice and a fallback, as in [resilient_test.go]. *)
Definition flakyPair : list (llm.Client nat * nat) :=
  [(llm.flakyClient "primary" 2, 0%nat); (llm.flakyClient "fallback" 0, 0%nat)].

(** A text of 25001 bytes that ends in two spaces. *)
Definition paddedText : string :=
  Go.Repeat "a" (Z.to_nat 24999) ++ "  ".

End inputs.

(** ** Observations on the store *)

(** A row is not later than another. *)
Definition older (a b : state.ProcessedCommit) : Prop :=
  state.processed_at a <= state.processed_at b.

(** The rows a query selects by status, oldest first. *)
Definition selected_oldest_first (d : state.DB)
    (wanted : state.ProcessedCommit -> bool) (result : list string) : Prop :=
  exists rows,
    result = map state.commit_hash rows
    /\ Sorted older rows
    /\ Permutation (filter wanted (state.processed_commits d)) rows.


(** The three key fields of a planned update. *)
Definition plan_key (r : state.PlannedUpdate) : string * string * string :=
  (state.pu_commit_hash r, state.pu_doc_file r, state.pu_section_id r).

(** A commit waits to be resumed. *)
Definition resumable (status : string) : bool :=
  String.eqb status "pending" || String.eqb status "in_progress".


(** ** More observations on traces *)

Definition is_stage_commit (e : Event) : bool :=
  match e with EStageAndCommit _ _ _ _ => true | _ => false end.

Definition is_stage_amend (e : Event) : bool :=
  match e with EStageAndAmend _ _ _ => true | _ => false end.

Definition is_file_write (e : Event) : bool :=
  match e with EAtomicWriteFile _ _ _ => true | _ => false end.

Definition is_read (e : Event) : bool :=
  match e with EReadFile _ _ => true | _ => false end.

(** The commits a trace marks pending, in order. *)
Fixpoint pending_marks (tr : list Event) : list string :=
  match tr with
  | [] => []
  | EMarkCommitProcessed commitHash status _ _ _ _ :: rest =>
      if String.eqb status "pending" then commitHash :: pending_marks rest
      else pending_marks rest
  | _ :: rest => pending_marks rest
  end.

(** How many events of a kind a trace has. *)
Definition count_events (kind : Event -> bool) (tr : list Event) : nat :=
  List.length (filter kind tr).

(** ** More observations *)

(** A provider either answers with a text that is not empty, or fails with
    no text; a transport failure and a status of 300 or more are failures. *)
Definition answers_or_fails (gen : llm.HttpOutcome -> string * error) : Prop :=
  forall http text err,
    gen http = (text, err) ->
    (err = None -> text <> "")
    /\ (err <> None -> text = "")
    /\ match http with
       | llm.Response statusCode _ => 300 <= statusCode -> err <> None
       | _ => err <> None
       end.

(** The failure a provider's attempt leaves in [lastErr]. *)
Definition attempt_failure (attempt : Z) (e : string) : Prop :=
  exists name cause,
    e = "provider " ++ name ++ " attempt " ++ Go.itoa attempt ++ " failed: "
        ++ cause.

(** [strings.ToLower] on ASCII letters, for running [Validate]. *)
Definition asciiLower : Unicode :=
  {| ToLower := fun s =>
       string_of_list_ascii
         (map (fun c =>
                 let n := nat_of_ascii c in
                 if Nat.leb 65 n && Nat.leb n 90 then ascii_of_nat (n + 32)
                 else c)
              (list_ascii_of_string s)) |}.

(** ** More inputs *)

Module scenarios.

Import fixtures.

(** A store with two commits: [c1] pending since 100, [c2] failed at 200. *)
Definition twoCommits : state.DB :=
  snd (state.MarkCommitProcessed
         (snd (state.MarkCommitProcessed state.empty None 100 "c1" "pending"
                 "" "" None))
         None 200 "c2" "failed" "boom" "" None).

(** The repository of the tests with commit [c1] left pending. *)
Definition worldPending : World fakeGit unit :=
  with_db (snd (state.MarkCommitProcessed state.empty None 100 "c1" "pending"
                  "" "" None))
          (inputs.world0 tt).

(** A repository whose range holds commit [c1], as [sampleRangeCommit]. *)
Definition rangeUpdater : orchestrator.Updater fakeGit unit :=
  orchestrator.NewUpdater
    {| orchestrator.Config := testConfig;
       orchestrator.Git :=
         fakeGitHelper "/repo" "head-hash"
           [{| gitutil.Hash := "c1"; gitutil.Author := "";
               gitutil.Email := ""; gitutil.Timestamp := 0;
               gitutil.Subject := "feat: range update" |}]
           [("c1", ["src/a.txt"])] [("c1", "feat: add thing")]
           [("c1", "+new")];
       orchestrator.DocUpdater := appendingUpdater;
       orchestrator.LLM := llm.MockClient |}.

(** A provider that is down. *)
Definition downClient : llm.Client unit :=
  {| llm.Name := fun _ => "down";
     llm.Generate := fun _ _ s => (("", Some "connection refused"), s) |}.

(** A context that is cancelled from the start, and one that is cancelled
    after the first look. *)
Definition cancelled : llm.Context := fun _ => Some "context canceled".

Definition cancelledLater : llm.Context :=
  fun k => match k with O => None | S _ => Some "context canceled" end.

(** A configuration that leaves the defaulted fields unset. *)
Definition sloppyConfig : config.Config :=
  {| config.LLM :=
       {| config.LLM_Provider := " OpenAI "; config.APIKey := "sk-test";
          config.LLM_Model := "gpt-4o-mini"; config.Timeout := 0;
          config.MaxRetries := -1; config.FailoverEnabled := true;
          config.FallbackProviders := ["groq"; " "] |};
     config.DocFiles := ["README.md"];
     config.Mappings := [];
     config.Git := config.Git config.Default;
     config.DBPath := ".git-doc/state.db";
     config.Runtime := {| config.DefaultSection := "  " |} |}.

(** A text with the three kinds of line break. *)
Definition mixedBreaks : string :=
  "a" ++ doc.CRLF ++ "b" ++ doc.CR ++ "c" ++ doc.LF.

(** The run of commit [c0], which changes no file. *)
Definition runNoChanges
  : (string * error) * World fakeGit unit * list Event :=
  orchestrator.processSingleCommit (H := platform) (updaterWith llm.MockClient)
    llm.Background "run-1" "c0" false (inputs.world0 tt).

(** The run of commit [c1] with documentation commits switched on. *)
Definition runCommitting
  : (string * error) * World fakeGit unit * list Event :=
  orchestrator.processSingleCommit (H := platform) inputs.mappedUpdater
    llm.Background "run-1" "c1" false (inputs.world0 tt).

(** One iteration of the loop on the repository without its README. *)
Definition iterationFailing
  : orchestrator.Summary * World fakeGit unit * list Event :=
  orchestrator.processOne (H := platform) (updaterWith llm.MockClient)
    llm.Background "run-1" false orchestrator.noSummary "c1"
    inputs.worldNoReadme.

End scenarios.

(** * Properties *)

(** ** The store *)

Lemma upsert_commit_finds row rows :
  find (fun r => String.eqb (state.commit_hash r) (state.commit_hash row))
       (state.upsert_commit row rows) = Some row.
Proof.
  induction rows as [|r rest IH]; simpl.
  - rewrite String.eqb_refl. reflexivity.
  - destruct (String.eqb (state.commit_hash r) (state.commit_hash row)) eqn:E;
      simpl.
    + rewrite String.eqb_refl. reflexivity.
    + rewrite E. exact IH.
Qed.

Lemma upsert_plan_finds now commitHash docFile sectionID strategy status
    reason rows :
  exists row,
    find (state.same_plan commitHash docFile sectionID)
         (state.upsert_plan now commitHash docFile sectionID strategy status
                            reason rows) = Some row
    /\ state.pu_status row = status /\ state.pu_reason row = reason.
Proof.
  assert (Hself : forall c u,
    state.same_plan commitHash docFile sectionID
      {| state.pu_commit_hash := commitHash; state.pu_doc_file := docFile;
         state.pu_section_id := sectionID; state.pu_strategy := strategy;
         state.pu_status := status; state.pu_reason := reason;
         state.pu_created_at := c; state.pu_updated_at := u |} = true).
  { intros c u. unfold state.same_plan. simpl.
    rewrite !String.eqb_refl. reflexivity. }
  induction rows as [|r rest IH]; simpl.
  - rewrite Hself. eauto.
  - destruct (state.same_plan commitHash docFile sectionID r) eqn:E; simpl.
    + rewrite Hself. eauto.
    + rewrite E. exact IH.
Qed.

Lemma plan_marked_ext d d' commitHash docFile sectionID status reason :
  state.planned_updates d' = state.planned_updates d ->
  plan_marked d commitHash docFile sectionID status reason ->
  plan_marked d' commitHash docFile sectionID status reason.
Proof. unfold plan_marked, plan_row. intros ->. auto. Qed.

(** ** What the calls leave alone *)

Section Frames.
Context {G L : Type}.

Lemma syscall_disk (w : World G L) : disk (snd (syscall w)) = disk w.
Proof. unfold syscall. destruct (script w); reflexivity. Qed.

Lemma sql_disk {A} (op : state.DB -> error -> Z -> A * state.DB)
    (w : World G L) a w' :
  sql op w = (a, w') -> disk w' = disk w.
Proof.
  unfold sql. pose proof (syscall_disk w) as Hd.
  destruct (syscall w) as [f w1]. destruct (op _ _ _).
  intros [= <- <-]. exact Hd.
Qed.

Lemma query_disk {A} (op : state.DB -> error -> A) (w : World G L) a w' :
  query op w = (a, w') -> disk w' = disk w.
Proof.
  unfold query. pose proof (syscall_disk w) as Hd.
  destruct (syscall w) as [f w1]. intros [= <- <-]. exact Hd.
Qed.

Lemma on_git_disk {A} (op : G -> A * G) (w : World G L) a w' :
  on_git op w = (a, w') -> disk w' = disk w.
Proof. unfold on_git. destruct (op _). intros [= <- <-]. reflexivity. Qed.

Lemma on_llm_disk {A} (op : L -> A * L) (w : World G L) a w' :
  on_llm op w = (a, w') -> disk w' = disk w.
Proof. unfold on_llm. destruct (op _). intros [= <- <-]. reflexivity. Qed.

Lemma os_ReadFile_disk path (w : World G L) a w' :
  os_ReadFile path w = (a, w') -> disk w' = disk w.
Proof.
  unfold os_ReadFile. pose proof (syscall_disk w) as Hd.
  destruct (syscall w) as [f w1].
  destruct f; [|destruct (lookup _ _)]; intros [= <- <-]; exact Hd.
Qed.

(** [os.ReadFile] reports [ErrNotExist] only for a path without a file. *)
Lemma os_ReadFile_missing path (w : World G L) w' :
  os_ReadFile path w = (ErrNotExist, w') ->
  lookup path (disk w) = None /\ disk w' = disk w.
Proof.
  unfold os_ReadFile. pose proof (syscall_disk w) as Hd.
  destruct (syscall w) as [f w1]. simpl in Hd.
  destruct f; [discriminate|].
  destruct (lookup path (disk w1)) eqn:E; [discriminate|].
  intros [= <-]. rewrite <- Hd. auto.
Qed.

(** A successful [MarkCommitProcessed] leaves the row it wrote; a failed one
    changes nothing; neither touches the planned updates. *)
Lemma sql_MarkCommitProcessed commitHash status errText docCommit filesChanged
    (w : World G L) r w' :
  sql (fun d f t => state.MarkCommitProcessed d f t commitHash status errText
                      docCommit filesChanged) w = (r, w') ->
  (r = None ->
   commit_marked (db w') commitHash status
     match filesChanged with None => [] | Some files => files end)
  /\ state.planned_updates (db w') = state.planned_updates (db w).
Proof.
  unfold sql, syscall, state.MarkCommitProcessed.
  destruct (script w) as [|st rest]; cbn [fault];
    [|destruct (fault st)]; try destruct (state.status_check status);
    intros [= <- <-]; (split; [|reflexivity]); try discriminate;
    intros _; unfold commit_marked, commit_row; cbn;
    eexists; (split; [apply (upsert_commit_finds
      {| state.commit_hash := commitHash; state.processed_at := _;
         state.status := status; state.error_text := _;
         state.doc_commit_hash := _; state.doc_files_changed := _ |})
      | split; reflexivity]).
Qed.

(** A successful [UpsertPlannedUpdate] leaves the row it wrote. *)
Lemma sql_UpsertPlannedUpdate commitHash docFile sectionID strategy status
    reason (w : World G L) r w' :
  sql (fun d f t => state.UpsertPlannedUpdate d f t commitHash docFile
                      sectionID strategy status reason) w = (r, w') ->
  r = None ->
  plan_marked (db w') commitHash docFile sectionID status
              (state.nullIfEmpty reason).
Proof.
  unfold sql, syscall, state.UpsertPlannedUpdate.
  destruct (script w) as [|st rest]; cbn [fault];
    [|destruct (fault st)]; intros [= <- <-]; try discriminate;
    intros _; unfold plan_marked, plan_row; cbn; apply upsert_plan_finds.
Qed.

End Frames.

(** Symbolic execution of the engine: one collaborator call or one test at a
    time. *)
Ltac step :=
  match goal with
  | |- context [match ?x with _ => _ end] =>
      match x with
      | sql _ _ => destruct x as [? ?] eqn:?
      | query _ _ => destruct x as [[[? ?] ?] ?] eqn:?
      | query _ _ => destruct x as [[? ?] ?] eqn:?
      | on_git _ _ => destruct x as [[? ?] ?] eqn:?
      | on_llm _ _ => destruct x as [[? ?] ?] eqn:?
      | os_ReadFile _ _ => destruct x as [? ?] eqn:?
      | doc_AtomicWriteFile _ _ _ => destruct x as [? ?] eqn:?
      | doc.ReplaceSection _ _ _ _ => destruct x as [? ?] eqn:?
      | orchestrator.resolveTarget _ _ => destruct x as [? ?] eqn:?
      | orchestrator.processSingleCommit _ _ _ _ _ _ =>
          destruct x as [[[? ?] ?] ?] eqn:?
      | orchestrator.validateGeneratedSection _ => destruct x eqn:?
      | String.eqb _ _ => destruct x eqn:?
      | negb ?b => is_var b; destruct b; cbn [negb]
      | config.CommitDocUpdates _ => destruct x eqn:?
      | config.AmendOriginal _ => destruct x eqn:?
      | _ => is_var x; destruct x
      end
  end.

Ltac unfold_calls :=
  unfold orchestrator.MarkCommitProcessed, orchestrator.UpsertPlannedUpdate,
    orchestrator.StoreMapping, orchestrator.GetCachedLLMResponse,
    orchestrator.PutCachedLLMResponse, orchestrator.LogRunEvent,
    orchestrator.GetResumableCommits, orchestrator.GetLastProcessedCommit,
    orchestrator.GetRepoRoot, orchestrator.GetCurrentHEAD,
    orchestrator.GetLastProcessedRange, orchestrator.GetCommitDiff,
    orchestrator.GetCommitMessage, orchestrator.GetChangedFiles,
    orchestrator.StageAndCommit, orchestrator.StageAndAmend,
    orchestrator.ReadFile, orchestrator.AtomicWriteFile,
    orchestrator.Generate, orchestrator.ReplaceSection, call, bind, ret.

Ltac run_pipeline :=
  unfold orchestrator.processSingleCommit; unfold_calls; repeat step.

(** What the rows of the store are after the calls of a path. *)
Ltac rows :=
  repeat match goal with
  | E : sql (fun d f t => state.MarkCommitProcessed d f t _ _ _ _ _) _ = _
    |- _ =>
      let Hrow := fresh "Hrow" in
      let Hplans := fresh "Hplans" in
      destruct (sql_MarkCommitProcessed _ _ _ _ _ _ _ _ E) as [Hrow Hplans];
      apply sql_disk in E
  | E : sql (fun d f t => state.UpsertPlannedUpdate d f t _ _ _ _ _ _) _ = _
    |- _ =>
      let Hrow := fresh "Hrow" in
      pose proof (sql_UpsertPlannedUpdate _ _ _ _ _ _ _ _ _ E) as Hrow;
      apply sql_disk in E
  end.

Ltac frame :=
  repeat match goal with
  | E : sql _ _ = _ |- _ => apply sql_disk in E
  | E : query _ _ = _ |- _ => apply query_disk in E
  | E : on_git _ _ = _ |- _ => apply on_git_disk in E
  | E : on_llm _ _ = _ |- _ => apply on_llm_disk in E
  | E : os_ReadFile _ _ = (ErrNotExist, _) |- _ =>
      apply os_ReadFile_missing in E; destruct E
  | E : os_ReadFile _ _ = _ |- _ => apply os_ReadFile_disk in E
  end.

(** Which event of a finished run a hypothesis [In e tr] speaks about. *)
Ltac which_event H :=
  cbn [In] in H;
  repeat (destruct H as [H|H];
          [ try discriminate H; try (injection H as ?; subst) | ]);
  try contradiction.

Lemma ends_with_here (tr : list Event) : ends_with tr tr.
Proof. exists []. reflexivity. Qed.

Lemma ends_with_later e (tr suffix : list Event) :
  ends_with tr suffix -> ends_with (e :: tr) suffix.
Proof. intros [pre ->]. exists (e :: pre). reflexivity. Qed.

Ltac find_suffix :=
  repeat first [ apply ends_with_here | apply ends_with_later ].

(** ** The pipeline of one commit *)

Section Pipeline.
Context `{Platform} {G L : Type} (u : orchestrator.Updater G L).

(** A dry run never writes: whatever the commit and the world, no call
    touches the working tree or the history. *)
Lemma dry_run_writes_nothing ctx runID hash (w : World G L) r w' tr :
  orchestrator.processSingleCommit u ctx runID hash true w = (r, w', tr) ->
  no_write tr /\ disk w' = disk w.
Proof.
  run_pipeline; intros [= <- <- <-]; frame;
    (split; [reflexivity | congruence]).
Qed.

(** C5. A commit whose target doc-file is missing fails with "target doc file
    not found" naming the file, before the generation client is called and
    without writing anything. *)
Theorem missing_doc_file_fails_before_generation
    ctx runID hash dryRun (w : World G L) st err w' tr path :
  orchestrator.processSingleCommit u ctx runID hash dryRun w
  = ((st, err), w', tr) ->
  In (EReadFile path ErrNotExist) tr ->
  st = "failed"
  /\ (exists files root,
        In (EGetChangedFiles hash files None) tr
        /\ In (EGetRepoRoot root None) tr
        /\ path = filepath_Join root (fst (orchestrator.resolveTarget u files))
        /\ err = Some ("target doc file not found: "
                       ++ fst (orchestrator.resolveTarget u files)))
  /\ lookup path (disk w) = None
  /\ no_generate tr /\ no_write tr /\ disk w' = disk w.
Proof.
  run_pipeline; intros [= <- <- <- <-] Hin; which_event Hin.
  frame. split; [reflexivity|]. split.
  - eexists; eexists. cbn [In].
    repeat split; [eauto 10 | eauto 10 | | ];
      match goal with E : orchestrator.resolveTarget _ _ = _ |- _ =>
        rewrite E end; reflexivity.
  - repeat split; try reflexivity; congruence.
Qed.

(** C6. When the normalized replacement equals the original up to leading and
    trailing white space, the run ends by marking the plan "unchanged" and the
    commit "skipped" with an empty list of changed files; nothing is written
    and no documentation commit is made. *)
Theorem unchanged_document_is_skipped
    ctx runID hash dryRun (w : World G L) st err w' tr
    docRaw section newContent updated :
  orchestrator.processSingleCommit u ctx runID hash dryRun w
  = ((st, err), w', tr) ->
  In (EReplaceSection docRaw section newContent updated None) tr ->
  Go.TrimSpace (doc.NormalizeLineEndings updated (doc.DetectLineEnding docRaw))
  = Go.TrimSpace docRaw ->
  exists docFile planErr markErr,
    ends_with tr
      [EUpsertPlannedUpdate hash docFile section "inferred" "unchanged"
                            "no document delta" planErr;
       EMarkCommitProcessed hash "skipped" "" "" (Some []) markErr]
    /\ (st, err) = match markErr with
                   | None => ("skipped", None)
                   | Some e => ("failed", Some e)
                   end
    /\ (planErr = None ->
        plan_marked (db w') hash docFile section "unchanged"
                    (Some "no document delta"))
    /\ (markErr = None -> commit_marked (db w') hash "skipped" [])
    /\ no_write tr /\ disk w' = disk w.
Proof.
  run_pipeline; intros [= <- <- <- <-] Hin Heq; which_event Hin;
    try (rewrite Heq, String.eqb_refl in *; discriminate);
    rows; frame; do 3 eexists; (split; [find_suffix | ]);
    (split; [reflexivity | ]);
    (split; [intros; eapply plan_marked_ext; eauto | ]);
    (split; [solve [auto | discriminate] | ]);
    (split; [reflexivity | congruence]).
Qed.

(** C7. A dry run writes nothing and makes no documentation commit; when the
    content would change it ends by marking the plan "applied" with reason
    "dry-run" and the commit "success" with the target file as changed. *)
Theorem dry_run_reports_without_writing
    ctx runID hash (w : World G L) st err w' tr :
  orchestrator.processSingleCommit u ctx runID hash true w
  = ((st, err), w', tr) ->
  no_write tr /\ disk w' = disk w
  /\ forall docRaw section newContent updated,
       In (EReplaceSection docRaw section newContent updated None) tr ->
       Go.TrimSpace (doc.NormalizeLineEndings updated
                       (doc.DetectLineEnding docRaw))
       <> Go.TrimSpace docRaw ->
       exists docFile planErr markErr,
         ends_with tr
           [EUpsertPlannedUpdate hash docFile section "inferred" "applied"
                                 "dry-run" planErr;
            EMarkCommitProcessed hash "success" "" "" (Some [docFile])
                                 markErr]
         /\ (st, err) = match markErr with
                        | None => ("success", None)
                        | Some e => ("failed", Some e)
                        end
         /\ (planErr = None ->
             plan_marked (db w') hash docFile section "applied"
                         (Some "dry-run"))
         /\ (markErr = None ->
             commit_marked (db w') hash "success" [docFile]).
Proof.
  intros Hrun.
  destruct (dry_run_writes_nothing _ _ _ _ _ _ _ Hrun) as [Hnw Hdisk].
  split; [exact Hnw | split; [exact Hdisk | ]].
  clear Hnw Hdisk. revert Hrun.
  run_pipeline; intros [= <- <- <- <-] docRaw section newContent updated
    Hin Hne; which_event Hin;
    try (match goal with E : String.eqb _ _ = true |- _ =>
           apply String.eqb_eq in E; contradiction end);
    rows; do 3 eexists; (split; [find_suffix | ]);
    (split; [reflexivity | ]);
    (split; [intros; eapply plan_marked_ext; eauto | ]);
    solve [auto | discriminate].
Qed.

(** The pipeline half of C9 and C10: a text that reaches validation and is
    rejected fails the commit with the validation reason, marks the plan
    "failed" with it, and leaves the document alone. *)
Lemma rejected_content_fails_commit
    ctx runID hash dryRun (w : World G L) st err w' tr text reason :
  orchestrator.processSingleCommit u ctx runID hash dryRun w
  = ((st, err), w', tr) ->
  reaches_validation tr text ->
  orchestrator.validateGeneratedSection text = Some reason ->
  (st, err) = ("failed", Some reason)
  /\ (exists docFile section planErr,
        ends_with tr [EUpsertPlannedUpdate hash docFile section "inferred"
                                           "failed" reason planErr]
        /\ (planErr = None ->
            plan_marked (db w') hash docFile section "failed"
                        (state.nullIfEmpty reason)))
  /\ no_write tr /\ disk w' = disk w.
Proof.
  run_pipeline; intros [= <- <- <- <-] Hin Hrej;
    destruct Hin as [[? Hin] | (? & ? & ? & ? & ? & ? & ? & Hin)];
    which_event Hin; try congruence;
    match goal with
    | E : orchestrator.validateGeneratedSection _ = Some _ |- _ =>
        rewrite Hrej in E; injection E as <-
    end;
    rows; frame;
    (split; [reflexivity | ]);
    (split; [do 3 eexists; split; [find_suffix | auto] | ]);
    (split; [reflexivity | congruence]).
Qed.

(** A cache hit bypasses the generation client. *)
Lemma cache_hit_skips_generation
    ctx runID hash dryRun (w : World G L) r w' tr
    commit docFile section provider model prompt text cacheErr :
  orchestrator.processSingleCommit u ctx runID hash dryRun w = (r, w', tr) ->
  In (EGetCachedLLMResponse commit docFile section provider model prompt
                            text true cacheErr) tr ->
  no_generate tr.
Proof.
  run_pipeline; intros [= <- <- <-] Hin; which_event Hin; reflexivity.
Qed.

(** An accepted cached text is the one handed to the section updater. *)
Lemma cache_hit_is_applied
    ctx runID hash dryRun (w : World G L) r w' tr
    commit docFile section provider model prompt text cacheErr :
  orchestrator.processSingleCommit u ctx runID hash dryRun w = (r, w', tr) ->
  In (EGetCachedLLMResponse commit docFile section provider model prompt
                            text true cacheErr) tr ->
  orchestrator.validateGeneratedSection text = None ->
  exists docRaw updated replaceErr,
    In (EReplaceSection docRaw section text updated replaceErr) tr.
Proof.
  run_pipeline; intros [= <- <- <-] Hin Hok; which_event Hin;
    try congruence; do 3 eexists; cbn [In]; eauto 30.
Qed.

End Pipeline.

Import resilience.
(** ** C1: the run summary *)

Lemma wrap64_small z : Go.min_int <= z <= Go.max_int -> Go.wrap64 z = z.
Proof.
  unfold Go.wrap64, Go.min_int, Go.max_int. intros Hz.
  rewrite Z.mod_small; lia.
Qed.

Lemma incr_small x : 0 <= x < Go.max_int -> Go.incr x = x + 1.
Proof.
  intros Hx. unfold Go.incr. apply wrap64_small.
  unfold Go.min_int, Go.max_int in *. lia.
Qed.

Lemma appendUnique_length items : forall seen out,
  (List.length (snd (orchestrator.appendUnique items seen out))
   <= List.length out + List.length items)%nat.
Proof.
  induction items as [|item rest IH]; intros seen out; simpl.
  - lia.
  - destruct (String.eqb item ""); [specialize (IH seen out); lia|].
    destruct (orchestrator.seen_ seen item); [specialize (IH seen out); lia|].
    specialize (IH (item :: seen) (out ++ [item])%list).
    rewrite length_app in IH. simpl in IH. lia.
Qed.

Lemma mergeUnique_length first second :
  Go.len (orchestrator.mergeUnique first second)
  <= Go.len first + Go.len second.
Proof.
  unfold orchestrator.mergeUnique, Go.len.
  pose proof (appendUnique_length first [] []) as H1.
  destruct (orchestrator.appendUnique first [] []) as [seen out].
  pose proof (appendUnique_length second seen out) as H2.
  simpl in *. lia.
Qed.

Section Summary.
Context `{Platform} {G L : Type} (u : orchestrator.Updater G L).

(** One iteration of the loop counts the commit once, under exactly one of
    the three outcomes. *)
Lemma processOne_counts ctx runID dryRun s hash (w : World G L) s' w' tr n :
  orchestrator.processOne u ctx runID dryRun s hash w = (s', w', tr) ->
  counted s n -> 0 <= n < Go.max_int ->
  counted s' (n + 1).
Proof.
  unfold orchestrator.processOne, counted, summary_ok.
  intros Hrun (Hp & H0 & H1 & H2 & H3 & Hsum) Hn. revert Hrun.
  unfold_calls. repeat step; intros [= <- <- <-]; cbn;
    rewrite ?incr_small by lia; lia.
Qed.

Lemma forEachCommit_counts ctx runID dryRun commitHashes :
  forall s (w : World G L) s' w' tr n,
  orchestrator.forEachCommit u ctx runID dryRun commitHashes s w
  = (s', w', tr) ->
  counted s n -> 0 <= n -> n + Go.len commitHashes <= Go.max_int ->
  counted s' (n + Go.len commitHashes).
Proof.
  induction commitHashes as [|hash rest IH]; intros s w s' w' tr n.
  - simpl. unfold ret. intros [= <- <- <-] Hc _ _.
    unfold Go.len. simpl. rewrite Z.add_0_r. exact Hc.
  - cbn [orchestrator.forEachCommit]. unfold bind at 1.
    destruct (orchestrator.processOne u ctx runID dryRun s hash w)
      as [[s1 w1] t1] eqn:E1.
    destruct (orchestrator.forEachCommit u ctx runID dryRun rest s1 w1)
      as [[s2 w2] t2] eqn:E2.
    intros [= <- <- <-] Hc Hn Hlen.
    unfold Go.len in *. cbn [List.length] in *.
    rewrite Nat2Z.inj_succ in *.
    eapply processOne_counts in E1; [|exact Hc|lia].
    eapply IH in E2; [|exact E1|lia|lia].
    replace (n + Z.succ (Z.of_nat (List.length rest)))
      with (n + 1 + Z.of_nat (List.length rest)) by lia.
    exact E2.
Qed.

Lemma UpdateCommitList_counts ctx commitHashes dryRun (w : World G L)
    s err w' tr :
  orchestrator.UpdateCommitList u ctx commitHashes dryRun w
  = ((s, err), w', tr) ->
  Go.len commitHashes <= Go.max_int ->
  err = None /\ counted s (Go.len commitHashes).
Proof.
  unfold orchestrator.UpdateCommitList. unfold_calls.
  destruct (sql _ w) as [e0 w0] eqn:E0.
  destruct (orchestrator.forEachCommit u ctx _ dryRun commitHashes _ w0)
    as [[s1 w1] t1] eqn:E1.
  destruct (sql _ w1) as [e2 w2] eqn:E2.
  intros [= <- <- <- <-] Hlen. split; [reflexivity|].
  eapply forEachCommit_counts with (n := 0) in E1.
  - exact E1.
  - unfold counted, summary_ok. cbn. lia.
  - lia.
  - lia.
Qed.

(** C1. The summary of [UpdateCommitList] counts every commit once:
    [Processed] is the number of commits, the four counters are not
    negative, and [Processed = Success + Failed + Skipped].  The same holds
    for [UpdateNewCommits] and [UpdateRangeCommits] when they return no
    error, on the commits the store and the commit source gave them. *)
Theorem summary_accounts_for_every_commit
    ctx commitHashes fromHash toHash dryRun (w : World G L) :
  Go.len commitHashes <= Go.max_int ->
  (forall s err w' tr,
     orchestrator.UpdateCommitList u ctx commitHashes dryRun w
     = ((s, err), w', tr) ->
     err = None /\ summary_ok s
     /\ orchestrator.Processed s = Go.len commitHashes)
  /\ (forall s w' tr,
        orchestrator.UpdateNewCommits u ctx dryRun w = ((s, None), w', tr) ->
        (forall resumable commits from to,
           In (EGetResumableCommits resumable None) tr ->
           In (EGetLastProcessedRange from to commits None) tr ->
           Go.len resumable + Go.len commits <= Go.max_int) ->
        summary_ok s)
  /\ (forall s w' tr,
        orchestrator.UpdateRangeCommits u ctx fromHash toHash dryRun w
        = ((s, None), w', tr) ->
        (forall commits from to,
           In (EGetLastProcessedRange from to commits None) tr ->
           Go.len commits <= Go.max_int) ->
        summary_ok s).
Proof.
  intros Hlen. split; [|split].
  - intros s err w' tr Hrun.
    destruct (UpdateCommitList_counts _ _ _ _ _ _ _ _ Hrun Hlen)
      as [He [Hp Hok]].
    auto.
  - intros s w' tr. unfold orchestrator.UpdateNewCommits. unfold_calls.
    repeat step; try (intros [= <- <- <-]; discriminate).
    match goal with
    | |- context [orchestrator.UpdateCommitList ?u0 ?c0 ?l ?d0 ?w0] =>
        destruct (orchestrator.UpdateCommitList u0 c0 l d0 w0)
          as [[[sx ex] wx] tx] eqn:E
    end.
    intros [= <- <- <- <-] Hb.
    eapply UpdateCommitList_counts in E.
    + apply E.
    + etransitivity; [apply mergeUnique_length|].
      unfold Go.len at 2. rewrite length_map.
      eapply Hb; cbn [In app]; eauto 10.
  - intros s w' tr. unfold orchestrator.UpdateRangeCommits. unfold_calls.
    repeat step; try (intros [= <- <- <-]; discriminate).
    all: match goal with
    | |- context [orchestrator.UpdateCommitList ?u0 ?c0 ?l ?d0 ?w0] =>
        destruct (orchestrator.UpdateCommitList u0 c0 l d0 w0)
          as [[[sx ex] wx] tx] eqn:E
    end.
    all: intros [= <- <- <- <-] Hb.
    all: eapply UpdateCommitList_counts in E; [apply E|].
    all: unfold Go.len; rewrite length_map.
    all: eapply Hb; cbn [In app]; eauto 10.
Qed.

End Summary.

(** ** C2: the resilient client *)



Lemma attempts_of_app idx t1 t2 :
  attempts_of idx (t1 ++ t2) = (attempts_of idx t1 + attempts_of idx t2)%nat.
Proof. unfold attempts_of. rewrite filter_app, length_app. reflexivity. Qed.

Lemma attempts_of_block idx attempt k j :
  attempts_of j (block idx attempt k) = if Nat.eqb idx j then k else O.
Proof.
  revert attempt. induction k as [|k IH]; intros attempt.
  - simpl. destruct (Nat.eqb idx j); reflexivity.
  - destruct k as [|k'].
    + unfold attempts_of. simpl. destruct (Nat.eqb idx j); reflexivity.
    + change (block idx attempt (S (S k')))
        with (llm.Attempt idx attempt
              :: llm.Wait idx attempt (llm.backoff attempt)
              :: block idx (attempt + 1) (S k')).
      specialize (IH (attempt + 1)).
      unfold attempts_of in *. cbn [filter].
      destruct (Nat.eqb idx j); cbn [List.length]; rewrite IH; reflexivity.
Qed.

Lemma attempts_of_blocks ks : forall idx j N,
  Forall (fun k => (k <= N)%nat) ks ->
  (attempts_of j (blocks idx ks) <= N)%nat
  /\ ((j < idx)%nat -> attempts_of j (blocks idx ks) = O).
Proof.
  induction ks as [|k rest IH]; intros idx j N HF.
  - unfold attempts_of. simpl. split; [lia | reflexivity].
  - inversion HF as [|? ? Hk Hrest]; subst.
    cbn [blocks]. rewrite attempts_of_app, attempts_of_block.
    destruct (IH (S idx) j N Hrest) as [Hle Hzero].
    destruct (Nat.eqb idx j) eqn:E.
    + apply Nat.eqb_eq in E. subst j. rewrite Hzero by lia. split; lia.
    + apply Nat.eqb_neq in E. split; [lia|]. intros Hlt. apply Hzero. lia.
Qed.




Section Resilient.
Context {St : Type} (ctx : llm.Context) (maxRetries : Z) (prompt : string).
Hypothesis live : never_cancelled ctx.






End Resilient.


(** ** C3: the provider clients *)

Section ProviderResults.
Context `{llm.Json}.

(** OpenAI: a decoded first choice with blank content is returned as an empty
    text without an error. *)
Lemma OpenAI_blank_choice_is_success statusCode body content rest :
  statusCode < 300 ->
  llm.unmarshal_choices body = (content :: rest, None) ->
  Go.TrimSpace content = "" ->
  llm.OpenAIClient_Generate (llm.Response statusCode body) = ("", None).
Proof.
  intros Hs Hb Ht. unfold llm.OpenAIClient_Generate.
  destruct (statusCode >=? 300) eqn:E; [apply Z.geb_le in E; lia|].
  rewrite Hb, Ht. reflexivity.
Qed.

Lemma Groq_never_empty http text :
  llm.GroqClient_Generate http = (text, None) -> text <> "".
Proof.
  unfold llm.GroqClient_Generate.
  destruct http as [e|c e|c body]; try discriminate.
  destruct (c >=? 300); [discriminate|].
  destruct (llm.unmarshal_choices body) as [choices [e|]]; [discriminate|].
  destruct choices as [|content rest]; [discriminate|].
  destruct (String.eqb (Go.TrimSpace content) "") eqn:E; [discriminate|].
  intros [= <-]. apply String.eqb_neq. exact E.
Qed.

Lemma Ollama_never_empty http text :
  llm.OllamaClient_Generate http = (text, None) -> text <> "".
Proof.
  unfold llm.OllamaClient_Generate.
  destruct http as [e|c e|c body]; try discriminate.
  destruct (c >=? 300); [discriminate|].
  destruct (llm.unmarshal_response body) as [response [e|]]; [discriminate|].
  destruct (String.eqb (Go.TrimSpace response) "") eqn:E; [discriminate|].
  intros [= <-]. apply String.eqb_neq. exact E.
Qed.

Lemma firstText_never_empty content text :
  llm.firstText content = (text, None) -> text <> "".
Proof.
  induction content as [|[type t] rest IH]; simpl; [discriminate|].
  destruct (String.eqb type "text"
            && negb (String.eqb (Go.TrimSpace t) "")) eqn:E; [|exact IH].
  intros [= <-]. apply andb_true_iff in E. destruct E as [_ E].
  apply negb_true_iff in E. apply String.eqb_neq. exact E.
Qed.

Lemma Anthropic_never_empty http text :
  llm.AnthropicClient_Generate http = (text, None) -> text <> "".
Proof.
  unfold llm.AnthropicClient_Generate.
  destruct http as [e|c e|c body]; try discriminate.
  destruct (c >=? 300); [discriminate|].
  destruct (llm.unmarshal_content body) as [content [e|]]; [discriminate|].
  apply firstText_never_empty.
Qed.

Lemma firstPart_never_empty parts text :
  llm.firstPart parts = Some text -> text <> "".
Proof.
  induction parts as [|t rest IH]; simpl; [discriminate|].
  destruct (String.eqb (Go.TrimSpace t) "") eqn:E; cbn [negb]; [exact IH|].
  intros [= <-]. apply String.eqb_neq. exact E.
Qed.

Lemma Gemini_never_empty http text :
  llm.GeminiClient_Generate http = (text, None) -> text <> "".
Proof.
  unfold llm.GeminiClient_Generate.
  destruct http as [e|c e|c body]; try discriminate.
  destruct (c >=? 300); [discriminate|].
  destruct (llm.unmarshal_candidates body) as [candidates [e|]];
    [discriminate|].
  induction candidates as [|parts rest IH]; simpl; [discriminate|].
  destruct (llm.firstPart parts) as [t|] eqn:E; [|exact IH].
  intros [= <-]. eapply firstPart_never_empty. exact E.
Qed.

End ProviderResults.

(** C3, at the failing input.  [OpenAIClient.Generate], given status 200 and
    a well-formed completion whose content is blank, returns the empty text
    with a nil error. *)
Theorem OpenAI_returns_empty_text_without_error :
  llm.OpenAIClient_Generate (H := inputs.json)
    (llm.Response 200 inputs.blankCompletion) = ("", None).
Proof. vm_compute. reflexivity. Qed.

(** What follows from it: the resilient client takes the empty text of the
    primary for a success and never asks the fallback. *)
Lemma blank_OpenAI_answer_stops_the_fallback :
  fst (llm.ResilientClient_Generate llm.Background "prompt"
         (llm.NewResilientClient
            [(llm.OpenAIClient (H := inputs.json)
                (fun _ => llm.Response 200 inputs.blankCompletion), 0%nat);
             (llm.flakyClient "fallback" 0, 0%nat)] 3))
  = (("", None),
     {| llm.clients :=
          [(llm.OpenAIClient (H := inputs.json)
              (fun _ => llm.Response 200 inputs.blankCompletion), 1%nat);
           (llm.flakyClient "fallback" 0, 0%nat)];
        llm.maxRetries := 3 |}).
Proof. reflexivity. Qed.

(** ** C4: target resolution *)

Lemma find_none_all {A} (f : A -> bool) l :
  (forall x, In x l -> f x = false) -> find f l = None.
Proof.
  induction l as [|x l IH]; intros Hall; simpl; [reflexivity|].
  rewrite (Hall x (or_introl eq_refl)). apply IH.
  intros y Hy. apply Hall. right. exact Hy.
Qed.

Lemma find_first_match {A} (f : A -> bool) l1 x l2 :
  (forall y, In y l1 -> f y = false) -> f x = true ->
  find f (l1 ++ x :: l2) = Some x.
Proof.
  induction l1 as [|y l1 IH]; intros Hall Hx; simpl.
  - rewrite Hx. reflexivity.
  - rewrite (Hall y (or_introl eq_refl)). apply IH; [|exact Hx].
    intros z Hz. apply Hall. right. exact Hz.
Qed.

(** C4, as the code has it.  The target is taken from the first changed file,
    and for it the first mapping in declaration order, such that the changed
    path contains the mapping's pattern with its leading and trailing [*]
    removed (a [*] inside the pattern stays: "src/*.go" is matched as the
    literal "src/*.go", "*.go" as ".go"); without such a pair it is the first
    configured doc-file, or "README.md", with the default section. *)
Theorem resolveTarget_first_trimmed_pattern_match
    {G L : Type} (u : orchestrator.Updater G L) (changedFiles : list string) :
  let cfg := orchestrator.Config (orchestrator.deps u) in
  let pattern m := Go.TrimByte (config.CodePattern m) "*"%char in
  (forall before changed after earlier mapping later,
     changedFiles = (before ++ changed :: after)%list ->
     config.Mappings cfg = (earlier ++ mapping :: later)%list ->
     (forall f m, In f before -> In m (config.Mappings cfg) ->
                  Go.Contains f (pattern m) = false) ->
     (forall m, In m earlier -> Go.Contains changed (pattern m) = false) ->
     Go.Contains changed (pattern mapping) = true ->
     orchestrator.resolveTarget u changedFiles
     = (config.DocFile mapping, config.Section mapping))
  /\ ((forall f m, In f changedFiles -> In m (config.Mappings cfg) ->
                   Go.Contains f (pattern m) = false) ->
      orchestrator.resolveTarget u changedFiles
      = (match config.DocFiles cfg with
         | first :: _ => first
         | [] => "README.md"
         end, config.DefaultSection (config.Runtime cfg)))
  /\ Go.TrimByte "src/*.go" "*"%char = "src/*.go"
  /\ Go.TrimByte "*.go" "*"%char = ".go".
Proof.
  intros cfg pattern. split; [|split; [|split; reflexivity]].
  - intros before changed after earlier mapping later -> Hm Hbefore Hearlier
      Hmatch.
    unfold orchestrator.resolveTarget.
    assert (Hres : orchestrator.resolveMapping u (before ++ changed :: after)
                   = Some mapping).
    { clear -Hm Hbefore Hearlier Hmatch.
      induction before as [|f before IH]; cbn [app orchestrator.resolveMapping].
      - fold cfg. rewrite Hm. rewrite find_first_match; auto.
      - rewrite find_none_all.
        + apply IH. intros f' m Hf. apply Hbefore. right. exact Hf.
        + intros m Hin. apply Hbefore; [left; reflexivity | exact Hin]. }
    rewrite Hres. reflexivity.
  - intros Hnone. unfold orchestrator.resolveTarget.
    assert (Hres : orchestrator.resolveMapping u changedFiles = None).
    { induction changedFiles as [|f rest IH]; cbn [orchestrator.resolveMapping];
        [reflexivity|].
      rewrite find_none_all.
      - apply IH. intros f' m Hf. apply Hnone. right. exact Hf.
      - intros m Hin. apply Hnone; [left; reflexivity | exact Hin]. }
    rewrite Hres. fold cfg. destruct (config.DocFiles cfg); reflexivity.
Qed.

(** ** C8: the generation cache *)

Lemma same_key_true c d s p m h r :
  state.same_key c d s p m h r = true <->
  (state.CommitHash r, state.DocFile r, state.SectionID r, state.Provider r,
   state.Model r, state.PromptHash r) = (c, d, s, p, m, h).
Proof.
  unfold state.same_key. rewrite !andb_true_iff, !String.eqb_eq.
  split.
  - intros [[[[[-> ->] ->] ->] ->] ->]. reflexivity.
  - intros [= -> -> -> -> -> ->]. auto 10.
Qed.

Lemma upsert_cache_hit entry rows :
  exists r,
    find (state.same_key (state.CommitHash entry) (state.DocFile entry)
            (state.SectionID entry) (state.Provider entry)
            (state.Model entry) (state.PromptHash entry))
         (state.upsert_cache entry rows) = Some r
    /\ state.Response r = state.Response entry.
Proof.
  induction rows as [|r rest IH]; simpl.
  - assert (Hk : state.same_key (state.CommitHash entry) (state.DocFile entry)
                   (state.SectionID entry) (state.Provider entry)
                   (state.Model entry) (state.PromptHash entry) entry = true)
      by (apply same_key_true; reflexivity).
    rewrite Hk. eauto.
  - destruct (state.same_key _ _ _ _ _ _ r) eqn:E; simpl.
    + apply same_key_true in E. injection E as E1 E2 E3 E4 E5 E6.
      unfold state.same_key. cbn. rewrite E1, E2, E3, E4, E5, E6.
      rewrite !String.eqb_refl. cbn. eauto.
    + rewrite E. exact IH.
Qed.



(** ** C9 and C10: validation *)

Lemma validateGeneratedSection_rejects content :
  orchestrator.validateGeneratedSection content <> None <->
  (Go.TrimSpace content = "" \/ 25000 < Go.strlen (Go.TrimSpace content)).
Proof.
  unfold orchestrator.validateGeneratedSection.
  destruct (String.eqb (Go.TrimSpace content) "") eqn:E.
  - apply String.eqb_eq in E. split; [auto | discriminate].
  - apply String.eqb_neq in E.
    destruct (Go.strlen (Go.TrimSpace content) >? 25000) eqn:E2.
    + split; [|discriminate]. intros _. right. lia.
    + split; [intros Hn; exfalso; apply Hn; reflexivity|].
      intros [Hc | Hc]; [contradiction | lia].
Qed.

Section Validation.
Context `{Platform} {G L : Type} (u : orchestrator.Updater G L).

(** C9, as the code has it.  Validation rejects exactly the contents whose
    text without leading and trailing white space is empty or longer than
    25000 bytes; a rejected text fails the commit with the validation reason,
    marks the planned update "failed" with that reason, and leaves the
    document and the history alone. *)
Theorem validation_rejects_blank_or_oversized_trimmed_text
    ctx runID hash dryRun (w : World G L) st err w' tr text :
  (orchestrator.validateGeneratedSection text <> None <->
   (Go.TrimSpace text = "" \/ 25000 < Go.strlen (Go.TrimSpace text)))
  /\ (orchestrator.processSingleCommit u ctx runID hash dryRun w
      = ((st, err), w', tr) ->
      reaches_validation tr text ->
      forall reason,
      orchestrator.validateGeneratedSection text = Some reason ->
      (st, err) = ("failed", Some reason)
      /\ (exists docFile section planErr,
            ends_with tr [EUpsertPlannedUpdate hash docFile section "inferred"
                                               "failed" reason planErr]
            /\ (planErr = None ->
                plan_marked (db w') hash docFile section "failed"
                            (state.nullIfEmpty reason)))
      /\ no_write tr /\ disk w' = disk w).
Proof.
  split; [apply validateGeneratedSection_rejects|].
  intros Hrun Hreach reason Hrej.
  eapply rejected_content_fails_commit; eassumption.
Qed.

(** C10. A cache hit bypasses the generation client, and the cached text is
    validated like a generated one: when validation rejects it the commit
    fails with the validation reason, the planned update is marked "failed"
    and nothing is written; when validation accepts it, it is the text handed
    to the section updater. *)
Theorem cached_response_is_validated_without_generation
    ctx runID hash dryRun (w : World G L) st err w' tr
    commit docFile section provider model prompt text cacheErr :
  orchestrator.processSingleCommit u ctx runID hash dryRun w
  = ((st, err), w', tr) ->
  In (EGetCachedLLMResponse commit docFile section provider model prompt
                            text true cacheErr) tr ->
  no_generate tr
  /\ (forall reason,
        orchestrator.validateGeneratedSection text = Some reason ->
        (st, err) = ("failed", Some reason)
        /\ (exists docFile' section' planErr,
              ends_with tr [EUpsertPlannedUpdate hash docFile' section'
                              "inferred" "failed" reason planErr])
        /\ no_write tr /\ disk w' = disk w)
  /\ (orchestrator.validateGeneratedSection text = None ->
      exists docRaw updated replaceErr,
        In (EReplaceSection docRaw section text updated replaceErr) tr).
Proof.
  intros Hrun Hin. split; [|split].
  - eapply cache_hit_skips_generation; eassumption.
  - intros reason Hrej.
    destruct (rejected_content_fails_commit u _ _ _ _ _ _ _ _ _ text reason
                Hrun) as (Hres & (d & s & pe & Hend & _) & Hnw & Hdisk).
    + right. do 7 eexists. exact Hin.
    + exact Hrej.
    + split; [exact Hres|]. split; [eauto|]. split; assumption.
  - intros Hok. eapply cache_hit_is_applied; eassumption.
Qed.

End Validation.

(** * The properties on concrete inputs *)

Ltac in_list := cbn [In]; repeat (first [left; reflexivity | right]).

Lemma ends_with_last tr a b d : ends_with tr [a; b] -> last tr d = b.
Proof.
  intros [pre ->].
  replace (pre ++ [a; b])%list with ((pre ++ [a]) ++ [b])%list
    by (rewrite <- app_assoc; reflexivity).
  apply last_last.
Qed.

(** C1 on the repository of the tests: one commit, one success. *)
Lemma summary_accounts_witness :
  Go.len ["c1"] <= Go.max_int
  /\ summary_ok
       (fst (fst (fst (orchestrator.UpdateCommitList (H := fixtures.platform)
                         (fixtures.updaterWith llm.MockClient) llm.Background
                         ["c1"] false (inputs.world0 tt)))))
  /\ summary_ok
       (fst (fst (fst (orchestrator.UpdateNewCommits (H := fixtures.platform)
                         (fixtures.updaterWith llm.MockClient) llm.Background
                         false (inputs.world0 tt)))))
  /\ summary_ok
       (fst (fst (fst (orchestrator.UpdateRangeCommits (H := fixtures.platform)
                         (fixtures.updaterWith llm.MockClient) llm.Background
                         "" "" false (inputs.world0 tt))))).
Proof.
  assert (Hlen : Go.len ["c1"] <= Go.max_int) by (vm_compute; discriminate).
  destruct (summary_accounts_for_every_commit (H := fixtures.platform)
              (fixtures.updaterWith llm.MockClient) llm.Background ["c1"]
              "" "" false (inputs.world0 tt) Hlen) as [Hlist [Hnew Hrange]].
  split; [exact Hlen|]. split; [|split].
  - eapply Hlist. vm_compute. reflexivity.
  - eapply Hnew; [vm_compute; reflexivity|].
    intros resumable commits from to Hr Hc.
    vm_compute in Hr, Hc.
    repeat (destruct Hr as [Hr|Hr]; try discriminate Hr; try contradiction).
    repeat (destruct Hc as [Hc|Hc]; try discriminate Hc; try contradiction).
    injection Hr as <-. injection Hc as _ _ <-.
    vm_compute. discriminate.
  - eapply Hrange; [vm_compute; reflexivity|].
    intros commits from to Hc. vm_compute in Hc.
    repeat (destruct Hc as [Hc|Hc]; try discriminate Hc; try contradiction).
    injection Hc as _ _ <-. vm_compute. discriminate.
Defined.



(** C4 on a configuration with two mappings: the first changed file matches
    none, the second matches the second mapping. *)
Lemma resolveTarget_witness :
  orchestrator.resolveTarget inputs.globUpdater ["notes.txt"; "cmd/main.go"]
  = ("docs/api.md", "API")
  /\ orchestrator.resolveTarget inputs.globUpdater ["notes.txt"]
     = ("README.md", "Recent Changes").
Proof.
  split.
  - destruct (resolveTarget_first_trimmed_pattern_match inputs.globUpdater
                ["notes.txt"; "cmd/main.go"]) as [Hfirst _].
    apply (Hfirst ["notes.txt"] "cmd/main.go" []
             [{| config.CodePattern := "internal/*";
                 config.DocFile := "docs/internal.md";
                 config.Section := "Internals" |}]
             {| config.CodePattern := "*.go"; config.DocFile := "docs/api.md";
                config.Section := "API" |} []).
    + reflexivity.
    + reflexivity.
    + intros f m [<-|[]] [<-|[<-|[]]]; reflexivity.
    + intros m [<-|[]]. reflexivity.
    + reflexivity.
  - destruct (resolveTarget_first_trimmed_pattern_match inputs.globUpdater
                ["notes.txt"]) as [_ [Hnone _]].
    apply Hnone.
    intros f m [<-|[]] [<-|[<-|[]]]; reflexivity.
Defined.

(** C4 as stated fails: the pattern "src/*.go" is not matched as "src/.go". *)
Lemma resolveTarget_keeps_inner_wildcard :
  orchestrator.resolveTarget inputs.mappedUpdater ["src/.go"]
  = ("README.md", "Recent Changes")
  /\ spec.resolveTarget inputs.mappedConfig ["src/.go"] = ("docs/api.md", "API")
  /\ orchestrator.resolveTarget inputs.mappedUpdater ["src/.go"]
     <> spec.resolveTarget inputs.mappedConfig ["src/.go"].
Proof.
  split; [reflexivity|]. split; [reflexivity|].
  vm_compute. discriminate.
Qed.

(** C5 on the repository without its README. *)
Lemma missing_doc_file_witness :
  In (EReadFile "/repo/README.md" ErrNotExist)
     (snd (inputs.run llm.MockClient false inputs.worldNoReadme))
  /\ fst (fst (inputs.run llm.MockClient false inputs.worldNoReadme))
     = ("failed", Some "target doc file not found: README.md")
  /\ no_generate (snd (inputs.run llm.MockClient false inputs.worldNoReadme)).
Proof.
  assert (Hin : In (EReadFile "/repo/README.md" ErrNotExist)
                   (snd (inputs.run llm.MockClient false
                           inputs.worldNoReadme)))
    by (vm_compute; in_list).
  split; [exact Hin|].
  destruct (missing_doc_file_fails_before_generation (H := fixtures.platform)
              (fixtures.updaterWith llm.MockClient) llm.Background "run-1"
              "c1" false inputs.worldNoReadme "failed"
              (Some "target doc file not found: README.md")
              (snd (fst (inputs.run llm.MockClient false
                           inputs.worldNoReadme)))
              (snd (inputs.run llm.MockClient false inputs.worldNoReadme))
              "/repo/README.md" ltac:(vm_compute; reflexivity) Hin)
    as (_ & _ & _ & Hng & _).
  split; [vm_compute; reflexivity | exact Hng].
Defined.

(** C6 when the client answers with text the section already has. *)
Lemma unchanged_document_witness :
  In (EReplaceSection fixtures.readme "Recent Changes" "old" fixtures.readme
                      None)
     (snd (inputs.run (fixtures.cannedClient "old") false (inputs.world0 tt)))
  /\ Go.TrimSpace (doc.NormalizeLineEndings fixtures.readme
                     (doc.DetectLineEnding fixtures.readme))
     = Go.TrimSpace fixtures.readme
  /\ fst (fst (inputs.run (fixtures.cannedClient "old") false
                 (inputs.world0 tt))) = ("skipped", None)
  /\ commit_marked
       (db (snd (fst (inputs.run (fixtures.cannedClient "old") false
                        (inputs.world0 tt))))) "c1" "skipped" [].
Proof.
  assert (Hin : In (EReplaceSection fixtures.readme "Recent Changes" "old"
                      fixtures.readme None)
                   (snd (inputs.run (fixtures.cannedClient "old") false
                           (inputs.world0 tt))))
    by (vm_compute; in_list).
  assert (Heq : Go.TrimSpace (doc.NormalizeLineEndings fixtures.readme
                                (doc.DetectLineEnding fixtures.readme))
                = Go.TrimSpace fixtures.readme)
    by (vm_compute; reflexivity).
  split; [exact Hin|]. split; [exact Heq|].
  destruct (unchanged_document_is_skipped (H := fixtures.platform)
              (fixtures.updaterWith (fixtures.cannedClient "old"))
              llm.Background "run-1" "c1" false (inputs.world0 tt)
              "skipped" None
              (snd (fst (inputs.run (fixtures.cannedClient "old") false
                           (inputs.world0 tt))))
              (snd (inputs.run (fixtures.cannedClient "old") false
                      (inputs.world0 tt)))
              fixtures.readme "Recent Changes" "old" fixtures.readme
              ltac:(vm_compute; reflexivity) Hin Heq)
    as (docFile & planErr & markErr & _ & Hres & _ & Hmark & _).
  split; [reflexivity|].
  apply Hmark. destruct markErr; [discriminate Hres | reflexivity].
Defined.

(** C7 on the repository of the tests, with the mock client. *)
Lemma dry_run_witness :
  fst (fst (inputs.run llm.MockClient true (inputs.world0 tt)))
  = ("success", None)
  /\ disk (snd (fst (inputs.run llm.MockClient true (inputs.world0 tt))))
     = disk (inputs.world0 tt)
  /\ commit_marked
       (db (snd (fst (inputs.run llm.MockClient true (inputs.world0 tt)))))
       "c1" "success" ["README.md"].
Proof.
  destruct (dry_run_reports_without_writing (H := fixtures.platform)
              (fixtures.updaterWith llm.MockClient) llm.Background "run-1"
              "c1" (inputs.world0 tt) "success" None
              (snd (fst (inputs.run llm.MockClient true (inputs.world0 tt))))
              (snd (inputs.run llm.MockClient true (inputs.world0 tt)))
              ltac:(vm_compute; reflexivity))
    as (_ & Hdisk & Hchange).
  split; [reflexivity|]. split; [exact Hdisk|].
  destruct (Hchange fixtures.readme "Recent Changes" inputs.mockAnswer
              inputs.mockUpdated)
    as (docFile & planErr & markErr & Hend & Hres & _ & Hmark).
  - vm_compute. in_list.
  - vm_compute. discriminate.
  - pose proof (ends_with_last _ _ _ (EGetRepoRoot "" None) Hend) as Hlast.
    vm_compute in Hlast. injection Hlast as <- <-.
    apply Hmark. reflexivity.
Defined.


(** C9 when the client answers with blanks. *)
Lemma validation_witness :
  reaches_validation
    (snd (inputs.run (fixtures.cannedClient "   ") false (inputs.world0 tt)))
    "   "
  /\ orchestrator.validateGeneratedSection "   "
     = Some "generated section content is empty"
  /\ fst (fst (inputs.run (fixtures.cannedClient "   ") false
                 (inputs.world0 tt)))
     = ("failed", Some "generated section content is empty")
  /\ disk (snd (fst (inputs.run (fixtures.cannedClient "   ") false
                       (inputs.world0 tt))))
     = disk (inputs.world0 tt).
Proof.
  assert (Hreach : reaches_validation
            (snd (inputs.run (fixtures.cannedClient "   ") false
                    (inputs.world0 tt))) "   ").
  { left. exists inputs.prompt1. vm_compute. in_list. }
  split; [exact Hreach|]. split; [reflexivity|].
  destruct (validation_rejects_blank_or_oversized_trimmed_text
              (H := fixtures.platform)
              (fixtures.updaterWith (fixtures.cannedClient "   "))
              llm.Background "run-1" "c1" false (inputs.world0 tt)
              "failed" (Some "generated section content is empty")
              (snd (fst (inputs.run (fixtures.cannedClient "   ") false
                           (inputs.world0 tt))))
              (snd (inputs.run (fixtures.cannedClient "   ") false
                      (inputs.world0 tt))) "   ") as [_ Hpipe].
  destruct (Hpipe ltac:(vm_compute; reflexivity) Hreach
              "generated section content is empty" eq_refl)
    as (Hres & _ & _ & Hdisk).
  split; [exact Hres | exact Hdisk].
Defined.

(** C9 as stated fails: a text of 25001 bytes that ends in two spaces is
    accepted. *)
Lemma validation_accepts_padded_long_text :
  Go.strlen inputs.paddedText = 25001
  /\ orchestrator.validateGeneratedSection inputs.paddedText = None
  /\ spec.rejects inputs.paddedText = true.
Proof. vm_compute. repeat split. Qed.

(** C10 on a store whose cache holds a blank answer. *)
Lemma cached_response_witness :
  In (EGetCachedLLMResponse "c1" "README.md" "Recent Changes" "canned"
        "gpt-4o-mini" inputs.prompt1 "   " true None)
     (snd (inputs.run (fixtures.cannedClient "ignored") false
             inputs.worldBlankCached))
  /\ no_generate (snd (inputs.run (fixtures.cannedClient "ignored") false
                         inputs.worldBlankCached))
  /\ fst (fst (inputs.run (fixtures.cannedClient "ignored") false
                 inputs.worldBlankCached))
     = ("failed", Some "generated section content is empty").
Proof.
  assert (Hin : In (EGetCachedLLMResponse "c1" "README.md" "Recent Changes"
                      "canned" "gpt-4o-mini" inputs.prompt1 "   " true None)
                   (snd (inputs.run (fixtures.cannedClient "ignored") false
                           inputs.worldBlankCached)))
    by (vm_compute; in_list).
  split; [exact Hin|].
  destruct (cached_response_is_validated_without_generation
              (H := fixtures.platform)
              (fixtures.updaterWith (fixtures.cannedClient "ignored"))
              llm.Background "run-1" "c1" false inputs.worldBlankCached
              "failed" (Some "generated section content is empty")
              (snd (fst (inputs.run (fixtures.cannedClient "ignored") false
                           inputs.worldBlankCached)))
              (snd (inputs.run (fixtures.cannedClient "ignored") false
                      inputs.worldBlankCached))
              "c1" "README.md" "Recent Changes" "canned" "gpt-4o-mini"
              inputs.prompt1 "   " None ltac:(vm_compute; reflexivity) Hin)
    as (Hng & Hrej & _).
  split; [exact Hng|].
  destruct (Hrej "generated section content is empty" eq_refl) as [Hres _].
  exact Hres.
Defined.

(** * Further properties *)

(** * More of the store *)

(** ** One row per commit *)

Lemma commit_row_upsert_other row rows commitHash :
  commitHash <> state.commit_hash row ->
  find (fun r => String.eqb (state.commit_hash r) commitHash)
       (state.upsert_commit row rows)
  = find (fun r => String.eqb (state.commit_hash r) commitHash) rows.
Proof.
  intros Hne. induction rows as [|r rest IH]; simpl.
  - destruct (String.eqb (state.commit_hash row) commitHash) eqn:E;
      [apply String.eqb_eq in E; congruence | reflexivity].
  - destruct (String.eqb (state.commit_hash r) (state.commit_hash row)) eqn:E;
      simpl.
    + apply String.eqb_eq in E.
      destruct (String.eqb (state.commit_hash row) commitHash) eqn:E1;
        [apply String.eqb_eq in E1; congruence|].
      destruct (String.eqb (state.commit_hash r) commitHash) eqn:E2;
        [apply String.eqb_eq in E2; congruence | reflexivity].
    + destruct (String.eqb (state.commit_hash r) commitHash);
        [reflexivity | exact IH].
Qed.

Lemma upsert_commit_hashes row rows :
  (In (state.commit_hash row) (map state.commit_hash rows) ->
   map state.commit_hash (state.upsert_commit row rows)
   = map state.commit_hash rows)
  /\ (~ In (state.commit_hash row) (map state.commit_hash rows) ->
      map state.commit_hash (state.upsert_commit row rows)
      = (map state.commit_hash rows ++ [state.commit_hash row])%list).
Proof.
  induction rows as [|r rest [IHin IHout]]; simpl.
  - split; [contradiction | reflexivity].
  - destruct (String.eqb (state.commit_hash r) (state.commit_hash row)) eqn:E.
    + apply String.eqb_eq in E. simpl. split.
      * intros _. rewrite E. reflexivity.
      * intros Hn. exfalso. apply Hn. left. exact E.
    + apply String.eqb_neq in E. simpl. split.
      * intros [Heq|Hin]; [contradiction|]. rewrite IHin by exact Hin.
        reflexivity.
      * intros Hn. rewrite IHout; [reflexivity|].
        intros Hin. apply Hn. right. exact Hin.
Qed.

Lemma MarkCommitProcessed_keeps_one_row_per_commit_aux
    (d d' : state.DB) fault now commitHash status errText docCommit
    filesChanged (err : error) :
  state.MarkCommitProcessed d fault now commitHash status errText docCommit
                            filesChanged = (err, d') ->
  NoDup (map state.commit_hash (state.processed_commits d)) ->
  NoDup (map state.commit_hash (state.processed_commits d'))
  /\ (forall other, other <> commitHash ->
        commit_row d' other = commit_row d other).
Proof.
  unfold state.MarkCommitProcessed.
  destruct fault as [e|]; [|destruct (state.status_check status)];
    intros [= <- <-] Hnd; try (split; auto).
  - set (row := {| state.commit_hash := commitHash;
                   state.processed_at := now; state.status := status;
                   state.error_text := state.nullIfEmpty errText;
                   state.doc_commit_hash := state.nullIfEmpty docCommit;
                   state.doc_files_changed := _ |}).
    cbn [state.processed_commits].
    destruct (upsert_commit_hashes row (state.processed_commits d))
      as [Hin Hout].
    destruct (in_dec string_dec (state.commit_hash row)
                (map state.commit_hash (state.processed_commits d)))
      as [Hi|Hn].
    + rewrite (Hin Hi). exact Hnd.
    + rewrite (Hout Hn). apply NoDup_app;
        [exact Hnd | repeat constructor; auto |].
      intros x Hx [<-|[]]. exact (Hn Hx).
  - intros other Hne. unfold commit_row. cbn [state.processed_commits].
    apply commit_row_upsert_other. exact Hne.
Qed.


(** X1. [MarkCommitProcessed] keeps one row per commit: it changes or adds
    only the row of its commit, never removes a row, leaves every other
    commit's row as it was, and changes nothing when it fails. *)
Theorem MarkCommitProcessed_keeps_one_row_per_commit
    (d d' : state.DB) fault now commitHash status errText docCommit
    filesChanged (err : error) :
  state.MarkCommitProcessed d fault now commitHash status errText docCommit
                            filesChanged = (err, d') ->
  NoDup (map state.commit_hash (state.processed_commits d)) ->
  NoDup (map state.commit_hash (state.processed_commits d'))
  /\ (forall other, other <> commitHash ->
        commit_row d' other = commit_row d other)
  /\ (forall h, In h (map state.commit_hash (state.processed_commits d)) ->
                In h (map state.commit_hash (state.processed_commits d')))
  /\ (List.length (state.processed_commits d')
      <= S (List.length (state.processed_commits d)))%nat
  /\ (err <> None -> d' = d).
Proof.
  unfold state.MarkCommitProcessed.
  destruct fault as [e|]; [|destruct (state.status_check status)];
    intros [= <- <-] Hnd;
    try (repeat split; auto; discriminate).
  set (row := {| state.commit_hash := commitHash; state.processed_at := now;
                 state.status := status;
                 state.error_text := state.nullIfEmpty errText;
                 state.doc_commit_hash := state.nullIfEmpty docCommit;
                 state.doc_files_changed := _ |}).
  cbn [state.processed_commits].
  destruct (upsert_commit_hashes row (state.processed_commits d))
    as [Hin Hout].
  destruct (in_dec string_dec (state.commit_hash row)
              (map state.commit_hash (state.processed_commits d)))
    as [Hi|Hn].
  - specialize (Hin Hi). repeat split.
    + rewrite Hin. exact Hnd.
    + intros other Hne. unfold commit_row. cbn [state.processed_commits].
      apply commit_row_upsert_other. exact Hne.
    + intros h Hh. rewrite Hin. exact Hh.
    + apply (f_equal (@List.length string)) in Hin.
      rewrite !length_map in Hin. lia.
    + intros Hc. exfalso. apply Hc. reflexivity.
  - specialize (Hout Hn). repeat split.
    + rewrite Hout. apply NoDup_app; [exact Hnd | repeat constructor; auto |].
      intros x Hx [<-|[]]. exact (Hn Hx).
    + intros other Hne. unfold commit_row. cbn [state.processed_commits].
      apply commit_row_upsert_other. exact Hne.
    + intros h Hh. rewrite Hout. apply in_or_app. left. exact Hh.
    + apply (f_equal (@List.length string)) in Hout.
      rewrite length_app, !length_map in Hout. simpl in Hout. lia.
    + intros Hc. exfalso. apply Hc. reflexivity.
Qed.

(** X2. The documentation commit recorded with a commit is the one
    [GetDocCommitHash] returns for it; a commit without a row, or marked
    without a documentation commit, gives the empty hash and no error. *)
Theorem GetDocCommitHash_round_trip
    (d d' : state.DB) now commitHash status errText docCommit filesChanged :
  state.MarkCommitProcessed d None now commitHash status errText docCommit
                            filesChanged = (None, d') ->
  state.GetDocCommitHash d' None commitHash = (docCommit, None)
  /\ (forall other, other <> commitHash ->
        state.GetDocCommitHash d' None other
        = state.GetDocCommitHash d None other)
  /\ (forall other, commit_row d other = None ->
        state.GetDocCommitHash d None other = ("", None)).
Proof.
  unfold state.MarkCommitProcessed.
  destruct (state.status_check status); [|discriminate].
  intros [= <-]. unfold state.GetDocCommitHash. cbn [state.processed_commits].
  split; [|split].
  - rewrite (upsert_commit_finds
               {| state.commit_hash := commitHash; state.processed_at := now;
                  state.status := status;
                  state.error_text := state.nullIfEmpty errText;
                  state.doc_commit_hash := state.nullIfEmpty docCommit;
                  state.doc_files_changed := _ |}).
    cbn. unfold state.nullIfEmpty.
    destruct (String.eqb docCommit "") eqn:E; [|reflexivity].
    apply String.eqb_eq in E. subst. reflexivity.
  - intros other Hne. rewrite commit_row_upsert_other by exact Hne.
    reflexivity.
  - intros other Hnone. unfold commit_row in Hnone. rewrite Hnone.
    reflexivity.
Qed.

(** ** Ordered queries *)

Lemma insert_by_time_sorted r sorted :
  Sorted older sorted -> Sorted older (state.insert_by_time r sorted).
Proof.
  induction sorted as [|x rest IH]; intros Hs; simpl.
  - repeat constructor.
  - destruct (state.processed_at r <? state.processed_at x) eqn:E.
    + apply Z.ltb_lt in E. constructor; [exact Hs|].
      constructor. unfold older. lia.
    + apply Z.ltb_ge in E. inversion Hs as [|? ? Hrest Hhd]; subst.
      constructor; [apply IH; exact Hrest|].
      destruct rest as [|y rest']; simpl.
      * constructor. exact E.
      * destruct (state.processed_at r <? state.processed_at y);
          constructor; [exact E|].
        inversion Hhd; subst. assumption.
Qed.

Lemma insert_by_time_perm r sorted :
  Permutation (r :: sorted) (state.insert_by_time r sorted).
Proof.
  induction sorted as [|x rest IH]; simpl; [reflexivity|].
  destruct (state.processed_at r <? state.processed_at x); [reflexivity|].
  rewrite perm_swap. constructor. exact IH.
Qed.

Lemma order_by_time_spec rows :
  Sorted older (state.order_by_time rows)
  /\ Permutation rows (state.order_by_time rows).
Proof.
  unfold state.order_by_time.
  assert (Hgen : forall acc,
    Sorted older acc ->
    Sorted older (fold_left (fun acc r => state.insert_by_time r acc) rows acc)
    /\ Permutation (rows ++ acc)
         (fold_left (fun acc r => state.insert_by_time r acc) rows acc)).
  { induction rows as [|r rest IH]; intros acc Hacc; simpl.
    - split; [exact Hacc | reflexivity].
    - destruct (IH (state.insert_by_time r acc)
                  (insert_by_time_sorted r acc Hacc)) as [Hs Hp].
      split; [exact Hs|].
      rewrite <- Hp. rewrite <- insert_by_time_perm.
      apply Permutation_middle. }
  destruct (Hgen [] ltac:(constructor)) as [Hs Hp].
  rewrite app_nil_r in Hp. split; assumption.
Qed.

(** X3. [GetResumableCommits], [GetRetryableCommits] and [GetFailedCommits]
    return exactly the commits in their statuses, each row once, oldest
    first. *)
Theorem status_queries_are_oldest_first (d : state.DB) :
  selected_oldest_first d
    (fun r => String.eqb (state.status r) "pending"
              || String.eqb (state.status r) "in_progress")
    (fst (state.GetResumableCommits d None))
  /\ selected_oldest_first d
       (fun r => String.eqb (state.status r) "failed"
                 || String.eqb (state.status r) "in_progress")
       (fst (state.GetRetryableCommits d None))
  /\ selected_oldest_first d
       (fun r => String.eqb (state.status r) "failed")
       (fst (state.GetFailedCommits d None)).
Proof.
  unfold selected_oldest_first, state.GetResumableCommits,
    state.GetRetryableCommits, state.GetFailedCommits. cbn [fst].
  repeat split; eexists; (split; [reflexivity|]); apply order_by_time_spec.
Qed.

Lemma latest_spec rows :
  match state.latest rows with
  | None => rows = []
  | Some r =>
      In r rows
      /\ forall r', In r' rows -> state.processed_at r' <= state.processed_at r
  end.
Proof.
  induction rows as [|r rest IH]; simpl; [reflexivity|].
  destruct (state.latest rest) as [x|].
  - destruct IH as [Hin Hmax].
    destruct (state.processed_at r <? state.processed_at x) eqn:E.
    + apply Z.ltb_lt in E. split; [right; exact Hin|].
      intros r' [<-|Hr']; [lia | apply Hmax; exact Hr'].
    + apply Z.ltb_ge in E. split; [left; reflexivity|].
      intros r' [<-|Hr']; [lia | specialize (Hmax r' Hr'); lia].
  - subst rest. split; [left; reflexivity|].
    intros r' [<-|[]]. lia.
Qed.

(** X4. [GetLastProcessedCommit] returns the empty hash when no commit has
    status success, and otherwise a successful commit that no successful
    commit is later than. *)
Theorem GetLastProcessedCommit_is_latest_success (d : state.DB) :
  ((forall r, In r (state.processed_commits d) ->
              state.status r <> "success") ->
   state.GetLastProcessedCommit d None = ("", None))
  /\ forall h,
       state.GetLastProcessedCommit d None = (h, None) ->
       h <> "" ->
       exists r, In r (state.processed_commits d)
         /\ state.commit_hash r = h /\ state.status r = "success"
         /\ forall r', In r' (state.processed_commits d) ->
                       state.status r' = "success" ->
                       state.processed_at r' <= state.processed_at r.
Proof.
  unfold state.GetLastProcessedCommit.
  pose proof (latest_spec
                (filter (fun r => String.eqb (state.status r) "success")
                        (state.processed_commits d))) as Hl.
  destruct (state.latest _) as [r|].
  - destruct Hl as [Hin Hmax]. apply filter_In in Hin.
    destruct Hin as [Hin Hst]. apply String.eqb_eq in Hst. split.
    + intros Hnone. exfalso. exact (Hnone r Hin Hst).
    + intros h [= <-] _. exists r. repeat split; try assumption.
      intros r' Hr' Hs'. apply Hmax. apply filter_In. split; [exact Hr'|].
      apply String.eqb_eq. exact Hs'.
  - split; [reflexivity|]. intros h [= <-] Hne. contradiction.
Qed.

(** ** Counting *)

Lemma len_filter_cons {A} (f : A -> bool) r rows :
  Go.len (filter f (r :: rows))
  = (if f r then 1 else 0) + Go.len (filter f rows).
Proof.
  unfold Go.len. simpl. destruct (f r); cbn [List.length]; lia.
Qed.

Lemma one_status (s : string) :
  state.status_check s = true ->
  (if String.eqb s "pending" then 1 else 0)
  + (if String.eqb s "in_progress" then 1 else 0)
  + (if String.eqb s "success" then 1 else 0)
  + (if String.eqb s "failed" then 1 else 0)
  + (if String.eqb s "skipped" then 1 else 0) = 1.
Proof.
  unfold state.status_check. intros Hc.
  destruct (String.eqb s "pending") eqn:E1;
    [apply String.eqb_eq in E1; subst; reflexivity|].
  destruct (String.eqb s "in_progress") eqn:E2;
    [apply String.eqb_eq in E2; subst; reflexivity|].
  destruct (String.eqb s "success") eqn:E3;
    [apply String.eqb_eq in E3; subst; reflexivity|].
  destruct (String.eqb s "failed") eqn:E4;
    [apply String.eqb_eq in E4; subst; reflexivity|].
  destruct (String.eqb s "skipped") eqn:E5;
    [apply String.eqb_eq in E5; subst; reflexivity|].
  discriminate Hc.
Qed.

Lemma status_counts_partition rows :
  Forall (fun r => state.status_check (state.status r) = true) rows ->
  let count s :=
    Go.len (filter (fun r => String.eqb (state.status r) s) rows) in
  count "pending" + count "in_progress" + count "success" + count "failed"
  + count "skipped" = Go.len rows
  /\ 0 <= count "pending" /\ 0 <= count "in_progress"
  /\ 0 <= count "success" /\ 0 <= count "failed" /\ 0 <= count "skipped".
Proof.
  intros Hall. cbn zeta. induction Hall as [|r rows Hr _ IH].
  - unfold Go.len. simpl. lia.
  - rewrite !len_filter_cons. pose proof (one_status _ Hr) as Hone.
    replace (Go.len (r :: rows)) with (1 + Go.len rows)
      by (unfold Go.len; cbn [List.length]; lia).
    destruct (String.eqb (state.status r) "pending");
      destruct (String.eqb (state.status r) "in_progress");
      destruct (String.eqb (state.status r) "success");
      destruct (String.eqb (state.status r) "failed");
      destruct (String.eqb (state.status r) "skipped"); lia.
Qed.

(** X5. On a table whose rows all pass the status check, [GetStatusCounts]
    counts every row once: no counter is negative and [Total] is the number
    of rows. *)
Theorem GetStatusCounts_counts_every_row (d : state.DB) :
  Forall (fun r => state.status_check (state.status r) = true)
         (state.processed_commits d) ->
  Go.len (state.processed_commits d) <= Go.max_int ->
  let counts := fst (state.GetStatusCounts d None) in
  snd (state.GetStatusCounts d None) = None
  /\ state.Total counts = Go.len (state.processed_commits d)
  /\ state.Total counts
     = state.Pending counts + state.InProgress counts + state.Success counts
       + state.Failed counts + state.Skipped counts
  /\ 0 <= state.Pending counts /\ 0 <= state.InProgress counts
  /\ 0 <= state.Success counts /\ 0 <= state.Failed counts
  /\ 0 <= state.Skipped counts.
Proof.
  intros Hvalid Hlen.
  destruct (status_counts_partition _ Hvalid)
    as (Hsum & H1 & H2 & H3 & H4 & H5).
  cbn zeta in Hsum.
  unfold state.GetStatusCounts, state.countStatus.
  cbn [fst snd state.Total state.Pending state.InProgress state.Success
       state.Failed state.Skipped].
  set (p := Go.len (filter (fun r => String.eqb (state.status r) "pending")
                           _)) in *.
  set (i := Go.len (filter (fun r => String.eqb (state.status r)
                                                "in_progress") _)) in *.
  set (s := Go.len (filter (fun r => String.eqb (state.status r) "success")
                           _)) in *.
  set (f := Go.len (filter (fun r => String.eqb (state.status r) "failed")
                           _)) in *.
  set (k := Go.len (filter (fun r => String.eqb (state.status r) "skipped")
                           _)) in *.
  assert (Hmin : Go.min_int <= 0) by (unfold Go.min_int; lia).
  rewrite (wrap64_small (p + i)) by lia.
  rewrite (wrap64_small (p + i + s)) by lia.
  rewrite (wrap64_small (p + i + s + f)) by lia.
  rewrite (wrap64_small (p + i + s + f + k)) by lia.
  repeat split; try assumption; lia.
Qed.

Lemma upsert_commit_Forall (P : state.ProcessedCommit -> Prop) row rows :
  P row -> Forall P rows -> Forall P (state.upsert_commit row rows).
Proof.
  intros Hrow Hall. induction Hall as [|r rest Hr Hrest IH]; simpl.
  - repeat constructor. exact Hrow.
  - destruct (String.eqb (state.commit_hash r) (state.commit_hash row));
      constructor; assumption.
Qed.

(** The status check holds on every table the store writes:
    [MarkCommitProcessed] keeps it. *)
Lemma MarkCommitProcessed_keeps_status_check
    (d d' : state.DB) fault now commitHash status errText docCommit
    filesChanged err :
  state.MarkCommitProcessed d fault now commitHash status errText docCommit
                            filesChanged = (err, d') ->
  Forall (fun r => state.status_check (state.status r) = true)
         (state.processed_commits d) ->
  Forall (fun r => state.status_check (state.status r) = true)
         (state.processed_commits d').
Proof.
  unfold state.MarkCommitProcessed.
  destruct fault; [intros [= <- <-]; auto|].
  destruct (state.status_check status) eqn:Hc; intros [= <- <-]; auto.
  cbn [state.processed_commits]. intros Hall.
  apply upsert_commit_Forall; [exact Hc | exact Hall].
Qed.

(** ** Upserts keep their keys unique *)




Lemma same_plan_key c f s r :
  state.same_plan c f s r = true <-> plan_key r = (c, f, s).
Proof.
  unfold state.same_plan, plan_key.
  rewrite !andb_true_iff, !String.eqb_eq. split.
  - intros [[-> ->] ->]. reflexivity.
  - intros [= -> -> ->]. auto.
Qed.

Lemma upsert_plan_spec now c f s strategy status reason rows :
  (forall old,
     find (state.same_plan c f s) rows = Some old ->
     find (state.same_plan c f s)
          (state.upsert_plan now c f s strategy status reason rows)
     = Some {| state.pu_commit_hash := c; state.pu_doc_file := f;
               state.pu_section_id := s; state.pu_strategy := strategy;
               state.pu_status := status; state.pu_reason := reason;
               state.pu_created_at := state.pu_created_at old;
               state.pu_updated_at := now |}
     /\ map plan_key (state.upsert_plan now c f s strategy status reason rows)
        = map plan_key rows)
  /\ (find (state.same_plan c f s) rows = None ->
      find (state.same_plan c f s)
           (state.upsert_plan now c f s strategy status reason rows)
      = Some {| state.pu_commit_hash := c; state.pu_doc_file := f;
                state.pu_section_id := s; state.pu_strategy := strategy;
                state.pu_status := status; state.pu_reason := reason;
                state.pu_created_at := now; state.pu_updated_at := now |}
      /\ map plan_key (state.upsert_plan now c f s strategy status reason rows)
         = (map plan_key rows ++ [(c, f, s)])%list)
  /\ forall c' f' s', (c', f', s') <> (c, f, s) ->
       find (state.same_plan c' f' s')
            (state.upsert_plan now c f s strategy status reason rows)
       = find (state.same_plan c' f' s') rows.
Proof.
  assert (Hself : forall created updated,
    state.same_plan c f s
      {| state.pu_commit_hash := c; state.pu_doc_file := f;
         state.pu_section_id := s; state.pu_strategy := strategy;
         state.pu_status := status; state.pu_reason := reason;
         state.pu_created_at := created; state.pu_updated_at := updated |}
    = true).
  { intros. apply same_plan_key. reflexivity. }
  assert (Hother : forall c' f' s' created updated,
    (c', f', s') <> (c, f, s) ->
    state.same_plan c' f' s'
      {| state.pu_commit_hash := c; state.pu_doc_file := f;
         state.pu_section_id := s; state.pu_strategy := strategy;
         state.pu_status := status; state.pu_reason := reason;
         state.pu_created_at := created; state.pu_updated_at := updated |}
    = false).
  { intros c' f' s' created updated Hne.
    destruct (state.same_plan c' f' s' _) eqn:E; [|reflexivity].
    apply same_plan_key in E. unfold plan_key in E. cbn in E.
    exfalso. apply Hne. symmetry. exact E. }
  induction rows as [|r rest (IHold & IHnew & IHother)]; simpl.
  - split; [discriminate|]. split.
    + intros _. rewrite Hself. split; reflexivity.
    + intros c' f' s' Hne. rewrite Hother by exact Hne. reflexivity.
  - destruct (state.same_plan c f s r) eqn:E; simpl.
    + rewrite Hself. split; [|split].
      * intros old [= <-]. split; [reflexivity|].
        apply same_plan_key in E. unfold plan_key at 1. cbn. rewrite E.
        reflexivity.
      * discriminate.
      * intros c' f' s' Hne. rewrite Hother by exact Hne.
        destruct (state.same_plan c' f' s' r) eqn:E'; [|reflexivity].
        apply same_plan_key in E, E'. congruence.
    + rewrite E. split; [|split].
      * intros old Hold. destruct (IHold old Hold) as [-> ->].
        split; reflexivity.
      * intros Hnone. destruct (IHnew Hnone) as [-> ->]. split; reflexivity.
      * intros c' f' s' Hne. rewrite (IHother c' f' s' Hne). reflexivity.
Qed.

(** X7. [UpsertPlannedUpdate] keeps one row per (commit, doc-file, section):
    planning a target again rewrites strategy, status, reason and update time
    of its row and keeps the creation time; a new target gets a new row; the
    rows of other targets are not touched. *)
Theorem UpsertPlannedUpdate_updates_in_place
    (d d' : state.DB) now commitHash docFile sectionID strategy status reason :
  state.UpsertPlannedUpdate d None now commitHash docFile sectionID strategy
                            status reason = (None, d') ->
  (exists row,
     plan_row d' commitHash docFile sectionID = Some row
     /\ state.pu_strategy row = strategy /\ state.pu_status row = status
     /\ state.pu_reason row = state.nullIfEmpty reason
     /\ state.pu_updated_at row = now
     /\ state.pu_created_at row
        = match plan_row d commitHash docFile sectionID with
          | Some old => state.pu_created_at old
          | None => now
          end)
  /\ map plan_key (state.planned_updates d')
     = match plan_row d commitHash docFile sectionID with
       | Some _ => map plan_key (state.planned_updates d)
       | None => (map plan_key (state.planned_updates d)
                  ++ [(commitHash, docFile, sectionID)])%list
       end
  /\ forall c f s, (c, f, s) <> (commitHash, docFile, sectionID) ->
       plan_row d' c f s = plan_row d c f s.
Proof.
  unfold state.UpsertPlannedUpdate. intros [= <-].
  unfold plan_row. cbn [state.planned_updates].
  destruct (upsert_plan_spec now commitHash docFile sectionID strategy status
              (state.nullIfEmpty reason) (state.planned_updates d))
    as (Hold & Hnew & Hother).
  destruct (find (state.same_plan commitHash docFile sectionID)
                 (state.planned_updates d)) as [old|] eqn:E.
  - destruct (Hold old eq_refl) as [Hf Hk]. split; [|split].
    + eexists. split; [exact Hf|]. cbn. auto 10.
    + exact Hk.
    + exact Hother.
  - destruct (Hnew eq_refl) as [Hf Hk]. split; [|split].
    + eexists. split; [exact Hf|]. cbn. auto 10.
    + exact Hk.
    + exact Hother.
Qed.

(** ** Recent rows *)






(** ** Resuming *)

Lemma NoDup_commit_row rows r :
  NoDup (map state.commit_hash rows) -> In r rows ->
  find (fun x => String.eqb (state.commit_hash x) (state.commit_hash r)) rows
  = Some r.
Proof.
  induction rows as [|x rest IH]; intros Hnd Hin; [contradiction|].
  simpl in Hnd. inversion Hnd as [|? ? Hnot Hrest]; subst. simpl.
  destruct Hin as [->|Hin].
  - rewrite String.eqb_refl. reflexivity.
  - destruct (String.eqb (state.commit_hash x) (state.commit_hash r)) eqn:E.
    + apply String.eqb_eq in E. exfalso. apply Hnot. rewrite E.
      apply in_map. exact Hin.
    + apply IH; assumption.
Qed.

Lemma in_resumable (d : state.DB) h :
  NoDup (map state.commit_hash (state.processed_commits d)) ->
  In h (fst (state.GetResumableCommits d None))
  <-> exists r, commit_row d h = Some r /\ resumable (state.status r) = true.
Proof.
  intros Hnd. unfold state.GetResumableCommits. cbn [fst].
  destruct (order_by_time_spec
              (filter (fun r => String.eqb (state.status r) "pending"
                                || String.eqb (state.status r) "in_progress")
                      (state.processed_commits d))) as [_ Hp].
  rewrite in_map_iff. split.
  - intros (r & <- & Hr).
    apply (Permutation_in _ (Permutation_sym Hp)) in Hr.
    apply filter_In in Hr. destruct Hr as [Hin Hst].
    exists r. split; [apply NoDup_commit_row; assumption | exact Hst].
  - intros (r & Hrow & Hst). unfold commit_row in Hrow.
    pose proof (find_some _ _ Hrow) as [Hin Heq].
    apply String.eqb_eq in Heq. exists r. split; [exact Heq|].
    apply (Permutation_in _ Hp). apply filter_In. split; assumption.
Qed.

(** X9. On a table with one row per commit, a commit is resumable right
    after [MarkCommitProcessed] exactly when the status it was given is
    pending or in_progress, and marking it changes no other commit's
    place in [GetResumableCommits]. *)
Theorem marked_commit_is_resumable_iff_unfinished
    (d d' : state.DB) now commitHash status errText docCommit filesChanged :
  state.MarkCommitProcessed d None now commitHash status errText docCommit
                            filesChanged = (None, d') ->
  NoDup (map state.commit_hash (state.processed_commits d)) ->
  (In commitHash (fst (state.GetResumableCommits d' None))
   <-> status = "pending" \/ status = "in_progress")
  /\ forall other, other <> commitHash ->
       (In other (fst (state.GetResumableCommits d' None))
        <-> In other (fst (state.GetResumableCommits d None))).
Proof.
  intros Hmark Hnd.
  destruct (MarkCommitProcessed_keeps_one_row_per_commit_aux _ _ _ _ _ _ _ _ _
              _ Hmark Hnd) as (Hnd' & Hother).
  split.
  - rewrite (in_resumable d' commitHash Hnd').
    revert Hmark. unfold state.MarkCommitProcessed.
    destruct (state.status_check status); [|discriminate].
    intros [= <-]. unfold commit_row. cbn [state.processed_commits].
    rewrite (upsert_commit_finds
               {| state.commit_hash := commitHash; state.processed_at := now;
                  state.status := status;
                  state.error_text := state.nullIfEmpty errText;
                  state.doc_commit_hash := state.nullIfEmpty docCommit;
                  state.doc_files_changed := _ |}).
    unfold resumable. split.
    + intros (r & [= <-] & Hst). cbn in Hst.
      apply orb_true_iff in Hst. rewrite !String.eqb_eq in Hst. exact Hst.
    + intros Hst. eexists. split; [reflexivity|]. cbn.
      apply orb_true_iff. rewrite !String.eqb_eq. exact Hst.
  - intros other Hne.
    rewrite (in_resumable d' other Hnd'), (in_resumable d other Hnd).
    rewrite (Hother other Hne). reflexivity.
Qed.

(** * More of the pipeline *)

Section MoreFrames.
Context {G L : Type}.

Lemma syscall_db (w : World G L) : db (snd (syscall w)) = db w.
Proof. unfold syscall. destruct (script w); reflexivity. Qed.

Lemma query_db {A} (op : state.DB -> error -> A) (w : World G L) a w' :
  query op w = (a, w') -> db w' = db w.
Proof.
  unfold query. pose proof (syscall_db w) as Hd.
  destruct (syscall w) as [f w1]. intros [= <- <-]. exact Hd.
Qed.

Lemma on_git_db {A} (op : G -> A * G) (w : World G L) a w' :
  on_git op w = (a, w') -> db w' = db w.
Proof. unfold on_git. destruct (op _). intros [= <- <-]. reflexivity. Qed.

Lemma on_llm_db {A} (op : L -> A * L) (w : World G L) a w' :
  on_llm op w = (a, w') -> db w' = db w.
Proof. unfold on_llm. destruct (op _). intros [= <- <-]. reflexivity. Qed.

Lemma os_ReadFile_db path (w : World G L) a w' :
  os_ReadFile path w = (a, w') -> db w' = db w.
Proof.
  unfold os_ReadFile. pose proof (syscall_db w) as Hd.
  destruct (syscall w) as [f w1].
  destruct f; [|destruct (lookup _ _)]; intros [= <- <-]; exact Hd.
Qed.

Lemma abandon_same what e (w : World G L) r w' :
  abandon what e w = (r, w') ->
  r <> None /\ db w' = db w /\ disk w' = disk w.
Proof.
  unfold abandon.
  pose proof (syscall_db w) as Hd1. pose proof (syscall_disk w) as Hk1.
  destruct (syscall w) as [c w1].
  pose proof (syscall_db w1) as Hd2. pose proof (syscall_disk w1) as Hk2.
  destruct (syscall w1) as [x w2]. simpl in *.
  destruct c; intros [= <- <-]; (split; [discriminate|]); split; congruence.
Qed.

(** A failed atomic write leaves every file as it was; a successful one
    changes the target and nothing else. *)
Lemma doc_AtomicWriteFile_spec path content (w : World G L) r w' :
  doc_AtomicWriteFile path content w = (r, w') ->
  db w' = db w
  /\ (r <> None -> disk w' = disk w)
  /\ (r = None -> disk w' = store path content (disk w)).
Proof.
  unfold doc_AtomicWriteFile.
  repeat match goal with
  | |- context [syscall ?x] =>
      let Hd := fresh "Hd" in let Hk := fresh "Hk" in
      pose proof (syscall_db x) as Hd; pose proof (syscall_disk x) as Hk;
      destruct (syscall x) as [[?|] ?]; cbn [snd] in Hd, Hk
  | |- abandon _ _ _ = _ -> _ =>
      let Ha := fresh "Ha" in
      intros Ha; apply abandon_same in Ha; destruct Ha as (? & ? & ?);
      repeat split; try congruence; try contradiction
  | |- (_, _) = _ -> _ =>
      intros [= <- <-]; cbn [db disk with_disk];
      repeat split; try congruence; try discriminate
  end.
  all: try (intros Hc; exfalso; apply Hc; reflexivity).
  all: try (intros; congruence).
Qed.

(** An operation of the store on another table leaves the commits alone. *)
Lemma sql_UpsertPlannedUpdate_commits c f s strategy status reason
    (w : World G L) r w' :
  sql (fun d f0 t => state.UpsertPlannedUpdate d f0 t c f s strategy status
                       reason) w = (r, w') ->
  state.processed_commits (db w') = state.processed_commits (db w)
  /\ state.llm_cache (db w') = state.llm_cache (db w).
Proof.
  unfold sql, syscall, state.UpsertPlannedUpdate.
  destruct (script w) as [|st rest]; cbn [fault];
    [|destruct (fault st)]; intros [= <- <-]; split; reflexivity.
Qed.

Lemma sql_StoreMapping_commits c f s (w : World G L) r w' :
  sql (fun d f0 _ => state.StoreMapping d f0 c f s) w = (r, w') ->
  state.processed_commits (db w') = state.processed_commits (db w)
  /\ state.llm_cache (db w') = state.llm_cache (db w).
Proof.
  unfold sql, syscall, state.StoreMapping.
  destruct (script w) as [|st rest]; cbn [fault];
    [|destruct (fault st)]; intros [= <- <-]; split; reflexivity.
Qed.

Lemma sql_LogRunEvent_commits runID c level component message metadata
    (w : World G L) r w' :
  sql (fun d f0 _ => state.LogRunEvent d f0 runID c level component message
                       metadata) w = (r, w') ->
  state.processed_commits (db w') = state.processed_commits (db w)
  /\ state.llm_cache (db w') = state.llm_cache (db w).
Proof.
  unfold sql, syscall, state.LogRunEvent.
  destruct (script w) as [|st rest]; cbn [fault];
    [|destruct (fault st)]; intros [= <- <-]; split; reflexivity.
Qed.

Lemma sql_PutCachedLLMResponse_commits entry (w : World G L) r w' :
  sql (fun d f0 _ => state.PutCachedLLMResponse d f0 entry) w = (r, w') ->
  state.processed_commits (db w') = state.processed_commits (db w)
  /\ (r = None ->
      exists row,
        find (state.same_key (state.CommitHash entry) (state.DocFile entry)
                (state.SectionID entry) (state.Provider entry)
                (state.Model entry) (state.PromptHash entry))
             (state.llm_cache (db w')) = Some row
        /\ state.Response row = state.Response entry).
Proof.
  unfold sql, syscall, state.PutCachedLLMResponse.
  destruct (script w) as [|st rest]; cbn [fault];
    [|destruct (fault st)];
    destruct (String.eqb (state.PromptHash entry) "");
    intros [= <- <-]; (split; [reflexivity|]); try discriminate;
    intros _; cbn; apply upsert_cache_hit.
Qed.

Lemma sql_MarkCommitProcessed_others commitHash status errText docCommit
    filesChanged (w : World G L) r w' :
  sql (fun d f t => state.MarkCommitProcessed d f t commitHash status errText
                      docCommit filesChanged) w = (r, w') ->
  (forall other, other <> commitHash ->
     commit_row (db w') other = commit_row (db w) other)
  /\ state.llm_cache (db w') = state.llm_cache (db w).
Proof.
  unfold sql, syscall, state.MarkCommitProcessed.
  destruct (script w) as [|st rest]; cbn [fault];
    [|destruct (fault st)]; try destruct (state.status_check status);
    intros [= <- <-]; (split; [|reflexivity]); intros other Hne;
    try reflexivity;
    unfold commit_row; cbn; apply commit_row_upsert_other; exact Hne.
Qed.

End MoreFrames.

(** The rows of other commits, and the cache, along the calls of a path. *)
Ltac others :=
  repeat match goal with
  | E : sql (fun d f t => state.MarkCommitProcessed d f t _ _ _ _ _) _ = _
    |- _ => apply sql_MarkCommitProcessed_others in E; destruct E
  | E : sql (fun d f t => state.UpsertPlannedUpdate d f t _ _ _ _ _ _) _ = _
    |- _ => apply sql_UpsertPlannedUpdate_commits in E; destruct E
  | E : sql (fun d f _ => state.StoreMapping d f _ _ _) _ = _
    |- _ => apply sql_StoreMapping_commits in E; destruct E
  | E : sql (fun d f _ => state.LogRunEvent d f _ _ _ _ _ _) _ = _
    |- _ => apply sql_LogRunEvent_commits in E; destruct E
  | E : sql (fun d f _ => state.PutCachedLLMResponse d f _) _ = _
    |- _ => apply sql_PutCachedLLMResponse_commits in E; destruct E
  | E : query _ _ = _ |- _ => apply query_db in E
  | E : on_git _ _ = _ |- _ => apply on_git_db in E
  | E : on_llm _ _ = _ |- _ => apply on_llm_db in E
  | E : os_ReadFile _ _ = _ |- _ => apply os_ReadFile_db in E
  | E : doc_AtomicWriteFile _ _ _ = _ |- _ =>
      apply doc_AtomicWriteFile_spec in E; destruct E as (E & _ & _)
  end.

Section MorePipeline.
Context `{Platform} {G L : Type} (u : orchestrator.Updater G L).

(** X10. A commit without changed files is marked skipped at once: the run
    consists of the in_progress mark, the query for the changed files and
    the skipped mark, so nothing is read, generated or written. *)
Theorem commit_without_changes_is_skipped
    ctx runID hash dryRun (w : World G L) st err w' tr :
  orchestrator.processSingleCommit u ctx runID hash dryRun w
  = ((st, err), w', tr) ->
  In (EGetChangedFiles hash [] None) tr ->
  exists markErr,
    tr = [EMarkCommitProcessed hash "in_progress" "" "" None None;
          EGetChangedFiles hash [] None;
          EMarkCommitProcessed hash "skipped" "" "" None markErr]
    /\ (st, err) = match markErr with
                   | None => ("skipped", None)
                   | Some e => ("failed", Some e)
                   end
    /\ (markErr = None -> commit_marked (db w') hash "skipped" [])
    /\ disk w' = disk w.
Proof.
  run_pipeline; intros [= <- <- <- <-] HinX; which_event HinX;
    rows; frame; eexists; (split; [reflexivity|]);
    (split; [reflexivity|]); (split; [solve [auto | discriminate]|]);
    congruence.
Qed.

(** What every run of the pipeline has in common: the shape of its result,
    no pending mark, and no change to the row of another commit. *)
Lemma processSingleCommit_frame
    ctx runID hash dryRun (w : World G L) st err w' tr :
  orchestrator.processSingleCommit u ctx runID hash dryRun w
  = ((st, err), w', tr) ->
  ((st = "failed" /\ err <> None)
   \/ (st = "skipped" /\ err = None)
   \/ (st = "success" /\ err = None))
  /\ pending_marks tr = []
  /\ forall other, other <> hash ->
       commit_row (db w') other = commit_row (db w) other.
Proof.
  run_pipeline; intros [= <- <- <- <-];
    (split; [first [ left; split; [reflexivity | discriminate]
                   | right; left; split; reflexivity
                   | right; right; split; reflexivity ]|]);
    (split; [reflexivity|]);
    intros other Hne; others;
    unfold commit_row in *;
    repeat match goal with
    | Hd : db _ = db _ |- _ => rewrite Hd in *; clear Hd
    | Hp : state.processed_commits _ = state.processed_commits _ |- _ =>
        rewrite Hp in *; clear Hp
    | Ho : forall o, o <> _ -> find _ _ = find _ _ |- _ =>
        rewrite (Ho other Hne) in *; clear Ho
    end; reflexivity.
Qed.

(** X11. The result of the pipeline is one of three: ("failed", err) with
    an error, ("skipped", nil) or ("success", nil). *)
Theorem pipeline_result_shape
    ctx runID hash dryRun (w : World G L) st err w' tr :
  orchestrator.processSingleCommit u ctx runID hash dryRun w
  = ((st, err), w', tr) ->
  (st = "failed" /\ err <> None)
  \/ (st = "skipped" /\ err = None)
  \/ (st = "success" /\ err = None).
Proof.
  intros Hrun. exact (proj1 (processSingleCommit_frame _ _ _ _ _ _ _ _ _ Hrun)).
Qed.

(** X12. A run makes at most one documentation commit, through the path
    the configuration selects: [StageAndAmend] only with [AmendOriginal],
    [StageAndCommit] only without it and with the message template's
    ["{hash}"] replaced by the commit, neither with [CommitDocUpdates] off,
    and in each case only after the document was written without error. *)
Theorem documentation_commit_routing
    ctx runID hash dryRun (w : World G L) r w' tr :
  orchestrator.processSingleCommit u ctx runID hash dryRun w = (r, w', tr) ->
  let git := config.Git (orchestrator.Config (orchestrator.deps u)) in
  (count_events is_stage_commit tr + count_events is_stage_amend tr <= 1)%nat
  /\ (config.AmendOriginal git = true -> count_events is_stage_commit tr = O)
  /\ (config.AmendOriginal git = false -> count_events is_stage_amend tr = O)
  /\ (config.CommitDocUpdates git = false ->
      count_events is_stage_commit tr = O
      /\ count_events is_stage_amend tr = O)
  /\ (forall files message docCommit e,
        In (EStageAndCommit files message docCommit e) tr ->
        message = Go.ReplaceAll (config.DocCommitMessage git) "{hash}" hash
        /\ exists path content,
             In (EAtomicWriteFile path content None) tr)
  /\ (forall files docCommit e,
        In (EStageAndAmend files docCommit e) tr ->
        exists path content, In (EAtomicWriteFile path content None) tr).
Proof.
  cbn zeta. run_pipeline; intros [= <- <- <-]; unfold count_events;
    cbn [filter is_stage_commit is_stage_amend List.length Nat.add];
    (split; [lia|]);
    (split; [intros; solve [reflexivity | congruence]|]);
    (split; [intros; solve [reflexivity | congruence]|]);
    (split; [intros; solve [split; reflexivity | congruence]|]);
    (split; [intros ? ? ? ? HinX; which_event HinX;
             (split; [reflexivity|]); do 2 eexists; cbn [In]; eauto 30
            | intros ? ? ? HinX; which_event HinX;
              do 2 eexists; cbn [In]; eauto 30]).
Qed.

(** X13. The document is written at most once per run, never in a dry run,
    and only with content that came out of the section updater for a text
    that passed validation, normalized to the line ending of the file read,
    and different from that file beyond surrounding white space. *)
Theorem only_validated_changes_are_written
    ctx runID hash dryRun (w : World G L) r w' tr :
  orchestrator.processSingleCommit u ctx runID hash dryRun w = (r, w', tr) ->
  (count_events is_file_write tr <= 1)%nat
  /\ forall path content writeErr,
       In (EAtomicWriteFile path content writeErr) tr ->
       dryRun = false
       /\ exists docRaw section newContent updated,
            In (EReadFile path (FileContent docRaw)) tr
            /\ In (EReplaceSection docRaw section newContent updated None) tr
            /\ orchestrator.validateGeneratedSection newContent = None
            /\ content = doc.NormalizeLineEndings updated
                           (doc.DetectLineEnding docRaw)
            /\ Go.TrimSpace content <> Go.TrimSpace docRaw.
Proof.
  run_pipeline; intros [= <- <- <-]; unfold count_events;
    cbn [filter is_file_write List.length];
    (split; [lia|]);
    intros ? ? ? HinX; which_event HinX;
    (split; [reflexivity|]); do 4 eexists;
    (split; [cbn [In]; eauto 30|]);
    (split; [cbn [In]; eauto 30|]);
    (split; [assumption|]); (split; [reflexivity|]);
    apply String.eqb_neq; assumption.
Qed.

(** X14. A response that the run generated and stored in the cache without
    error is still there when the run ends: the lookup with the same commit,
    target, provider, model and prompt hits with the generated text. *)
Theorem stored_response_is_found_after_the_run
    ctx runID hash dryRun (w : World G L) r w' tr entry :
  orchestrator.processSingleCommit u ctx runID hash dryRun w = (r, w', tr) ->
  In (EPutCachedLLMResponse entry None) tr ->
  exists prompt,
    In (EGenerate prompt (state.Response entry) None) tr
    /\ state.CommitHash entry = hash
    /\ state.PromptHash entry = orchestrator.hashPrompt prompt
    /\ state.GetCachedLLMResponse (db w') None (state.CommitHash entry)
         (state.DocFile entry) (state.SectionID entry) (state.Provider entry)
         (state.Model entry) prompt
       = (state.Response entry, true, None).
Proof.
  run_pipeline; intros [= <- <- <-] HinX; which_event HinX; others;
    eexists; (split; [cbn [In]; eauto 30|]);
    (split; [reflexivity|]); (split; [reflexivity|]);
    unfold state.GetCachedLLMResponse, state.hashPrompt,
      orchestrator.hashPrompt in *; cbn [state.CommitHash state.DocFile
      state.SectionID state.Provider state.Model state.PromptHash
      state.Response] in *;
    repeat match goal with
    | Hd : db _ = db _ |- _ => rewrite Hd in *; clear Hd
    | Hc : state.llm_cache _ = state.llm_cache _ |- _ =>
        rewrite Hc in *; clear Hc
    end;
    match goal with
    | Hput : None = None -> exists row, _ |- _ =>
        destruct (Hput eq_refl) as (row & -> & ->); reflexivity
    end.
Qed.

End MorePipeline.

(** * The update loop *)

Lemma pending_marks_app (a b : list Event) :
  pending_marks (a ++ b)%list = (pending_marks a ++ pending_marks b)%list.
Proof.
  induction a as [|e a IH]; [reflexivity|].
  destruct e; simpl; try exact IH.
  destruct (String.eqb status "pending"); simpl; rewrite IH; reflexivity.
Qed.

(** What [appendUnique] keeps: [seen] and [out] hold the same items, none
    of them empty or repeated. *)
Lemma appendUnique_spec items : forall seen out,
  (forall x, In x seen <-> In x out) -> NoDup out -> ~ In "" out ->
  let r := orchestrator.appendUnique items seen out in
  (forall x, In x (fst r) <-> In x (snd r))
  /\ NoDup (snd r) /\ ~ In "" (snd r)
  /\ (forall x, In x (snd r) <-> In x out \/ (x <> "" /\ In x items))
  /\ exists suffix, snd r = (out ++ suffix)%list.
Proof.
  induction items as [|item rest IH]; intros seen out Hsame Hnd Hne; cbn zeta.
  - simpl. split; [exact Hsame|]. split; [exact Hnd|]. split; [exact Hne|].
    split.
    + intros x. split; [auto|]. intros [Hx|[_ []]]. exact Hx.
    + exists []. rewrite app_nil_r. reflexivity.
  - simpl. destruct (String.eqb item "") eqn:Eempty.
    + apply String.eqb_eq in Eempty. subst item.
      destruct (IH seen out Hsame Hnd Hne) as (H1 & H2 & H3 & H4 & H5).
      split; [exact H1|]. split; [exact H2|]. split; [exact H3|].
      split; [|exact H5].
      intros x. rewrite H4. split.
      * intros [Hx|[Hx1 Hx2]]; auto.
      * intros [Hx|[Hx1 [Hx2|Hx2]]]; auto.
        exfalso. apply Hx1. symmetry. exact Hx2.
    + apply String.eqb_neq in Eempty.
      destruct (orchestrator.seen_ seen item) eqn:Eseen.
      * unfold orchestrator.seen_ in Eseen. apply existsb_exists in Eseen.
        destruct Eseen as (y & Hy & Heq). apply String.eqb_eq in Heq.
        subst y. apply Hsame in Hy.
        destruct (IH seen out Hsame Hnd Hne) as (H1 & H2 & H3 & H4 & H5).
        split; [exact H1|]. split; [exact H2|]. split; [exact H3|].
        split; [|exact H5].
        intros x. rewrite H4. split.
        -- intros [Hx|[Hx1 Hx2]]; auto.
        -- intros [Hx|[Hx1 [Hx2|Hx2]]]; auto.
           subst x. left. exact Hy.
      * assert (Hnew : ~ In item out).
        { intros Hin. apply Hsame in Hin.
          assert (Hex : orchestrator.seen_ seen item = true).
          { unfold orchestrator.seen_. apply existsb_exists.
            exists item. split; [exact Hin | apply String.eqb_refl]. }
          congruence. }
        destruct (IH (item :: seen) (out ++ [item])%list)
          as (H1 & H2 & H3 & H4 & suffix & H5).
        -- intros x. simpl. rewrite in_app_iff. simpl.
           specialize (Hsame x). tauto.
        -- apply NoDup_app; [exact Hnd | repeat constructor; intros [] | ].
           intros x Hx [Hx'|[]]. subst x. contradiction.
        -- rewrite in_app_iff. simpl. intros [Hx|[Hx|[]]]; auto.
        -- split; [exact H1|]. split; [exact H2|]. split; [exact H3|].
           split.
           ++ intros x. rewrite H4, in_app_iff. simpl. split.
              ** intros [[Hx|[Hx|[]]]|[Hx1 Hx2]]; auto.
                 subst x. right. split; auto.
              ** intros [Hx|[Hx1 [Hx2|Hx2]]]; auto.
           ++ exists (item :: suffix). rewrite H5, <- app_assoc. reflexivity.
Qed.

(** X15. [mergeUnique] returns every non-empty item of its two lists once:
    no item is repeated, none is empty, an item is in the result exactly
    when it is non-empty and in one of the lists, and the items of the first
    list come first, in the order [mergeUnique first nil] gives them. *)
Theorem mergeUnique_keeps_each_item_once (first second : list string) :
  NoDup (orchestrator.mergeUnique first second)
  /\ ~ In "" (orchestrator.mergeUnique first second)
  /\ (forall x, In x (orchestrator.mergeUnique first second)
                <-> x <> "" /\ (In x first \/ In x second))
  /\ exists suffix,
       orchestrator.mergeUnique first second
       = (orchestrator.mergeUnique first [] ++ suffix)%list.
Proof.
  unfold orchestrator.mergeUnique.
  destruct (appendUnique_spec first [] []) as (H1 & H2 & H3 & H4 & _);
    [tauto | constructor | intros [] |].
  destruct (orchestrator.appendUnique first [] []) as [seen out].
  cbn [fst snd] in *.
  destruct (appendUnique_spec second seen out H1 H2 H3)
    as (_ & G2 & G3 & G4 & suffix & G5).
  split; [exact G2|]. split; [exact G3|]. split.
  - intros x. rewrite G4, H4. simpl. split.
    + intros [[[]|[Hx1 Hx2]]|[Hx1 Hx2]]; auto.
    + intros [Hx1 [Hx2|Hx2]]; auto.
  - exists suffix. exact G5.
Qed.

Section Loop.
Context `{Platform} {G L : Type} (u : orchestrator.Updater G L).

(** A successful [MarkCommitProcessed] leaves the row it wrote. *)
Lemma sql_MarkCommitProcessed_row commitHash status errText docCommit
    filesChanged (w : World G L) w' :
  sql (fun d f t => state.MarkCommitProcessed d f t commitHash status errText
                      docCommit filesChanged) w = (None, w') ->
  exists row, commit_row (db w') commitHash = Some row
    /\ state.status row = status
    /\ state.error_text row = state.nullIfEmpty errText
    /\ state.doc_commit_hash row = state.nullIfEmpty docCommit.
Proof.
  unfold sql, syscall, state.MarkCommitProcessed.
  destruct (script w) as [|st rest]; cbn [fault];
    [|destruct (fault st)]; try destruct (state.status_check status);
    intros [= <-]; unfold commit_row; cbn;
    eexists; (split; [apply (upsert_commit_finds
      {| state.commit_hash := commitHash; state.processed_at := _;
         state.status := status; state.error_text := _;
         state.doc_commit_hash := _; state.doc_files_changed := _ |})
      | repeat split; reflexivity]).
Qed.

(** A [MarkCommitProcessed] that reports an error changed nothing. *)
Lemma sql_MarkCommitProcessed_error commitHash status errText docCommit
    filesChanged (w : World G L) e w' :
  sql (fun d f t => state.MarkCommitProcessed d f t commitHash status errText
                      docCommit filesChanged) w = (Some e, w') ->
  db w' = db w.
Proof.
  unfold sql, syscall, state.MarkCommitProcessed.
  destruct (script w) as [|st rest]; cbn [fault];
    [|destruct (fault st)]; try destruct (state.status_check status);
    intros [= _ <-]; reflexivity.
Qed.

Lemma processOne_frame ctx runID dryRun s hash (w : World G L) s' w' tr :
  orchestrator.processOne u ctx runID dryRun s hash w = (s', w', tr) ->
  pending_marks tr = [hash]
  /\ forall other, other <> hash ->
       commit_row (db w') other = commit_row (db w) other.
Proof.
  unfold orchestrator.processOne. unfold_calls. repeat step;
    intros [= <- <- <-];
    try match goal with
    | E : orchestrator.processSingleCommit _ _ _ _ _ _ = _ |- _ =>
        apply processSingleCommit_frame in E; destruct E as (_ & Hnp & Hfr)
    end;
    (split; [simpl; rewrite ?pending_marks_app, ?Hnp; reflexivity|]);
    intros other Hne; others;
    unfold commit_row in *;
    repeat match goal with
    | Hd : db _ = db _ |- _ => rewrite Hd in *; clear Hd
    | Hp : state.processed_commits _ = state.processed_commits _ |- _ =>
        rewrite Hp in *; clear Hp
    | Ho : forall o, o <> _ -> find _ _ = find _ _ |- _ =>
        rewrite (Ho other Hne) in *; clear Ho
    end; reflexivity.
Qed.

Lemma forEachCommit_frame ctx runID dryRun commitHashes :
  forall s (w : World G L) s' w' tr,
  orchestrator.forEachCommit u ctx runID dryRun commitHashes s w
  = (s', w', tr) ->
  pending_marks tr = commitHashes
  /\ forall other, ~ In other commitHashes ->
       commit_row (db w') other = commit_row (db w) other.
Proof.
  induction commitHashes as [|hash rest IH]; intros s w s' w' tr.
  - simpl. unfold ret. intros [= <- <- <-]. split; reflexivity.
  - cbn [orchestrator.forEachCommit]. unfold bind at 1.
    destruct (orchestrator.processOne u ctx runID dryRun s hash w)
      as [[s1 w1] t1] eqn:E1.
    destruct (orchestrator.forEachCommit u ctx runID dryRun rest s1 w1)
      as [[s2 w2] t2] eqn:E2.
    intros [= <- <- <-].
    apply processOne_frame in E1. destruct E1 as [Hp1 Hf1].
    apply IH in E2. destruct E2 as [Hp2 Hf2].
    split.
    + rewrite pending_marks_app, Hp1, Hp2. reflexivity.
    + intros other Hnot. rewrite Hf2, Hf1; [reflexivity| |];
        intros Hc; apply Hnot; simpl; auto.
Qed.

Lemma UpdateCommitList_frame ctx commitHashes dryRun (w : World G L) r w' tr :
  orchestrator.UpdateCommitList u ctx commitHashes dryRun w = (r, w', tr) ->
  pending_marks tr = commitHashes
  /\ forall other, ~ In other commitHashes ->
       commit_row (db w') other = commit_row (db w) other.
Proof.
  unfold orchestrator.UpdateCommitList. unfold_calls.
  destruct (sql _ w) as [r0 w0] eqn:E0.
  destruct (orchestrator.forEachCommit u ctx _ dryRun commitHashes _ w0)
    as [[s1 w1] t1] eqn:E1.
  destruct (sql _ w1) as [r2 w2] eqn:E2.
  intros [= <- <- <-].
  apply forEachCommit_frame in E1. destruct E1 as [Hp Hf].
  others. split.
  - simpl. rewrite !pending_marks_app, Hp. simpl. apply app_nil_r.
  - intros other Hnot. unfold commit_row in *.
    match goal with
    | H2 : state.processed_commits (db w2) = _ |- _ => rewrite H2
    end.
    rewrite (Hf other Hnot).
    match goal with
    | H0 : state.processed_commits (db w0) = _ |- _ => rewrite H0
    end.
    reflexivity.
Qed.

Lemma UpdateCommitList_no_error ctx commitHashes dryRun (w : World G L)
    s err w' tr :
  orchestrator.UpdateCommitList u ctx commitHashes dryRun w
  = ((s, err), w', tr) ->
  err = None.
Proof.
  unfold orchestrator.UpdateCommitList. unfold_calls.
  destruct (sql _ w) as [r0 w0].
  destruct (orchestrator.forEachCommit u ctx _ dryRun commitHashes _ w0)
    as [[s1 w1] t1].
  destruct (sql _ w1) as [r2 w2].
  intros [= _ <- _ _]. reflexivity.
Qed.

(** X16. [UpdateCommitList] marks every commit of its list pending, each
    once and in the order of the list, whatever fails on the way, and the
    rows of the commits outside the list are left as they were. *)
Theorem UpdateCommitList_visits_every_listed_commit
    ctx commitHashes dryRun (w : World G L) r w' tr :
  orchestrator.UpdateCommitList u ctx commitHashes dryRun w = (r, w', tr) ->
  pending_marks tr = commitHashes
  /\ forall other, ~ In other commitHashes ->
       commit_row (db w') other = commit_row (db w) other.
Proof. apply UpdateCommitList_frame. Qed.

(** X17. A commit is counted as failed only when its failure was put on
    record: either the pending mark itself failed and the run logged it
    without entering the pipeline, or the pipeline returned an error and
    the loop wrote status failed with the error text and logged it; when
    that write succeeds the row holds failed and the text. *)
Theorem counted_failure_is_recorded
    ctx runID dryRun s hash (w : World G L) s' w' tr :
  orchestrator.processOne u ctx runID dryRun s hash w = (s', w', tr) ->
  orchestrator.Failed s' <> orchestrator.Failed s ->
  (exists e logErr,
     tr = [EMarkCommitProcessed hash "pending" "" "" None (Some e);
           ELogRunEvent runID hash "error" "state" "failed to mark pending"
                        (Some [("error", e)]) logErr]
     /\ commit_row (db w') hash = commit_row (db w) hash)
  \/ (exists e markErr logErr,
        ends_with tr
          [EMarkCommitProcessed hash "failed" e "" None markErr;
           ELogRunEvent runID hash "error" "orchestrator"
                        "commit processing failed" (Some [("error", e)])
                        logErr]
        /\ (markErr = None ->
            exists row, commit_row (db w') hash = Some row
              /\ state.status row = "failed"
              /\ state.error_text row = state.nullIfEmpty e)).
Proof.
  unfold orchestrator.processOne. unfold_calls. repeat step;
    intros [= <- <- <-]; cbn [orchestrator.Failed]; intros Hfailed;
    try (exfalso; apply Hfailed; reflexivity);
    try match goal with
    | E : orchestrator.processSingleCommit _ _ _ _ _ _ = _ |- _ =>
        apply processSingleCommit_frame in E;
        destruct E as ([[? ?]|[[? ?]|[? ?]]] & _ & _);
        try congruence; subst; try discriminate
    end.
  - left. do 2 eexists. split; [reflexivity|].
    match goal with
    | E : sql (fun d f t => state.MarkCommitProcessed d f t _ _ _ _ _) _
          = (Some _, _) |- _ =>
        apply sql_MarkCommitProcessed_error in E
    end.
    others. unfold commit_row. congruence.
  - right. do 3 eexists.
    split; [apply ends_with_later; eexists; reflexivity|].
    intros ->.
    match goal with
    | E : sql (fun d f t => state.MarkCommitProcessed d f t _ "failed"
                              _ _ _) _ = _ |- _ =>
        apply sql_MarkCommitProcessed_row in E;
        destruct E as (row & Hrow & Hst & Herr & _)
    end.
    others. exists row. unfold commit_row in *.
    split; [congruence|]. split; assumption.
Qed.

(** X18. [UpdateNewCommits] processes the unfinished commits of the store
    (pending or in progress, oldest first) and then the commits of the
    range from the last successful commit to HEAD, each once: when it
    returns no error the commits it marks pending are
    [mergeUnique resumable range]; when one of its four queries fails it
    returns that error with an empty summary and changes no row. *)
Theorem UpdateNewCommits_processes_resumable_then_new
    ctx dryRun (w : World G L) s err w' tr :
  orchestrator.UpdateNewCommits u ctx dryRun w = ((s, err), w', tr) ->
  (err = None ->
   exists head commits,
     In (EGetCurrentHEAD head None) tr
     /\ In (EGetLastProcessedRange
              (fst (state.GetLastProcessedCommit (db w) None)) head commits
              None) tr
     /\ pending_marks tr
        = orchestrator.mergeUnique
            (fst (state.GetResumableCommits (db w) None))
            (map gitutil.Hash commits))
  /\ (err <> None ->
      s = orchestrator.noSummary /\ pending_marks tr = [] /\ db w' = db w).
Proof.
  unfold orchestrator.UpdateNewCommits. unfold_calls.
  destruct (query state.GetResumableCommits w) as [[resumable e1] w1] eqn:E1.
  destruct e1 as [e1|].
  { intros [= <- <- <- <-]. split; [discriminate|]. intros _.
    apply query_db in E1. split; [reflexivity|]. split; [reflexivity | congruence]. }
  destruct (query state.GetLastProcessedCommit w1) as [[last e2] w2] eqn:E2.
  destruct e2 as [e2|].
  { intros [= <- <- <- <-]. split; [discriminate|]. intros _.
    apply query_db in E1. apply query_db in E2.
    split; [reflexivity|]. split; [reflexivity | congruence]. }
  destruct (on_git _ w2) as [[head e3] w3] eqn:E3.
  destruct e3 as [e3|].
  { intros [= <- <- <- <-]. split; [discriminate|]. intros _.
    apply query_db in E1. apply query_db in E2. apply on_git_db in E3.
    split; [reflexivity|]. split; [reflexivity | congruence]. }
  destruct (on_git _ w3) as [[commits e4] w4] eqn:E4.
  destruct e4 as [e4|].
  { intros [= <- <- <- <-]. split; [discriminate|]. intros _.
    apply query_db in E1. apply query_db in E2. apply on_git_db in E3.
    apply on_git_db in E4.
    split; [reflexivity|]. split; [reflexivity | congruence]. }
  destruct (orchestrator.UpdateCommitList u ctx _ dryRun w4)
    as [[[s5 e5] w5] t5] eqn:E5.
  intros [= <- <- <- <-].
  assert (Hnone : e5 = None) by exact (UpdateCommitList_no_error _ _ _ _ _ _ _ _ E5).
  subst e5. split; [|intros Hc; exfalso; apply Hc; reflexivity].
  intros _. apply UpdateCommitList_frame in E5. destruct E5 as [Hp _].
  assert (Hres : resumable = fst (state.GetResumableCommits (db w) None)).
  { revert E1. unfold query, syscall, state.GetResumableCommits.
    destruct (script w) as [|st0 rest0]; cbn [fault];
      [|destruct (fault st0)]; intros [= <- _]; try reflexivity;
      discriminate. }
  assert (Hlast : last = fst (state.GetLastProcessedCommit (db w) None)).
  { apply query_db in E1. revert E2.
    unfold query, syscall, state.GetLastProcessedCommit.
    destruct (script w1) as [|st0 rest0]; cbn [fault];
      [|destruct (fault st0)]; rewrite ?E1;
      try (intros [= _ Hx _]; discriminate Hx);
      cbn [db]; rewrite ?E1;
      destruct (state.latest _); intros [= <- _]; reflexivity. }
  exists head, commits. subst resumable last.
  split; [cbn [In app]; auto 10|]. split; [cbn [In app]; auto 10|].
  simpl. rewrite ?pending_marks_app. simpl. exact Hp.
Qed.

End Loop.

(** * The generation clients *)

Section ResilientMore.
Context {St : Type} (ctx : llm.Context) (maxRetries : Z) (prompt : string).
Hypothesis live : never_cancelled ctx.

(** A provider that always fails uses up its attempts, and the failure it
    leaves is the one of its last attempt. *)
Lemma attemptLoop_exhausts_with (p : llm.Client St) idx n :
  always_fails p ->
  forall attempt obs lastErr s,
  Z.of_nat n = maxRetries + 1 - attempt ->
  exists s' obs' lastErr',
    llm.attemptLoop ctx maxRetries prompt p idx n attempt obs lastErr s
    = (llm.Exhausted, s', obs', lastErr', block idx attempt n)
    /\ (n = O -> lastErr' = lastErr)
    /\ ((0 < n)%nat ->
        exists e, lastErr' = Some e /\ attempt_failure (maxRetries + 1) e).
Proof.
  intros Hfail. induction n as [|n IH]; intros attempt obs lastErr s Hn.
  - simpl. do 3 eexists. split; [reflexivity|]. split; [reflexivity | lia].
  - cbn [llm.attemptLoop]. rewrite live.
    specialize (Hfail ctx prompt s).
    destruct (llm.Generate p ctx prompt s) as [[result err] s1].
    destruct err as [e|]; [|exfalso; apply Hfail; reflexivity].
    destruct (attempt <? maxRetries) eqn:Hlt.
    + rewrite live. apply Z.ltb_lt in Hlt.
      destruct (IH (attempt + 1) (S (S obs))
                  (Some ("provider " ++ llm.Name p s1 ++ " attempt "
                         ++ Go.itoa (attempt + 1) ++ " failed: " ++ e)) s1
                  ltac:(lia)) as (s' & obs' & lastErr' & -> & _ & Hlast).
      destruct n as [|n']; [lia|].
      do 3 eexists. split; [reflexivity|]. split; [discriminate|].
      intros _. apply Hlast. lia.
    + apply Z.ltb_ge in Hlt. destruct n as [|n']; [|lia].
      cbn [llm.attemptLoop].
      do 3 eexists. split; [reflexivity|]. split; [discriminate|].
      intros _. eexists. split; [reflexivity|].
      assert (Heq : attempt = maxRetries) by lia. subst attempt.
      exists (llm.Name p s1), e. reflexivity.
Qed.

Lemma providerLoop_exhausts (providers : list (llm.Client St * St)) :
  0 <= maxRetries ->
  Forall (fun o => always_fails (fst o)) providers ->
  forall idx obs lastErr,
  exists providers' e,
    llm.providerLoop ctx maxRetries prompt providers idx obs lastErr
    = (("", Some e), providers',
       blocks idx (repeat (Z.to_nat (maxRetries + 1)) (List.length providers)))
    /\ List.length providers' = List.length providers
    /\ match providers with
       | [] => e = match lastErr with
                   | Some x => x
                   | None => "all llm providers failed"
                   end
       | _ :: _ => attempt_failure (maxRetries + 1) e
       end.
Proof.
  intros Hmax HF. induction HF as [|[p s] rest Hp HF IH];
    intros idx obs lastErr.
  - simpl. do 2 eexists. split; [reflexivity|]. split; reflexivity.
  - cbn [llm.providerLoop List.length repeat blocks].
    destruct (attemptLoop_exhausts_with p idx (Z.to_nat (maxRetries + 1)) Hp
                0 obs lastErr s ltac:(lia))
      as (s' & obs' & lastErr' & -> & _ & Hlast).
    destruct Hlast as (e & -> & He); [lia|].
    destruct (IH (S idx) obs' (Some e)) as (rest' & e' & -> & Hlen & Hshape).
    do 2 eexists. split; [reflexivity|]. split; [simpl; lia|].
    destruct rest as [|q rest0]; [subst e'; exact He | exact Hshape].
Qed.

End ResilientMore.

(** X19. When every provider fails every call and the context stays live,
    [Generate] of a client built by [NewResilientClient] tries each provider
    in turn exactly [maxRetries + 1] times (once when the configured number
    is negative), waits between the attempts of a provider, and returns the
    empty text with the failure of the last provider's last attempt. *)
Theorem failing_providers_are_each_exhausted
    {St} (ctx : llm.Context) (prompt : string)
    (clients : list (llm.Client St * St)) (retries : Z) :
  never_cancelled ctx ->
  retries < Go.max_int ->
  clients <> [] ->
  Forall (fun o => always_fails (fst o)) clients ->
  let c := llm.NewResilientClient clients retries in
  llm.maxRetries c = Z.max retries 0
  /\ exists e c',
       llm.ResilientClient_Generate ctx prompt c
       = (("", Some e), c',
          blocks 0 (repeat (Z.to_nat (llm.maxRetries c + 1))
                           (List.length clients)))
       /\ attempt_failure (llm.maxRetries c + 1) e
       /\ forall idx, (idx < List.length clients)%nat ->
            attempts_of idx
              (blocks 0 (repeat (Z.to_nat (llm.maxRetries c + 1))
                                (List.length clients)))
            = Z.to_nat (llm.maxRetries c + 1).
Proof.
  intros Hlive Hmax Hne HF. cbn zeta.
  unfold llm.NewResilientClient, llm.ResilientClient_Generate.
  cbn [llm.clients llm.maxRetries].
  set (m := if retries <? 0 then 0 else retries).
  assert (Hm : m = Z.max retries 0).
  { unfold m. destruct (retries <? 0) eqn:E;
      [apply Z.ltb_lt in E | apply Z.ltb_ge in E]; lia. }
  split; [exact Hm|].
  destruct (providerLoop_exhausts ctx m prompt Hlive clients ltac:(lia) HF
              0%nat 0%nat None) as (clients' & e & Hrun & _ & Hshape).
  destruct clients as [|o rest]; [contradiction|].
  rewrite Hrun. do 2 eexists. split; [reflexivity|]. split; [exact Hshape|].
  generalize (Z.to_nat (m + 1)). generalize (List.length (o :: rest)).
  clear. intros n k.
  assert (Hgen : forall start idx, (start <= idx < start + n)%nat ->
            attempts_of idx (blocks start (repeat k n)) = k).
  { induction n as [|n IH]; intros start idx Hidx; [lia|].
    cbn [repeat blocks]. rewrite attempts_of_app, attempts_of_block.
    destruct (Nat.eqb start idx) eqn:E.
    - apply Nat.eqb_eq in E. subst idx.
      destruct (attempts_of_blocks (repeat k n) (S start) start k) as [_ H0].
      { apply Forall_forall. intros x Hx. apply repeat_spec in Hx. lia. }
      rewrite H0; lia.
    - apply Nat.eqb_neq in E. rewrite IH; lia. }
  intros idx Hidx. apply Hgen. lia.
Qed.

(** X20. A cancelled context stops the client: when the context is already
    cancelled, [Generate] returns its error and calls no provider; when it
    is cancelled while the client waits after a first failed attempt,
    [Generate] returns its error after that one attempt. *)
Theorem cancelled_context_stops_the_client
    {St} (ctx : llm.Context) (prompt : string)
    (clients : list (llm.Client St * St)) (retries : Z) (e : string) :
  clients <> [] ->
  (ctx 0%nat = Some e ->
   llm.ResilientClient_Generate ctx prompt
     (llm.NewResilientClient clients retries)
   = (("", Some e), llm.NewResilientClient clients retries, []))
  /\ (forall p s rest junk cause s1,
        clients = (p, s) :: rest ->
        ctx 0%nat = None -> ctx 1%nat = Some e ->
        1 <= retries ->
        llm.Generate p ctx prompt s = ((junk, Some cause), s1) ->
        llm.ResilientClient_Generate ctx prompt
          (llm.NewResilientClient clients retries)
        = (("", Some e),
           {| llm.clients := (p, s1) :: rest; llm.maxRetries := retries |},
           [llm.Attempt 0 0; llm.Wait 0 0 (llm.backoff 0)])).
Proof.
  intros Hne. split.
  - intros Hctx. destruct clients as [|[p s] rest]; [contradiction|].
    unfold llm.ResilientClient_Generate, llm.NewResilientClient.
    cbn [llm.clients llm.maxRetries llm.providerLoop].
    set (m := if retries <? 0 then 0 else retries).
    assert (Hm : 0 <= m).
    { unfold m. destruct (retries <? 0) eqn:E;
        [lia | apply Z.ltb_ge in E; lia]. }
    destruct (Z.to_nat (m + 1)) as [|n] eqn:En; [lia|].
    cbn [llm.attemptLoop]. rewrite Hctx. reflexivity.
  - intros p s rest junk cause s1 -> H0 H1 Hr Hgen.
    unfold llm.ResilientClient_Generate, llm.NewResilientClient.
    cbn [llm.clients llm.maxRetries llm.providerLoop].
    destruct (retries <? 0) eqn:E; [apply Z.ltb_lt in E; lia|].
    destruct (Z.to_nat (retries + 1)) as [|n] eqn:En; [lia|].
    cbn [llm.attemptLoop]. rewrite H0, Hgen.
    assert (Hlt : (0 <? retries) = true) by (apply Z.ltb_lt; lia).
    rewrite Hlt, H1. reflexivity.
Qed.

Section ProviderAnswers.
Context `{llm.Json}.

Lemma firstText_fails_empty content text e :
  llm.firstText content = (text, Some e) -> text = "".
Proof.
  induction content as [|[type t] rest IH]; simpl.
  - intros [= <- _]. reflexivity.
  - destruct (String.eqb type "text"
              && negb (String.eqb (Go.TrimSpace t) "")); [discriminate|].
    exact IH.
Qed.

Lemma firstCandidate_fails_empty candidates text e :
  llm.firstCandidate candidates = (text, Some e) -> text = "".
Proof.
  induction candidates as [|parts rest IH]; simpl.
  - intros [= <- _]. reflexivity.
  - destruct (llm.firstPart parts); [discriminate | exact IH].
Qed.

Ltac answered :=
  intros [= <- <-];
  (split; [first [ reflexivity
                 | intros Hx; exfalso; apply Hx; reflexivity ]
          | first [ discriminate | intros _; discriminate | intros; lia ]]).

Ltac by_search fails_empty :=
  let Hg := fresh "Hg" in
  intros Hg;
  (split; [| intros; lia]);
  match goal with
  | |- ?err <> None -> _ =>
      destruct err;
      [ intros _; eapply fails_empty; exact Hg
      | intros Hx; exfalso; apply Hx; reflexivity ]
  end.

Lemma Groq_answers_or_fails : answers_or_fails llm.GroqClient_Generate.
Proof.
  intros http text err Hg.
  split; [intros ->; eapply Groq_never_empty; exact Hg|].
  revert Hg. unfold llm.GroqClient_Generate.
  destruct http as [e0|c e0|c body]; try answered.
  destruct (c >=? 300) eqn:Ec; [answered|].
  rewrite Z.geb_leb in Ec. apply Z.leb_gt in Ec.
  destruct (llm.unmarshal_choices body) as [[|content others] [e1|]];
    try answered.
  destruct (String.eqb (Go.TrimSpace content) ""); answered.
Qed.

Lemma Ollama_answers_or_fails : answers_or_fails llm.OllamaClient_Generate.
Proof.
  intros http text err Hg.
  split; [intros ->; eapply Ollama_never_empty; exact Hg|].
  revert Hg. unfold llm.OllamaClient_Generate.
  destruct http as [e0|c e0|c body]; try answered.
  destruct (c >=? 300) eqn:Ec; [answered|].
  rewrite Z.geb_leb in Ec. apply Z.leb_gt in Ec.
  destruct (llm.unmarshal_response body) as [response [e1|]]; try answered.
  destruct (String.eqb (Go.TrimSpace response) ""); answered.
Qed.

Lemma Anthropic_answers_or_fails :
  answers_or_fails llm.AnthropicClient_Generate.
Proof.
  intros http text err Hg.
  split; [intros ->; eapply Anthropic_never_empty; exact Hg|].
  revert Hg. unfold llm.AnthropicClient_Generate.
  destruct http as [e0|c e0|c body]; try answered.
  destruct (c >=? 300) eqn:Ec; [answered|].
  rewrite Z.geb_leb in Ec. apply Z.leb_gt in Ec.
  destruct (llm.unmarshal_content body) as [content [e1|]]; try answered.
  by_search firstText_fails_empty.
Qed.

Lemma Gemini_answers_or_fails : answers_or_fails llm.GeminiClient_Generate.
Proof.
  intros http text err Hg.
  split; [intros ->; eapply Gemini_never_empty; exact Hg|].
  revert Hg. unfold llm.GeminiClient_Generate.
  destruct http as [e0|c e0|c body]; try answered.
  destruct (c >=? 300) eqn:Ec; [answered|].
  rewrite Z.geb_leb in Ec. apply Z.leb_gt in Ec.
  destruct (llm.unmarshal_candidates body) as [candidates [e1|]];
    try answered.
  by_search firstCandidate_fails_empty.
Qed.

(** X21. The Groq, Ollama, Anthropic and Gemini clients never return an
    empty text as a success and never a text with an error; a transport
    failure, an unreadable body and a status of 300 or more are errors. *)
Theorem providers_answer_or_fail :
  answers_or_fails llm.GroqClient_Generate
  /\ answers_or_fails llm.OllamaClient_Generate
  /\ answers_or_fails llm.AnthropicClient_Generate
  /\ answers_or_fails llm.GeminiClient_Generate.
Proof.
  split; [exact Groq_answers_or_fails|].
  split; [exact Ollama_answers_or_fails|].
  split; [exact Anthropic_answers_or_fails | exact Gemini_answers_or_fails].
Qed.

End ProviderAnswers.

(** ** The mock client and the validation of its answers *)

Lemma length_string_of_list (l : list ascii) :
  String.length (string_of_list_ascii l) = List.length l.
Proof. induction l as [|c l IH]; simpl; congruence. Qed.

Lemma length_list_of_string (s : string) :
  List.length (list_ascii_of_string s) = String.length s.
Proof. induction s as [|c s IH]; simpl; congruence. Qed.

Lemma rev'_rev {A} (l : list A) : List.rev' l = List.rev l.
Proof. unfold List.rev'. rewrite rev_append_rev. apply app_nil_r. Qed.

Lemma TrimLeftSpace_length_le n : forall s,
  (String.length s <= n)%nat ->
  (String.length (Go.TrimLeftSpace s) <= String.length s)%nat.
Proof.
  induction n as [|n IH]; intros s Hs.
  - destruct s; simpl in *; lia.
  - destruct s as [|c1 r1]; [simpl; lia|].
    cbn [Go.TrimLeftSpace]. destruct (Go.asciiSpace c1).
    + simpl in Hs. specialize (IH r1 ltac:(lia)). simpl. lia.
    + destruct r1 as [|c2 r2]; [lia|].
      destruct (Go.space2 c1 c2).
      * simpl in Hs. specialize (IH r2 ltac:(lia)). simpl. lia.
      * destruct r2 as [|c3 r3]; [lia|].
        destruct (Go.space3 c1 c2 c3); [|lia].
        simpl in Hs. specialize (IH r3 ltac:(lia)). simpl. lia.
Qed.

Lemma trimLeftSpaceRev_length_le n : forall l,
  (List.length l <= n)%nat ->
  (List.length (Go.trimLeftSpaceRev l) <= List.length l)%nat.
Proof.
  induction n as [|n IH]; intros l Hl.
  - destruct l; simpl in *; lia.
  - destruct l as [|c1 r1]; [simpl; lia|].
    cbn [Go.trimLeftSpaceRev]. destruct (Go.asciiSpace c1).
    + simpl in Hl. specialize (IH r1 ltac:(lia)). simpl. lia.
    + destruct r1 as [|c2 r2]; [lia|].
      destruct (Go.space2 c2 c1).
      * simpl in Hl. specialize (IH r2 ltac:(lia)). simpl. lia.
      * destruct r2 as [|c3 r3]; [lia|].
        destruct (Go.space3 c3 c2 c1); [|lia].
        simpl in Hl. specialize (IH r3 ltac:(lia)). simpl. lia.
Qed.

(** Trimming never makes a text longer. *)
Lemma TrimSpace_length_le (s : string) :
  Go.strlen (Go.TrimSpace s) <= Go.strlen s.
Proof.
  unfold Go.strlen, Go.TrimSpace, Go.TrimRightSpace.
  rewrite length_string_of_list, !rev'_rev, length_rev.
  pose proof (trimLeftSpaceRev_length_le _
                (List.rev (list_ascii_of_string (Go.TrimLeftSpace s)))
                (le_n _)) as H1.
  rewrite length_rev, length_list_of_string in H1.
  pose proof (TrimLeftSpace_length_le _ s (le_n _)) as H2. lia.
Qed.

(** A byte that is in no white space encoding survives at the end of the
    reversed scan. *)
Lemma trimLeftSpaceRev_keeps_dash n : forall pre,
  (List.length pre <= n)%nat ->
  exists pre',
    Go.trimLeftSpaceRev (pre ++ ["-"%char]) = (pre' ++ ["-"%char])%list.
Proof.
  induction n as [|n IH]; intros pre Hpre.
  - destruct pre; [|simpl in Hpre; lia]. exists []. reflexivity.
  - destruct pre as [|c1 r1]; [exists []; reflexivity|].
    simpl in Hpre. cbn [app Go.trimLeftSpaceRev].
    destruct (Go.asciiSpace c1); [apply IH; lia|].
    destruct r1 as [|c2 r2].
    + cbn [app]. replace (Go.space2 "-" c1) with false by reflexivity.
      exists [c1]. reflexivity.
    + cbn [app]. simpl in Hpre.
      destruct (Go.space2 c2 c1); [apply IH; lia|].
      destruct r2 as [|c3 r3].
      * cbn [app]. replace (Go.space3 "-" c2 c1) with false by reflexivity.
        exists [c1; c2]. reflexivity.
      * cbn [app]. simpl in Hpre.
        destruct (Go.space3 c3 c2 c1); [apply IH; lia|].
        exists (c1 :: c2 :: c3 :: r3). reflexivity.
Qed.

(** A text that starts with a dash is not blank. *)
Lemma TrimSpace_dash (rest : string) :
  Go.TrimSpace (String "-" rest) <> "".
Proof.
  unfold Go.TrimSpace.
  assert (Hleft : Go.TrimLeftSpace (String "-" rest) = String "-" rest).
  { destruct rest as [|c2 [|c3 r3]]; reflexivity. }
  rewrite Hleft. unfold Go.TrimRightSpace. rewrite !rev'_rev.
  cbn [list_ascii_of_string List.rev].
  destruct (trimLeftSpaceRev_keeps_dash _
              (List.rev (list_ascii_of_string rest)) (le_n _))
    as (pre' & ->).
  rewrite rev_app_distr. simpl. discriminate.
Qed.

Lemma takeBytes_length n : forall s,
  (String.length (Go.takeBytes n s) <= n)%nat.
Proof.
  induction n as [|n IH]; intros s; [destruct s; simpl; lia|].
  destruct s as [|c r]; simpl; [lia|]. specialize (IH r). lia.
Qed.

Lemma string_length_app (a b : string) :
  String.length (a ++ b) = (String.length a + String.length b)%nat.
Proof. induction a as [|c a IH]; simpl; congruence. Qed.

(** X22. The mock client never fails, its answer has at most 205 bytes, and
    the answer always passes the validation of generated content. *)
Theorem MockClient_answers_pass_validation (prompt : string) :
  exists text,
    llm.MockClient_Generate prompt = (text, None)
    /\ 0 < Go.strlen text <= 205
    /\ orchestrator.validateGeneratedSection text = None.
Proof.
  unfold llm.MockClient_Generate.
  destruct (String.eqb (Go.TrimSpace prompt) "") eqn:Eblank.
  - eexists. split; [reflexivity|]. split; vm_compute; [split; congruence|].
    reflexivity.
  - set (line := if Go.strlen (Go.TrimSpace prompt) >? 180
                 then Go.takeBytes 180 (Go.TrimSpace prompt)
                 else Go.TrimSpace prompt).
    assert (Hline : Go.strlen line <= 180).
    { unfold line. destruct (Go.strlen (Go.TrimSpace prompt) >? 180) eqn:E.
      - unfold Go.strlen.
        pose proof (takeBytes_length 180 (Go.TrimSpace prompt)). lia.
      - destruct (Z.gtb_spec (Go.strlen (Go.TrimSpace prompt)) 180);
          [discriminate | lia]. }
    eexists. split; [reflexivity|].
    set (text := ("- Auto-generated update" ++ llm.LF ++ llm.LF ++ line)%string).
    assert (Hlen : Go.strlen text = 25 + Go.strlen line).
    { unfold text, Go.strlen. rewrite !string_length_app.
      change (String.length "- Auto-generated update") with 23%nat.
      change (String.length llm.LF) with 1%nat. lia. }
    split.
    + unfold Go.strlen in *. lia.
    + unfold orchestrator.validateGeneratedSection.
      pose proof (TrimSpace_length_le text) as Hle.
      destruct (String.eqb (Go.TrimSpace text) "") eqn:E.
      * apply String.eqb_eq in E. exfalso. revert E. unfold text.
        apply (TrimSpace_dash
                 (" Auto-generated update" ++ llm.LF ++ llm.LF ++ line)).
      * destruct (Z.gtb_spec (Go.strlen (Go.TrimSpace text)) 25000);
          [lia | reflexivity].
Qed.

(** * Files and line endings *)

Lemma lookup_store_same path content files :
  lookup path (store path content files) = Some content.
Proof.
  induction files as [|[p c] rest IH]; simpl.
  - rewrite String.eqb_refl. reflexivity.
  - destruct (String.eqb p path) eqn:E; simpl; rewrite E;
      [reflexivity | exact IH].
Qed.



(** The carriage return as a byte. *)
Lemma prefix_CR c r :
  String.prefix doc.CR (String c r) = Ascii.eqb c (Go.byte 13).
Proof.
  unfold doc.CR. cbn [String.prefix].
  destruct (ascii_dec (Go.byte 13) c) as [<-|Hne].
  - rewrite Ascii.eqb_refl. destruct r; reflexivity.
  - symmetry. apply Ascii.eqb_neq. congruence.
Qed.

Lemma prefix_CRLF_needs_CR c r :
  Ascii.eqb c (Go.byte 13) = false ->
  String.prefix doc.CRLF (String c r) = false.
Proof.
  intros Hc. unfold doc.CRLF. cbn [String.prefix].
  destruct (ascii_dec (Go.byte 13) c) as [<-|Hne]; [|reflexivity].
  rewrite Ascii.eqb_refl in Hc. discriminate.
Qed.

Lemma Contains_CR_cons c r :
  Go.Contains (String c r) doc.CR
  = Ascii.eqb c (Go.byte 13) || Go.Contains r doc.CR.
Proof.
  cbn [Go.Contains]. rewrite prefix_CR.
  destruct (Ascii.eqb c (Go.byte 13)); reflexivity.
Qed.

(** Replacing every CR leaves none. *)
Lemma replaceAll_CR fuel : forall s,
  (String.length s <= fuel)%nat ->
  Go.Contains (Go.replaceAll fuel s doc.CR doc.LF) doc.CR = false.
Proof.
  induction fuel as [|fuel IH]; intros s Hs.
  - destruct s; [reflexivity | simpl in Hs; lia].
  - destruct s as [|c r]; [reflexivity|].
    cbn [Go.replaceAll]. rewrite prefix_CR. simpl in Hs.
    destruct (Ascii.eqb c (Go.byte 13)) eqn:E.
    + change (Go.dropBytes (String.length doc.CR) (String c r)) with r.
      change (doc.LF ++ Go.replaceAll fuel r doc.CR doc.LF)
        with (String (Go.byte 10) (Go.replaceAll fuel r doc.CR doc.LF)).
      rewrite Contains_CR_cons. apply IH. lia.
    + rewrite Contains_CR_cons, E. apply IH. lia.
Qed.

(** Without a CR there is nothing to replace. *)
Lemma replaceAll_without_CR fuel : forall s old new,
  Go.Contains s doc.CR = false ->
  old = doc.CR \/ old = doc.CRLF ->
  Go.replaceAll fuel s old new = s.
Proof.
  induction fuel as [|fuel IH]; intros s old new Hs Hold; [reflexivity|].
  destruct s as [|c r]; [reflexivity|].
  rewrite Contains_CR_cons in Hs. apply orb_false_iff in Hs.
  destruct Hs as [Hc Hr]. cbn [Go.replaceAll].
  assert (Hp : String.prefix old (String c r) = false).
  { destruct Hold as [->| ->];
      [rewrite prefix_CR; exact Hc | apply prefix_CRLF_needs_CR; exact Hc]. }
  rewrite Hp, (IH r old new Hr Hold). reflexivity.
Qed.

Lemma Contains_CRLF_needs_CR s :
  Go.Contains s doc.CR = false -> Go.Contains s doc.CRLF = false.
Proof.
  induction s as [|c r IH]; intros Hs; [reflexivity|].
  rewrite Contains_CR_cons in Hs. apply orb_false_iff in Hs.
  destruct Hs as [Hc Hr]. cbn [Go.Contains].
  rewrite (prefix_CRLF_needs_CR c r Hc). apply IH. exact Hr.
Qed.

(** X24. Normalizing to a line ending other than CRLF removes every
    carriage return, so the result is detected as LF text and normalizing
    it again changes nothing; a text without a carriage return is returned
    as it is. *)
Theorem NormalizeLineEndings_to_LF (content lineEnding : string) :
  lineEnding <> doc.CRLF ->
  let normalized := doc.NormalizeLineEndings content lineEnding in
  Go.Contains normalized doc.CR = false
  /\ doc.DetectLineEnding normalized = doc.LF
  /\ doc.NormalizeLineEndings normalized lineEnding = normalized
  /\ (Go.Contains content doc.CR = false -> normalized = content).
Proof.
  intros Hne. cbn zeta.
  assert (Hnorm : forall text,
            doc.NormalizeLineEndings text lineEnding
            = Go.ReplaceAll (Go.ReplaceAll text doc.CRLF doc.LF)
                            doc.CR doc.LF).
  { intros text. unfold doc.NormalizeLineEndings.
    destruct (String.eqb lineEnding doc.CRLF) eqn:E; [|reflexivity].
    apply String.eqb_eq in E. contradiction. }
  assert (Hsame : forall text, Go.Contains text doc.CR = false ->
                    doc.NormalizeLineEndings text lineEnding = text).
  { intros text Ht. rewrite Hnorm. unfold Go.ReplaceAll.
    rewrite (replaceAll_without_CR _ text doc.CRLF doc.LF Ht) by auto.
    apply replaceAll_without_CR; auto. }
  assert (Hclean : Go.Contains (doc.NormalizeLineEndings content lineEnding)
                     doc.CR = false).
  { rewrite Hnorm. unfold Go.ReplaceAll at 1. apply replaceAll_CR. lia. }
  split; [exact Hclean|]. split.
  - unfold doc.DetectLineEnding.
    rewrite (Contains_CRLF_needs_CR _ Hclean). reflexivity.
  - split; [apply Hsame; exact Hclean | apply Hsame].
Qed.

(** * The configuration *)

Section ValidateProps.
Context `{Unicode}.

Lemma checkFallbacks_ok fallbacks :
  config.checkFallbacks fallbacks = None ->
  Forall (fun fallback =>
            ToLower (Go.TrimSpace fallback) = ""
            \/ config.supported (ToLower (Go.TrimSpace fallback)) = true)
         fallbacks.
Proof.
  induction fallbacks as [|f rest IH]; simpl; intros Hc; [constructor|].
  destruct (String.eqb (ToLower (Go.TrimSpace f)) "") eqn:E.
  - constructor; [left; apply String.eqb_eq; exact E | apply IH; exact Hc].
  - destruct (config.supported (ToLower (Go.TrimSpace f))) eqn:Es;
      cbn [negb] in Hc; [|discriminate].
    constructor; [right; exact Es | apply IH; exact Hc].
Qed.

(** X25. A configuration that [Validate] accepts is usable as it leaves it:
    the provider and every non-blank fallback are supported, the providers
    that need an API key have one, the database path is not blank, the
    time-out and the number of retries are positive, the default section is
    not blank, and validating it again accepts it unchanged.  Only the three
    defaulted fields may differ from the input, and a rejected
    configuration is not modified. *)
Theorem Validate_accepts_usable_configurations (c c' : config.Config) err :
  config.Validate c = (c', err) ->
  (err <> None -> c' = c)
  /\ (err = None ->
      let provider :=
        ToLower (Go.TrimSpace (config.LLM_Provider (config.LLM c'))) in
      config.supported provider = true
      /\ Forall (fun fallback =>
                   ToLower (Go.TrimSpace fallback) = ""
                   \/ config.supported (ToLower (Go.TrimSpace fallback))
                      = true)
                (config.FallbackProviders (config.LLM c'))
      /\ (config.needsKey provider = true ->
          Go.TrimSpace (config.APIKey (config.LLM c')) <> "")
      /\ Go.TrimSpace (config.DBPath c') <> ""
      /\ 0 < config.Timeout (config.LLM c')
      /\ 0 < config.MaxRetries (config.LLM c')
      /\ Go.TrimSpace (config.DefaultSection (config.Runtime c')) <> ""
      /\ config.Validate c' = (c', None)
      /\ config.LLM_Provider (config.LLM c')
         = config.LLM_Provider (config.LLM c)
      /\ config.APIKey (config.LLM c') = config.APIKey (config.LLM c)
      /\ config.LLM_Model (config.LLM c') = config.LLM_Model (config.LLM c)
      /\ config.FailoverEnabled (config.LLM c')
         = config.FailoverEnabled (config.LLM c)
      /\ config.FallbackProviders (config.LLM c')
         = config.FallbackProviders (config.LLM c)
      /\ config.DocFiles c' = config.DocFiles c
      /\ config.Mappings c' = config.Mappings c
      /\ config.Git c' = config.Git c
      /\ config.DBPath c' = config.DBPath c).
Proof.
  unfold config.Validate.
  destruct (String.eqb (Go.TrimSpace (config.LLM_Provider (config.LLM c))) "")
    eqn:Eprov.
  { intros [= <- <-]. split; [reflexivity | discriminate]. }
  destruct (config.supported
              (ToLower (Go.TrimSpace (config.LLM_Provider (config.LLM c)))))
    eqn:Esup; cbn [negb].
  2: { intros [= <- <-]. split; [reflexivity | discriminate]. }
  destruct (config.checkFallbacks (config.FallbackProviders (config.LLM c)))
    as [e|] eqn:Efall.
  { intros [= <- <-]. split; [reflexivity | discriminate]. }
  destruct (config.needsKey _ && String.eqb _ "") eqn:Ekey.
  { intros [= <- <-]. split; [reflexivity | discriminate]. }
  destruct (String.eqb (Go.TrimSpace (config.DBPath c)) "") eqn:Edb.
  { intros [= <- <-]. split; [reflexivity | discriminate]. }
  intros [= <- <-]. split; [intros Hc; exfalso; apply Hc; reflexivity|].
  intros _. cbn zeta.
  cbn [config.LLM config.LLM_Provider config.APIKey config.LLM_Model
       config.Timeout config.MaxRetries config.FailoverEnabled
       config.FallbackProviders config.DocFiles config.Mappings config.Git
       config.DBPath config.Runtime config.DefaultSection].
  assert (Htime : 0 < (if config.Timeout (config.LLM c) <=? 0 then 60
                       else config.Timeout (config.LLM c))).
  { destruct (config.Timeout (config.LLM c) <=? 0) eqn:E;
      [lia | apply Z.leb_gt in E; exact E]. }
  assert (Hretry : 0 < (if config.MaxRetries (config.LLM c) <=? 0 then 3
                        else config.MaxRetries (config.LLM c))).
  { destruct (config.MaxRetries (config.LLM c) <=? 0) eqn:E;
      [lia | apply Z.leb_gt in E; exact E]. }
  assert (Hsect : String.eqb
            (Go.TrimSpace
               (if String.eqb
                     (Go.TrimSpace (config.DefaultSection (config.Runtime c)))
                     ""
                then "Recent Changes"
                else config.DefaultSection (config.Runtime c))) "" = false).
  { destruct (String.eqb
                (Go.TrimSpace (config.DefaultSection (config.Runtime c))) "")
      eqn:E; [reflexivity | exact E]. }
  split; [exact Esup|].
  split; [apply checkFallbacks_ok; exact Efall|].
  split.
  { intros Hk. rewrite Hk in Ekey. cbn [andb] in Ekey.
    apply String.eqb_neq. exact Ekey. }
  split; [apply String.eqb_neq; exact Edb|].
  split; [exact Htime|]. split; [exact Hretry|].
  split; [apply String.eqb_neq; exact Hsect|].
  split.
  { rewrite Eprov, Esup. cbn [negb]. rewrite Efall, Ekey, Edb, Hsect.
    apply Z.leb_gt in Htime. apply Z.leb_gt in Hretry.
    rewrite Htime, Hretry. reflexivity. }
  repeat split; reflexivity.
Qed.

End ValidateProps.

(** * The range entry point *)

Section Range.
Context `{Platform} {G L : Type} (u : orchestrator.Updater G L).

(** X26. [UpdateRangeCommits] asks git for the range between the trimmed
    bounds, with HEAD in place of a blank upper bound, and processes the
    commits of that range in the order git returns them; when a git query
    fails it returns that error with an empty summary and changes no row. *)
Theorem UpdateRangeCommits_processes_the_range
    ctx fromHash toHash dryRun (w : World G L) s err w' tr :
  orchestrator.UpdateRangeCommits u ctx fromHash toHash dryRun w
  = ((s, err), w', tr) ->
  (err = None ->
   exists toCommit commits,
     In (EGetLastProcessedRange (Go.TrimSpace fromHash) toCommit commits None)
        tr
     /\ (if String.eqb (Go.TrimSpace toHash) ""
         then In (EGetCurrentHEAD toCommit None) tr
         else toCommit = Go.TrimSpace toHash)
     /\ pending_marks tr = map gitutil.Hash commits)
  /\ (err <> None ->
      s = orchestrator.noSummary /\ pending_marks tr = [] /\ db w' = db w).
Proof.
  unfold orchestrator.UpdateRangeCommits. unfold_calls.
  destruct (String.eqb (Go.TrimSpace toHash) "") eqn:Eto.
  - destruct (on_git _ w) as [[head e1] w1] eqn:E1.
    destruct e1 as [e1|].
    { intros [= <- <- <- <-]. split; [discriminate|]. intros _.
      apply on_git_db in E1.
      split; [reflexivity|]. split; [reflexivity | congruence]. }
    destruct (on_git _ w1) as [[commits e2] w2] eqn:E2.
    destruct e2 as [e2|].
    { intros [= <- <- <- <-]. split; [discriminate|]. intros _.
      apply on_git_db in E1. apply on_git_db in E2.
      split; [reflexivity|]. split; [reflexivity | congruence]. }
    destruct (orchestrator.UpdateCommitList u ctx _ dryRun w2)
      as [[[s3 e3] w3] t3] eqn:E3.
    intros [= <- <- <- <-].
    pose proof (UpdateCommitList_no_error _ _ _ _ _ _ _ _ _ E3) as ->.
    split; [|intros Hc; exfalso; apply Hc; reflexivity].
    intros _. apply UpdateCommitList_frame in E3. destruct E3 as [Hp _].
    exists head, commits.
    split; [cbn [In app]; auto 10|]. split; [cbn [In app]; auto 10|].
    simpl. exact Hp.
  - destruct (on_git _ w) as [[commits e2] w2] eqn:E2.
    destruct e2 as [e2|].
    { intros [= <- <- <- <-]. split; [discriminate|]. intros _.
      apply on_git_db in E2.
      split; [reflexivity|]. split; [reflexivity | congruence]. }
    destruct (orchestrator.UpdateCommitList u ctx _ dryRun w2)
      as [[[s3 e3] w3] t3] eqn:E3.
    intros [= <- <- <- <-].
    pose proof (UpdateCommitList_no_error _ _ _ _ _ _ _ _ _ E3) as ->.
    split; [|intros Hc; exfalso; apply Hc; reflexivity].
    intros _. apply UpdateCommitList_frame in E3. destruct E3 as [Hp _].
    exists (Go.TrimSpace toHash), commits.
    split; [cbn [In app]; auto 10|]. split; [reflexivity|].
    simpl. exact Hp.
Qed.

End Range.

(** * What a success stands for *)

Section Outcome.
Context `{Platform} {G L : Type} (u : orchestrator.Updater G L).

(** A successful [MarkCommitProcessed] leaves the row it wrote, with the
    files it was given. *)
Lemma sql_MarkCommitProcessed_files commitHash status errText docCommit
    filesChanged (w : World G L) w' :
  sql (fun d f t => state.MarkCommitProcessed d f t commitHash status errText
                      docCommit filesChanged) w = (None, w') ->
  exists row, commit_row (db w') commitHash = Some row
    /\ state.status row = status
    /\ state.doc_commit_hash row = state.nullIfEmpty docCommit
    /\ state.doc_files_changed row
       = match filesChanged with None => [] | Some files => files end.
Proof.
  unfold sql, syscall, state.MarkCommitProcessed.
  destruct (script w) as [|st rest]; cbn [fault];
    [|destruct (fault st)]; try destruct (state.status_check status);
    intros [= <-]; unfold commit_row; cbn;
    eexists; (split; [apply (upsert_commit_finds
      {| state.commit_hash := commitHash; state.processed_at := _;
         state.status := status; state.error_text := _;
         state.doc_commit_hash := _; state.doc_files_changed := _ |})
      | repeat split; reflexivity]).
Qed.

(** X27. The pipeline returns success only after the document was written
    without error (in a dry run: without writing at all) and the commit was
    marked success with the target as its one changed file and the
    documentation commit, if any; the row holds these values when the run
    ends.  Whatever the result of the run, a write that succeeded is not
    undone: the target still holds the written content at the end. *)
Theorem success_follows_the_write
    ctx runID hash dryRun (w : World G L) st err w' tr :
  orchestrator.processSingleCommit u ctx runID hash dryRun w
  = ((st, err), w', tr) ->
  (st = "success" ->
   (if dryRun then no_write tr
    else exists path content, In (EAtomicWriteFile path content None) tr)
   /\ exists docCommit target,
        In (EMarkCommitProcessed hash "success" "" docCommit (Some [target])
                                 None) tr
        /\ exists row,
             commit_row (db w') hash = Some row
             /\ state.status row = "success"
             /\ state.doc_commit_hash row = state.nullIfEmpty docCommit
             /\ state.doc_files_changed row = [target])
  /\ (forall path content,
        In (EAtomicWriteFile path content None) tr ->
        lookup path (disk w') = Some content).
Proof.
  run_pipeline; intros [= <- <- <- <-];
    (split;
     [ intros Hst; try discriminate Hst;
       (split; [first [reflexivity | do 2 eexists; cbn [In]; eauto 40]|]);
       do 2 eexists; (split; [cbn [In]; eauto 40|]);
       match goal with
       | E : sql (fun d f t => state.MarkCommitProcessed d f t _ "success"
                                 _ _ _) _ = (None, _) |- _ =>
           apply sql_MarkCommitProcessed_files in E;
           destruct E as (row & Hrow & Hstatus & Hdoc & Hfiles)
       end;
       others; exists row; unfold commit_row in *;
       (split; [congruence|]); (split; [assumption|]);
       split; assumption
     | intros ? ? HinX; which_event HinX;
       match goal with
       | E : doc_AtomicWriteFile _ _ _ = (None, _) |- _ =>
           apply doc_AtomicWriteFile_spec in E;
           destruct E as (_ & _ & Hs); specialize (Hs eq_refl)
       end;
       frame;
       match goal with
       | Hs : disk _ = store ?p ?c ?old |- lookup ?p (disk ?wf) = _ =>
           replace (disk wf) with (store p c old) by congruence;
           apply lookup_store_same
       end ]).
Qed.

End Outcome.

(** ** The further properties on concrete inputs *)

Lemma NoDup_two_commits :
  NoDup (map state.commit_hash (state.processed_commits scenarios.twoCommits)).
Proof.
  vm_compute. constructor; [intros [Hc|[]]; discriminate Hc|].
  constructor; [intros []|constructor].
Defined.

Lemma ends_with_before_last tr a b d :
  ends_with tr [a; b] -> last (removelast tr) d = a.
Proof.
  intros [pre ->].
  replace (pre ++ [a; b])%list with ((pre ++ [a]) ++ [b])%list
    by (rewrite <- app_assoc; reflexivity).
  rewrite removelast_last. apply last_last.
Qed.

(** X1 on a store with two commits: marking [c1] again keeps two rows. *)
Lemma MarkCommitProcessed_witness :
  NoDup (map state.commit_hash (state.processed_commits scenarios.twoCommits))
  /\ NoDup (map state.commit_hash
              (state.processed_commits
                 (snd (state.MarkCommitProcessed scenarios.twoCommits None 300
                         "c1" "success" "" "d0c" (Some ["README.md"])))))
  /\ commit_row (snd (state.MarkCommitProcessed scenarios.twoCommits None 300
                        "c1" "success" "" "d0c" (Some ["README.md"]))) "c2"
     = commit_row scenarios.twoCommits "c2".
Proof.
  split; [exact NoDup_two_commits|].
  destruct (MarkCommitProcessed_keeps_one_row_per_commit scenarios.twoCommits
              (snd (state.MarkCommitProcessed scenarios.twoCommits None 300
                      "c1" "success" "" "d0c" (Some ["README.md"])))
              None 300 "c1" "success" "" "d0c" (Some ["README.md"]) None
              eq_refl NoDup_two_commits) as (Hnd & Hother & _).
  split; [exact Hnd|]. apply Hother. discriminate.
Defined.

(** X2 on the same store. *)
Lemma GetDocCommitHash_witness :
  state.GetDocCommitHash
    (snd (state.MarkCommitProcessed scenarios.twoCommits None 300 "c1"
            "success" "" "d0c" (Some ["README.md"]))) None "c1"
  = ("d0c", None)
  /\ state.GetDocCommitHash scenarios.twoCommits None "c9" = ("", None).
Proof.
  destruct (GetDocCommitHash_round_trip scenarios.twoCommits
              (snd (state.MarkCommitProcessed scenarios.twoCommits None 300
                      "c1" "success" "" "d0c" (Some ["README.md"])))
              300 "c1" "success" "" "d0c" (Some ["README.md"]) eq_refl)
    as (Hsame & _ & Hnone).
  split; [exact Hsame|]. apply Hnone. reflexivity.
Defined.

(** X5 on the same store. *)
Lemma GetStatusCounts_witness :
  Go.len (state.processed_commits scenarios.twoCommits) <= Go.max_int
  /\ state.Total (fst (state.GetStatusCounts scenarios.twoCommits None))
     = Go.len (state.processed_commits scenarios.twoCommits).
Proof.
  assert (Hlen : Go.len (state.processed_commits scenarios.twoCommits)
                 <= Go.max_int) by (vm_compute; discriminate).
  split; [exact Hlen|].
  assert (Hall : Forall (fun r => state.status_check (state.status r) = true)
                   (state.processed_commits scenarios.twoCommits))
    by (vm_compute; repeat constructor).
  exact (proj1 (proj2 (GetStatusCounts_counts_every_row scenarios.twoCommits
                         Hall Hlen))).
Defined.


(** X7: planning a target twice keeps one row and its creation time. *)
Lemma UpsertPlannedUpdate_witness :
  map plan_key
    (state.planned_updates
       (snd (state.UpsertPlannedUpdate
               (snd (state.UpsertPlannedUpdate state.empty None 100 "c1"
                       "README.md" "Recent Changes" "section_replace"
                       "planned" ""))
               None 200 "c1" "README.md" "Recent Changes" "section_replace"
               "applied" "")))
  = [("c1", "README.md", "Recent Changes")].
Proof.
  exact (proj1 (proj2 (UpsertPlannedUpdate_updates_in_place
           (snd (state.UpsertPlannedUpdate state.empty None 100 "c1"
                   "README.md" "Recent Changes" "section_replace" "planned"
                   ""))
           (snd (state.UpsertPlannedUpdate
                   (snd (state.UpsertPlannedUpdate state.empty None 100 "c1"
                           "README.md" "Recent Changes" "section_replace"
                           "planned" ""))
                   None 200 "c1" "README.md" "Recent Changes"
                   "section_replace" "applied" ""))
           200 "c1" "README.md" "Recent Changes" "section_replace" "applied"
           "" eq_refl))).
Defined.

(** X9: the failed commit [c2] becomes resumable when it is marked
    in_progress. *)
Lemma marked_commit_is_resumable_witness :
  In "c2"
     (fst (state.GetResumableCommits
             (snd (state.MarkCommitProcessed scenarios.twoCommits None 300
                     "c2" "in_progress" "" "" None)) None)).
Proof.
  apply (proj1 (marked_commit_is_resumable_iff_unfinished
                  scenarios.twoCommits
                  (snd (state.MarkCommitProcessed scenarios.twoCommits None
                          300 "c2" "in_progress" "" "" None))
                  300 "c2" "in_progress" "" "" None eq_refl
                  NoDup_two_commits)).
  right. reflexivity.
Defined.

(** X10 on commit [c0], which changes no file. *)
Lemma commit_without_changes_witness :
  In (EGetChangedFiles "c0" [] None) (snd scenarios.runNoChanges)
  /\ exists markErr,
       snd scenarios.runNoChanges
       = [EMarkCommitProcessed "c0" "in_progress" "" "" None None;
          EGetChangedFiles "c0" [] None;
          EMarkCommitProcessed "c0" "skipped" "" "" None markErr].
Proof.
  assert (Hin : In (EGetChangedFiles "c0" [] None)
                   (snd scenarios.runNoChanges)) by (vm_compute; in_list).
  split; [exact Hin|].
  destruct (commit_without_changes_is_skipped (H := fixtures.platform)
              (fixtures.updaterWith llm.MockClient) llm.Background "run-1"
              "c0" false (inputs.world0 tt)
              (fst (fst (fst scenarios.runNoChanges)))
              (snd (fst (fst scenarios.runNoChanges)))
              (snd (fst scenarios.runNoChanges))
              (snd scenarios.runNoChanges)
              ltac:(vm_compute; reflexivity) Hin)
    as (markErr & Htr & _).
  exists markErr. exact Htr.
Defined.

(** X11 on the repository of the tests. *)
Lemma pipeline_result_shape_witness :
  fst (fst (fst (inputs.run llm.MockClient false (inputs.world0 tt))))
  = "success"
  /\ snd (fst (fst (inputs.run llm.MockClient false (inputs.world0 tt))))
     = None.
Proof.
  destruct (pipeline_result_shape (H := fixtures.platform)
              (fixtures.updaterWith llm.MockClient) llm.Background "run-1"
              "c1" false (inputs.world0 tt)
              (fst (fst (fst (inputs.run llm.MockClient false
                                (inputs.world0 tt)))))
              (snd (fst (fst (inputs.run llm.MockClient false
                                (inputs.world0 tt)))))
              (snd (fst (inputs.run llm.MockClient false (inputs.world0 tt))))
              (snd (inputs.run llm.MockClient false (inputs.world0 tt)))
              ltac:(vm_compute; reflexivity))
    as [[Hst _]|[[Hst _]|[Hst Herr]]].
  - exfalso. revert Hst. vm_compute. discriminate.
  - exfalso. revert Hst. vm_compute. discriminate.
  - split; [exact Hst | exact Herr].
Defined.

(** X12 with documentation commits switched on: one [StageAndCommit] with
    the hash in its message, no [StageAndAmend]. *)
Lemma documentation_commit_witness :
  In (EStageAndCommit ["README.md"] "docs: auto-update for c1" "" None)
     (snd scenarios.runCommitting)
  /\ (count_events is_stage_commit (snd scenarios.runCommitting)
      + count_events is_stage_amend (snd scenarios.runCommitting) <= 1)%nat
  /\ count_events is_stage_amend (snd scenarios.runCommitting) = O.
Proof.
  assert (Hin : In (EStageAndCommit ["README.md"] "docs: auto-update for c1"
                      "" None) (snd scenarios.runCommitting))
    by (vm_compute; in_list).
  split; [exact Hin|].
  destruct (documentation_commit_routing (H := fixtures.platform)
              inputs.mappedUpdater llm.Background "run-1" "c1" false
              (inputs.world0 tt) (fst (fst scenarios.runCommitting))
              (snd (fst scenarios.runCommitting))
              (snd scenarios.runCommitting)
              ltac:(vm_compute; reflexivity)) as (Hone & _ & Hamend & _).
  split; [exact Hone|]. apply Hamend. reflexivity.
Defined.

(** X13 on the repository of the tests: the one write of the run. *)
Lemma only_validated_changes_witness :
  In (EAtomicWriteFile "/repo/README.md" inputs.mockUpdated None)
     (snd (inputs.run llm.MockClient false (inputs.world0 tt)))
  /\ (count_events is_file_write
        (snd (inputs.run llm.MockClient false (inputs.world0 tt))) <= 1)%nat
  /\ Go.TrimSpace inputs.mockUpdated <> Go.TrimSpace fixtures.readme.
Proof.
  assert (Hin : In (EAtomicWriteFile "/repo/README.md" inputs.mockUpdated None)
                   (snd (inputs.run llm.MockClient false (inputs.world0 tt))))
    by (vm_compute; in_list).
  split; [exact Hin|].
  destruct (only_validated_changes_are_written (H := fixtures.platform)
              (fixtures.updaterWith llm.MockClient) llm.Background "run-1"
              "c1" false (inputs.world0 tt)
              (fst (fst (inputs.run llm.MockClient false (inputs.world0 tt))))
              (snd (fst (inputs.run llm.MockClient false (inputs.world0 tt))))
              (snd (inputs.run llm.MockClient false (inputs.world0 tt)))
              ltac:(vm_compute; reflexivity)) as (Hone & Hwrite).
  split; [exact Hone|].
  destruct (Hwrite _ _ _ Hin)
    as (_ & docRaw & section & newContent & updated & Hread & _ & _ & _
        & Hdiff).
  assert (Hraw : docRaw = fixtures.readme).
  { revert Hread. vm_compute. intros Hread.
    repeat (destruct Hread as [Hread|Hread];
            [try discriminate Hread; try (injection Hread as <-; reflexivity)
            |]).
    contradiction. }
  subst docRaw. exact Hdiff.
Defined.

(** X14 on the repository of the tests: the answer of the run is found
    afterwards. *)
Lemma stored_response_witness :
  In (EPutCachedLLMResponse
        {| state.CommitHash := "c1"; state.DocFile := "README.md";
           state.SectionID := "Recent Changes"; state.Provider := "mock";
           state.Model := "gpt-4o-mini";
           state.PromptHash :=
             orchestrator.hashPrompt (H := fixtures.platform) inputs.prompt1;
           state.Response := inputs.mockAnswer |} None)
     (snd (inputs.run llm.MockClient false (inputs.world0 tt)))
  /\ exists prompt,
       state.GetCachedLLMResponse (H := fixtures.platform)
         (db (snd (fst (inputs.run llm.MockClient false (inputs.world0 tt)))))
         None "c1" "README.md" "Recent Changes" "mock" "gpt-4o-mini" prompt
       = (inputs.mockAnswer, true, None).
Proof.
  assert (Hin : In (EPutCachedLLMResponse
                      {| state.CommitHash := "c1";
                         state.DocFile := "README.md";
                         state.SectionID := "Recent Changes";
                         state.Provider := "mock";
                         state.Model := "gpt-4o-mini";
                         state.PromptHash :=
                           orchestrator.hashPrompt (H := fixtures.platform)
                             inputs.prompt1;
                         state.Response := inputs.mockAnswer |} None)
                   (snd (inputs.run llm.MockClient false (inputs.world0 tt))))
    by (vm_compute; in_list).
  split; [exact Hin|].
  destruct (stored_response_is_found_after_the_run (H := fixtures.platform)
              (fixtures.updaterWith llm.MockClient) llm.Background "run-1"
              "c1" false (inputs.world0 tt)
              (fst (fst (inputs.run llm.MockClient false (inputs.world0 tt))))
              (snd (fst (inputs.run llm.MockClient false (inputs.world0 tt))))
              (snd (inputs.run llm.MockClient false (inputs.world0 tt)))
              _ ltac:(vm_compute; reflexivity) Hin)
    as (prompt & _ & _ & _ & Hhit).
  exists prompt. exact Hhit.
Defined.

(** X16 on the repository of the tests. *)
Lemma UpdateCommitList_visits_witness :
  pending_marks
    (snd (orchestrator.UpdateCommitList (H := fixtures.platform)
            (fixtures.updaterWith llm.MockClient) llm.Background
            ["c1"; "c0"] false (inputs.world0 tt)))
  = ["c1"; "c0"].
Proof.
  exact (proj1 (UpdateCommitList_visits_every_listed_commit
                  (H := fixtures.platform)
                  (fixtures.updaterWith llm.MockClient) llm.Background
                  ["c1"; "c0"] false (inputs.world0 tt)
                  (fst (fst (orchestrator.UpdateCommitList
                               (H := fixtures.platform)
                               (fixtures.updaterWith llm.MockClient)
                               llm.Background ["c1"; "c0"] false
                               (inputs.world0 tt))))
                  (snd (fst (orchestrator.UpdateCommitList
                               (H := fixtures.platform)
                               (fixtures.updaterWith llm.MockClient)
                               llm.Background ["c1"; "c0"] false
                               (inputs.world0 tt))))
                  _ ltac:(vm_compute; reflexivity))).
Defined.

(** X17 on the repository without its README: the failure is on record. *)
Lemma counted_failure_witness :
  orchestrator.Failed (fst (fst scenarios.iterationFailing))
  <> orchestrator.Failed orchestrator.noSummary
  /\ exists row,
       commit_row (db (snd (fst scenarios.iterationFailing))) "c1" = Some row
       /\ state.status row = "failed"
       /\ state.error_text row
          = Some "target doc file not found: README.md".
Proof.
  assert (Hfailed : orchestrator.Failed (fst (fst scenarios.iterationFailing))
                    <> orchestrator.Failed orchestrator.noSummary)
    by (vm_compute; discriminate).
  split; [exact Hfailed|].
  destruct (counted_failure_is_recorded (H := fixtures.platform)
              (fixtures.updaterWith llm.MockClient) llm.Background "run-1"
              false orchestrator.noSummary "c1" inputs.worldNoReadme
              (fst (fst scenarios.iterationFailing))
              (snd (fst scenarios.iterationFailing))
              (snd scenarios.iterationFailing)
              ltac:(vm_compute; reflexivity) Hfailed)
    as [(e & logErr & Htr & _)|(e & markErr & logErr & Hend & Hrow)].
  - exfalso. revert Htr. vm_compute. discriminate.
  - assert (Hlast : last (snd scenarios.iterationFailing)
                         (EGetRepoRoot "" None)
                    = ELogRunEvent "run-1" "c1" "error" "orchestrator"
                        "commit processing failed" (Some [("error", e)])
                        logErr)
      by (eapply ends_with_last; exact Hend).
    vm_compute in Hlast. injection Hlast as He _. subst e.
    assert (Hbefore : last (removelast (snd scenarios.iterationFailing))
                           (EGetRepoRoot "" None)
                      = EMarkCommitProcessed "c1" "failed"
                          "target doc file not found: README.md" "" None
                          markErr)
      by (eapply ends_with_before_last; exact Hend).
    vm_compute in Hbefore. injection Hbefore as Hmark. symmetry in Hmark.
    destruct (Hrow Hmark) as (row & H1 & H2 & H3).
    exists row. split; [exact H1|]. split; [exact H2|]. exact H3.
Defined.

(** X18 on the repository with [c1] left pending: it is processed again. *)
Lemma UpdateNewCommits_witness :
  snd (fst (fst (orchestrator.UpdateNewCommits (H := fixtures.platform)
                   (fixtures.updaterWith llm.MockClient) llm.Background false
                   scenarios.worldPending))) = None
  /\ exists commits,
       pending_marks
         (snd (orchestrator.UpdateNewCommits (H := fixtures.platform)
                 (fixtures.updaterWith llm.MockClient) llm.Background false
                 scenarios.worldPending))
       = orchestrator.mergeUnique ["c1"] (map gitutil.Hash commits).
Proof.
  assert (Herr : snd (fst (fst (orchestrator.UpdateNewCommits
                                  (H := fixtures.platform)
                                  (fixtures.updaterWith llm.MockClient)
                                  llm.Background false
                                  scenarios.worldPending))) = None)
    by (vm_compute; reflexivity).
  split; [exact Herr|].
  destruct (UpdateNewCommits_processes_resumable_then_new
              (H := fixtures.platform)
              (fixtures.updaterWith llm.MockClient) llm.Background false
              scenarios.worldPending
              (fst (fst (fst (orchestrator.UpdateNewCommits
                                (H := fixtures.platform)
                                (fixtures.updaterWith llm.MockClient)
                                llm.Background false
                                scenarios.worldPending))))
              (snd (fst (fst (orchestrator.UpdateNewCommits
                                (H := fixtures.platform)
                                (fixtures.updaterWith llm.MockClient)
                                llm.Background false
                                scenarios.worldPending))))
              _ _ ltac:(vm_compute; reflexivity)) as [Hok _].
  destruct (Hok Herr) as (head & commits & _ & _ & Hmarks).
  exists commits. exact Hmarks.
Defined.

(** X19 with two providers that are down and one retry. *)
Lemma failing_providers_witness :
  never_cancelled llm.Background
  /\ exists e c',
       llm.ResilientClient_Generate llm.Background "prompt"
         (llm.NewResilientClient
            [(scenarios.downClient, tt); (scenarios.downClient, tt)] 1)
       = (("", Some e), c',
          [llm.Attempt 0 0; llm.Wait 0 0 (llm.backoff 0); llm.Attempt 0 1;
           llm.Attempt 1 0; llm.Wait 1 0 (llm.backoff 0); llm.Attempt 1 1])
       /\ attempt_failure 2 e.
Proof.
  assert (Hlive : never_cancelled llm.Background) by (intros k; reflexivity).
  split; [exact Hlive|].
  destruct (failing_providers_are_each_exhausted llm.Background "prompt"
              [(scenarios.downClient, tt); (scenarios.downClient, tt)] 1
              Hlive ltac:(unfold Go.max_int; lia) ltac:(discriminate)
              ltac:(repeat constructor; intros ? ? ?; discriminate))
    as (_ & e & c' & Hrun & Hshape & _).
  exists e, c'. split; [exact Hrun | exact Hshape].
Defined.

(** X20 on the pair of [resilient_test.go]. *)
Lemma cancelled_context_witness :
  llm.ResilientClient_Generate scenarios.cancelled "prompt"
    (llm.NewResilientClient inputs.flakyPair 3)
  = (("", Some "context canceled"),
     llm.NewResilientClient inputs.flakyPair 3, [])
  /\ llm.ResilientClient_Generate scenarios.cancelledLater "prompt"
       (llm.NewResilientClient inputs.flakyPair 3)
     = (("", Some "context canceled"),
        {| llm.clients :=
             [(llm.flakyClient "primary" 2, 1%nat);
              (llm.flakyClient "fallback" 0, 0%nat)];
           llm.maxRetries := 3 |},
        [llm.Attempt 0 0; llm.Wait 0 0 (llm.backoff 0)]).
Proof.
  split.
  - apply (proj1 (cancelled_context_stops_the_client scenarios.cancelled
                    "prompt" inputs.flakyPair 3 "context canceled"
                    ltac:(discriminate))).
    reflexivity.
  - apply (proj2 (cancelled_context_stops_the_client scenarios.cancelledLater
                    "prompt" inputs.flakyPair 3 "context canceled"
                    ltac:(discriminate))
             (llm.flakyClient "primary" 2) 0%nat
             [(llm.flakyClient "fallback" 0, 0%nat)] "" "transient failure"
             1%nat);
      [reflexivity | reflexivity | reflexivity | lia | reflexivity].
Defined.


(** X24 on a text with the three kinds of line break. *)
Lemma NormalizeLineEndings_witness :
  doc.LF <> doc.CRLF
  /\ Go.Contains (doc.NormalizeLineEndings scenarios.mixedBreaks doc.LF) doc.CR
     = false
  /\ doc.DetectLineEnding
       (doc.NormalizeLineEndings scenarios.mixedBreaks doc.LF) = doc.LF.
Proof.
  assert (Hne : doc.LF <> doc.CRLF) by discriminate.
  split; [exact Hne|].
  destruct (NormalizeLineEndings_to_LF scenarios.mixedBreaks doc.LF Hne)
    as (Hclean & Hdetect & _).
  split; [exact Hclean | exact Hdetect].
Defined.

(** X25 on a configuration that leaves the defaulted fields unset. *)
Lemma Validate_witness :
  snd (config.Validate (H := asciiLower) scenarios.sloppyConfig) = None
  /\ 0 < config.Timeout
           (config.LLM
              (fst (config.Validate (H := asciiLower) scenarios.sloppyConfig)))
  /\ 0 < config.MaxRetries
           (config.LLM
              (fst (config.Validate (H := asciiLower) scenarios.sloppyConfig)))
  /\ config.Validate (H := asciiLower)
       (fst (config.Validate (H := asciiLower) scenarios.sloppyConfig))
     = (fst (config.Validate (H := asciiLower) scenarios.sloppyConfig), None).
Proof.
  assert (Herr : snd (config.Validate (H := asciiLower)
                        scenarios.sloppyConfig) = None)
    by (vm_compute; reflexivity).
  split; [exact Herr|].
  destruct (Validate_accepts_usable_configurations (H := asciiLower)
              scenarios.sloppyConfig
              (fst (config.Validate (H := asciiLower) scenarios.sloppyConfig))
              None ltac:(vm_compute; reflexivity)) as [_ Hok].
  destruct (Hok eq_refl) as (_ & _ & _ & _ & Ht & Hr & _ & Hidem & _).
  split; [exact Ht|]. split; [exact Hr | exact Hidem].
Defined.

(** X26 on a repository whose range holds [c1]: blank upper bound, padded
    lower bound. *)
Lemma UpdateRangeCommits_witness :
  snd (fst (fst (orchestrator.UpdateRangeCommits (H := fixtures.platform)
                   scenarios.rangeUpdater llm.Background " from-1 " ""
                   false (inputs.world0 tt)))) = None
  /\ exists toCommit commits,
       In (EGetLastProcessedRange "from-1" toCommit commits None)
          (snd (orchestrator.UpdateRangeCommits (H := fixtures.platform)
                  scenarios.rangeUpdater llm.Background " from-1 " ""
                  false (inputs.world0 tt)))
       /\ pending_marks
            (snd (orchestrator.UpdateRangeCommits (H := fixtures.platform)
                    scenarios.rangeUpdater llm.Background " from-1 " ""
                    false (inputs.world0 tt)))
          = map gitutil.Hash commits.
Proof.
  assert (Herr : snd (fst (fst (orchestrator.UpdateRangeCommits
                                  (H := fixtures.platform)
                                  scenarios.rangeUpdater llm.Background
                                  " from-1 " "" false (inputs.world0 tt))))
                 = None) by (vm_compute; reflexivity).
  split; [exact Herr|].
  destruct (UpdateRangeCommits_processes_the_range (H := fixtures.platform)
              scenarios.rangeUpdater llm.Background " from-1 " "" false
              (inputs.world0 tt)
              (fst (fst (fst (orchestrator.UpdateRangeCommits
                                (H := fixtures.platform)
                                scenarios.rangeUpdater llm.Background
                                " from-1 " "" false (inputs.world0 tt)))))
              (snd (fst (fst (orchestrator.UpdateRangeCommits
                                (H := fixtures.platform)
                                scenarios.rangeUpdater llm.Background
                                " from-1 " "" false (inputs.world0 tt)))))
              _ _ ltac:(vm_compute; reflexivity)) as [Hok _].
  destruct (Hok Herr) as (toCommit & commits & Hin & _ & Hmarks).
  exists toCommit, commits.
  split; [|exact Hmarks].
  replace "from-1" with (Go.TrimSpace " from-1 ") by (vm_compute; reflexivity).
  exact Hin.
Defined.

(** X27 on the repository of the tests. *)
Lemma success_follows_the_write_witness :
  fst (fst (fst (inputs.run llm.MockClient false (inputs.world0 tt))))
  = "success"
  /\ lookup "/repo/README.md"
       (disk (snd (fst (inputs.run llm.MockClient false (inputs.world0 tt)))))
     = Some inputs.mockUpdated.
Proof.
  assert (Hst : fst (fst (fst (inputs.run llm.MockClient false
                                 (inputs.world0 tt)))) = "success")
    by (vm_compute; reflexivity).
  split; [exact Hst|].
  destruct (success_follows_the_write (H := fixtures.platform)
              (fixtures.updaterWith llm.MockClient) llm.Background "run-1"
              "c1" false (inputs.world0 tt)
              (fst (fst (fst (inputs.run llm.MockClient false
                                (inputs.world0 tt)))))
              (snd (fst (fst (inputs.run llm.MockClient false
                                (inputs.world0 tt)))))
              (snd (fst (inputs.run llm.MockClient false (inputs.world0 tt))))
              (snd (inputs.run llm.MockClient false (inputs.world0 tt)))
              ltac:(vm_compute; reflexivity)) as [_ Hkept].
  apply Hkept. vm_compute. in_list.
Defined.

(** X4 on a store without a successful commit. *)
Lemma GetLastProcessedCommit_witness :
  state.GetLastProcessedCommit scenarios.twoCommits None = ("", None).
Proof.
  apply (proj1 (GetLastProcessedCommit_is_latest_success scenarios.twoCommits)).
  vm_compute. intros r [<-|[<-|[]]]; discriminate.
Defined.


(** X15 on lists with a repeated and an empty item. *)
Lemma mergeUnique_witness :
  In "c2" (orchestrator.mergeUnique ["c1"; ""; "c1"] ["c2"; "c1"])
  /\ NoDup (orchestrator.mergeUnique ["c1"; ""; "c1"] ["c2"; "c1"]).
Proof.
  destruct (mergeUnique_keeps_each_item_once ["c1"; ""; "c1"] ["c2"; "c1"])
    as (Hnd & _ & Hin & _).
  split; [|exact Hnd].
  apply Hin. split; [discriminate|]. right. left. reflexivity.
Defined.
